(** * Age Transition Intelligence dashboard: the computations of [app.py]

    The script [app.py] loads two tables with pandas, narrows the district
    table by the sidebar widgets and derives every number it shows from the
    two tables.  This development embeds those computations and states the
    properties of the behavioural description against them.

    Modelling conventions.
    - A DataFrame is the list of its rows, in index order; a row is a record
      of the columns the script reads.
    - Integer columns are [np.int64]: a value is a [Z] and a pandas sum is
      reduced by [wrap64].
    - [avg_ATI] and the slider bounds are finite binary64 values.  The script
      only compares them, and a comparison of finite binary64 values is the
      comparison of the rationals they denote, so they are kept in [Q].
    - Derived floating-point results are values of [f64]: a real number or
      one of the IEEE special values [+inf], [-inf], [NaN].  Arithmetic on
      finite values is exact (rounding, overflow to infinity and the sign of
      zero are not modelled); the special cases follow IEEE 754, which is
      what NumPy scalars and pandas columns compute.  pandas shows [NaN] as
      the missing value (null).
    - A date is a month start.  The timestamps of pandas are bounded and the
      bound depends on the resolution of the column, so the forecast takes
      the number of the last month a timestamp can hold as a parameter.
    - A Python exception is a [Raise] result.  Python's own [int / int]
      raises [ZeroDivisionError] on a zero divisor; a division with a NumPy
      operand does not raise and returns [inf] or [NaN]. *)

From Stdlib Require Import ZArith QArith List Bool String Lia Lra.
From Stdlib Require Import Reals Qreals Permutation Sorted.
Import ListNotations.

Close Scope R_scope.
Close Scope Q_scope.

Set Implicit Arguments.

(** ** Tables *)

Module DistrictProfile.

(** One row of [district_intelligence.csv]. *)
Record row : Type := mk {
  state : string;
  district : string;
  total_5_17 : Z;
  total_17_plus : Z;
  avg_ATI : Q;
  anomaly_flag : Z
}.

End DistrictProfile.

Module TimeTrends.

(** One row of [time_trends.csv].  [load_data] adds the column [date], the
    first day of the row's month. *)
Record row : Type := mk {
  year : Z;
  month : Z;
  total_5_17 : Z;
  total_17_plus : Z
}.

(** A month-start timestamp, or pandas' missing timestamp [NaT]. *)
Inductive timestamp : Type :=
| NaT
| MonthStart (y m : Z).

Definition date (r : row) : timestamp := MonthStart (year r) (month r).

End TimeTrends.

Definition DistrictRecord : Type := DistrictProfile.row.
Definition MonthlyTrendRecord : Type := TimeTrends.row.

(** Two districts and two months, used as examples below. *)
Definition two_districts : list DistrictRecord :=
  [DistrictProfile.mk "Kerala" "Idukki" 10 20 (1 # 2)%Q 1;
 DistrictProfile.mk "Goa" "North Goa" 5 8 (3 # 4)%Q (-1)].

Definition two_months : list MonthlyTrendRecord :=
  [TimeTrends.mk 2024 1 3 100; TimeTrends.mk 2024 2 4 110].

(** ** Subsequences *)

(** [subseq s l]: [s] is obtained from [l] by deleting rows, the rows kept
    staying in their order. *)
Inductive subseq {A : Type} : list A -> list A -> Prop :=
| subseq_nil : subseq [] []
| subseq_skip : forall x s l, subseq s l -> subseq s (x :: l)
| subseq_keep : forall x s l, subseq s l -> subseq (x :: s) (x :: l).

#[local] Hint Constructors subseq : core.

(** ** The sidebar filter (lines 87 to 98) *)

Module Filter.
Import DistrictProfile.

(** [DataFrame.isin] on the column [state]. *)
Definition isin (s : string) (values : list string) : bool :=
  existsb (String.eqb s) values.

(** ["All States" not in selected_states] is false: no restriction. *)
Definition unrestricted (selected_states : list string) : bool :=
  existsb (String.eqb "All States") selected_states.

Definition in_ati_range (ati_range : Q * Q) (r : row) : bool :=
  Qle_bool (fst ati_range) (avg_ATI r) && Qle_bool (avg_ATI r) (snd ati_range).

Definition is_anomaly (r : row) : bool := (anomaly_flag r =? -1)%Z.

(** The three steps of the script, each a boolean-mask selection on the
    frame produced by the step before. *)
Definition filtered_data (district_profile : list row)
    (selected_states : list string) (ati_range : Q * Q)
    (show_anomalies : bool) : list row :=
  let filtered_data := district_profile in
  let filtered_data :=
    if negb (unrestricted selected_states)
    then filter (fun r => isin (state r) selected_states) filtered_data
    else filtered_data in
  let filtered_data := filter (in_ati_range ati_range) filtered_data in
  if show_anomalies then filter is_anomaly filtered_data else filtered_data.

(** The conjunction of the predicates the widgets select. *)
Definition keeps (selected_states : list string) (ati_range : Q * Q)
    (show_anomalies : bool) (r : row) : bool :=
  (unrestricted selected_states || isin (state r) selected_states)
  && in_ati_range ati_range r
  && (negb show_anomalies || is_anomaly r).

(** [anomaly_count = (filtered_data['anomaly_flag'] == -1).sum()]: the sum
    of a boolean column. *)
Fixpoint anomaly_count (filtered_data : list row) : Z :=
  match filtered_data with
  | [] => 0
  | r :: rest => ((if is_anomaly r then 1 else 0) + anomaly_count rest)%Z
  end.

End Filter.

(** ** Python exceptions *)

Inductive exn : Type := IndexError | ZeroDivisionError | ValueError | KeyError.

Inductive result (A : Type) : Type :=
| Ok (a : A)
| Raise (e : exn).

Arguments Ok {A} a.
Arguments Raise {A} e.

Definition bind {A B : Type} (r : result A) (k : A -> result B) : result B :=
  match r with
  | Ok a => k a
  | Raise e => Raise e
  end.

Notation "x <- r ;; k" := (bind r (fun x => k))
  (at level 61, r at next level, right associativity).

(** ** Integers of 64 bits *)

Module Int64.
Local Open Scope Z_scope.

Definition wrap64 (z : Z) : Z := (z + 2 ^ 63) mod 2 ^ 64 - 2 ^ 63.

Definition in_range (z : Z) : Prop := - 2 ^ 63 <= z < 2 ^ 63.

(** [Series.sum()] of an [int64] column: the accumulator wraps. *)
Definition sum (l : list Z) : Z := fold_left (fun acc x => wrap64 (acc + x)) l 0.

End Int64.

(** ** Binary64 values *)

Module F64.
Local Open Scope R_scope.

Inductive f64 : Type :=
| Fin (r : R)
| PInf
| NInf
| NaN.

Definition is_finite (x : f64) : bool :=
  match x with Fin _ => true | _ => false end.

(** Conversion of an integer operand. *)
Definition of_int (z : Z) : f64 := Fin (IZR z).

Definition Rsign (r : R) : comparison :=
  match total_order_T r 0 with
  | inleft (left _) => Lt
  | inleft (right _) => Eq
  | inright _ => Gt
  end.

(** The infinity of a given sign; the sign [Eq] stands for an invalid
    operation such as [0 * inf] or [0 / 0]. *)
Definition signed_inf (c : comparison) : f64 :=
  match c with Lt => NInf | Eq => NaN | Gt => PInf end.

Definition opp (x : f64) : f64 :=
  match x with
  | Fin a => Fin (- a)
  | PInf => NInf
  | NInf => PInf
  | NaN => NaN
  end.

Definition add (x y : f64) : f64 :=
  match x, y with
  | NaN, _ | _, NaN => NaN
  | Fin a, Fin b => Fin (a + b)
  | PInf, NInf | NInf, PInf => NaN
  | PInf, _ | _, PInf => PInf
  | NInf, _ | _, NInf => NInf
  end.

Definition sub (x y : f64) : f64 := add x (opp y).

Definition mul (x y : f64) : f64 :=
  match x, y with
  | NaN, _ | _, NaN => NaN
  | Fin a, Fin b => Fin (a * b)
  | PInf, Fin b | Fin b, PInf => signed_inf (Rsign b)
  | NInf, Fin b | Fin b, NInf => signed_inf (CompOpp (Rsign b))
  | PInf, PInf | NInf, NInf => PInf
  | PInf, NInf | NInf, PInf => NInf
  end.

(** Division of NumPy scalars and pandas columns: a zero divisor gives an
    infinity of the sign of the dividend, and [0 / 0] gives [NaN]; nothing
    is raised. *)
Definition div (x y : f64) : f64 :=
  match x, y with
  | NaN, _ | _, NaN => NaN
  | Fin a, Fin b =>
    match Rsign b with
    | Eq => signed_inf (Rsign a)
    | _ => Fin (a / b)
    end
  | Fin _, _ => Fin 0
  | PInf, Fin b => match Rsign b with Lt => NInf | _ => PInf end
  | NInf, Fin b => match Rsign b with Lt => PInf | _ => NInf end
  | _, _ => NaN
  end.

(** [x > y]; false as soon as an operand is [NaN]. *)
Definition gtb (x y : f64) : bool :=
  match x, y with
  | NaN, _ | _, NaN => false
  | Fin a, Fin b => match Rsign (a - b) with Gt => true | _ => false end
  | PInf, PInf => false
  | PInf, _ => true
  | Fin _, NInf => true
  | _, _ => false
  end.

(** [x ** y] for a finite exponent [y] that is positive and not an integer
    (the script's only such exponent is [1/12]): the cases of C's [pow]. *)
Definition power (x : f64) (y : R) : f64 :=
  match x with
  | NaN => NaN
  | PInf | NInf => PInf
  | Fin a =>
    match Rsign a with
    | Gt => Fin (Rpower a y)
    | Eq => Fin 0
    | Lt => NaN
    end
  end.

(** [x ** i] for a Python [int] exponent [i >= 0]. *)
Definition power_int (x : f64) (i : nat) : f64 :=
  match i with
  | O => Fin 1
  | _ =>
    match x with
    | Fin a => Fin (a ^ i)
    | PInf => PInf
    | NInf => if Nat.even i then PInf else NInf
    | NaN => NaN
    end
  end.

(** Python's [a / b] on two [int] operands. *)
Definition py_truediv (a b : Z) : result R :=
  if (b =? 0)%Z then Raise ZeroDivisionError else Ok (IZR a / IZR b).

End F64.

(** ** The largest rows ([DataFrame.nlargest], lines 155 and 199) *)

Section NLargest.
Variable A : Type.
Variable key : A -> Q.

(** [x] goes in front of the first row whose key does not exceed its own,
    hence in front of the rows of equal key that were placed before it. *)
Fixpoint insert_desc (x : A) (l : list A) : list A :=
  match l with
  | [] => [x]
  | y :: ys => if Qle_bool (key y) (key x) then x :: y :: ys else y :: insert_desc x ys
  end.

Definition sort_desc (l : list A) : list A := fold_right insert_desc [] l.

(** [nlargest(n, column)], with pandas' default [keep='first']: the first
    [n] rows in descending order of the column, rows of equal value in
    their order in the frame. *)
Definition nlargest (n : nat) (l : list A) : list A := firstn n (sort_desc l).

(** Descending order of the key. *)
Definition descending (l : list A) : Prop :=
  StronglySorted (fun a b => (key b <= key a)%Q) l.

(** The rows whose key equals [k]. *)
Definition tied (k : Q) (a : A) : bool := Qeq_bool (key a) k.

End NLargest.

Module TopN.
Import DistrictProfile.

Definition top_districts (filtered_data : list row) : list row :=
  nlargest avg_ATI 15 filtered_data.

Definition top_demo (filtered_data : list row) : list row :=
  nlargest (fun r => inject_Z (total_17_plus r)) 10 filtered_data.

End TopN.

(** ** Year-over-year growth (lines 318 to 324) *)

Module Yearly.
Import TimeTrends Int64 F64.
Local Open Scope Z_scope.

(** A group of [groupby('year')]: the year and the two sums so far. *)
Definition group : Type := Z * (Z * Z).

(** One more row in the groups, which are kept in ascending order of the
    year, as [groupby] sorts its keys. *)
Fixpoint group_add (r : row) (groups : list group) : list group :=
  match groups with
  | [] => [(year r, (wrap64 (0 + total_5_17 r), wrap64 (0 + total_17_plus r)))]
  | (y, (a, b)) :: rest =>
    if year r <? y
    then (year r, (wrap64 (0 + total_5_17 r), wrap64 (0 + total_17_plus r))) :: groups
    else if year r =? y
    then (y, (wrap64 (a + total_5_17 r), wrap64 (b + total_17_plus r))) :: rest
    else (y, (a, b)) :: group_add r rest
  end.

(** [time_trends.groupby('year').agg({...: 'sum'}).reset_index()]. *)
Definition groupby_year_sum (time_trends : list row) : list group :=
  fold_left (fun groups r => group_add r groups) time_trends [].

(** [Series.shift(1)]: the first entry is missing. *)
Definition shift1 (l : list f64) : list f64 :=
  match l with
  | [] => []
  | _ :: _ => NaN :: removelast l
  end.

(** [Series.pct_change()]: [data / data.shift(1) - 1]. *)
Definition pct_change (l : list Z) : list f64 :=
  map (fun p => sub (div (fst p) (snd p)) (Fin 1))
    (combine (map of_int l) (shift1 (map of_int l))).

Definition times_100 (l : list f64) : list f64 := map (fun x => mul x (Fin 100)) l.

Record yearly_row : Type := mk_yearly {
  yr_year : Z;
  yr_total_5_17 : Z;
  yr_total_17_plus : Z;
  growth_5_17 : f64;
  growth_17_plus : f64
}.

Definition growth_5_17_column (groups : list group) : list f64 :=
  times_100 (pct_change (map (fun g => fst (snd g)) groups)).

Definition growth_17_plus_column (groups : list group) : list f64 :=
  times_100 (pct_change (map (fun g => snd (snd g)) groups)).

(** The frame [yearly_growth] once both growth columns are set. *)
Definition yearly_growth (time_trends : list row) : list yearly_row :=
  let groups := groupby_year_sum time_trends in
  map (fun p => mk_yearly (fst (fst p)) (fst (snd (fst p))) (snd (snd (fst p)))
                        (fst (snd p)) (snd (snd p)))
    (combine groups
       (combine (growth_5_17_column groups) (growth_17_plus_column groups))).

(** The rows of one year, the two yearly totals, and the group of a year. *)
Definition year_rows (y : Z) (time_trends : list row) : list row :=
  filter (fun r => year r =? y) time_trends.

Definition year_total_5_17 (y : Z) (time_trends : list row) : Z :=
  Int64.sum (map total_5_17 (year_rows y time_trends)).

Definition year_total_17_plus (y : Z) (time_trends : list row) : Z :=
  Int64.sum (map total_17_plus (year_rows y time_trends)).

Fixpoint lookup (y : Z) (groups : list group) : option (Z * Z) :=
  match groups with
  | [] => None
  | (y', v) :: rest => if y =? y' then Some v else lookup y rest
  end.

(** The totals of a year once the row [r] of that year is added. *)
Definition added (r : row) (old : option (Z * Z)) : Z * Z :=
  match old with
  | Some (a, b) => (wrap64 (a + total_5_17 r), wrap64 (b + total_17_plus r))
  | None => (wrap64 (0 + total_5_17 r), wrap64 (0 + total_17_plus r))
  end.

Definition keys_sorted (groups : list group) : Prop :=
  StronglySorted Z.lt (map fst groups).

(** The growth of one entry over the entry before it. *)
Definition pct (curr prev : Z) : f64 :=
  sub (div (of_int curr) (of_int prev)) (Fin 1).

Fixpoint pct_next (prev : Z) (l : list Z) : list f64 :=
  match l with
  | [] => []
  | curr :: rest => pct curr prev :: pct_next curr rest
  end.

(** The rows of the groups that follow the group [prev]. *)
Fixpoint rows_after (prev : group) (groups : list group) : list yearly_row :=
  match groups with
  | [] => []
  | g :: rest =>
    mk_yearly (fst g) (fst (snd g)) (snd (snd g))
              (mul (pct (fst (snd g)) (fst (snd prev))) (Fin 100))
              (mul (pct (snd (snd g)) (snd (snd prev))) (Fin 100))
    :: rows_after g rest
  end.

(** The group a row of [yearly_growth] was made from. *)
Definition group_of (r : yearly_row) : group :=
  (yr_year r, (yr_total_5_17 r, yr_total_17_plus r)).

(** Monthly rows whose totals of the 5-17 column per year are 100, 150 and
    120, and a series whose first year has a total of zero. *)
Definition three_years : list row :=
  [mk 2021 3 40 10; mk 2021 9 60 20; mk 2022 1 150 45; mk 2023 5 70 20;
 mk 2023 6 50 16].

Definition zero_first_year : list row :=
  [mk 2023 1 0 0; mk 2024 1 5 0].

(** The exact sum of a column. *)
Definition exact_sum (l : list Z) : Z := fold_right Z.add 0 l.

End Yearly.

(** ** The demand forecast (lines 373 to 381) *)

Module Forecast.
Import TimeTrends F64.

(** [DataFrame.tail(n)]. *)
Definition tail {A : Type} (n : nat) (l : list A) : list A :=
  skipn (List.length l - n) l.

(** [.iloc[0]] and [.iloc[-1]]: an [IndexError] on an empty column. *)
Definition iloc_first {A : Type} (l : list A) : result A :=
  match l with
  | [] => Raise IndexError
  | x :: _ => Ok x
  end.

Definition iloc_last {A : Type} (l : list A) : result A := iloc_first (rev l).

Definition ts_leb (a b : timestamp) : bool :=
  match a, b with
  | MonthStart y m, MonthStart y' m' => ((y <? y') || ((y =? y') && (m <=? m')))%Z
  | NaT, _ => true
  | _, NaT => false
  end.

(** [Series.max()] of the column [date]; [NaT] on an empty column. *)
Definition date_max (l : list timestamp) : timestamp :=
  fold_left (fun acc d => if ts_leb acc d then d else acc) l NaT.

(** The month [k] months after a month start: the calendar arithmetic of
    [pd.DateOffset(months=k)]. *)
Definition shift_months (d : timestamp) (k : Z) : timestamp :=
  match d with
  | NaT => NaT
  | MonthStart y m =>
    let t := (y * 12 + (m - 1) + k)%Z in
    MonthStart (t / 12) (t mod 12 + 1)
  end.

(** The number of a month, counted from January of the year 0. *)
Definition month_number (d : timestamp) : Z :=
  match d with
  | NaT => 0%Z
  | MonthStart y m => (y * 12 + (m - 1))%Z
  end.

Record forecast : Type := mk_forecast {
  avg_growth : f64;
  future_dates : list timestamp;
  forecast_values : list f64
}.

Section TimestampRange.

(** The timestamps of pandas are bounded.  [last_month] is the number of the
    last month start that a timestamp of the column [date] can hold: April
    2262 when the column has nanosecond resolution ([pd.Timestamp.max] is
    2262-04-11), December 9999 when it has a coarser one.  Which of the two
    the column has depends on the pandas that runs the script, so the
    forecast is defined for any bound. *)
Variable last_month : Z.

Definition representable (d : timestamp) : bool :=
  match d with
  | NaT => true
  | MonthStart _ _ => (month_number d <=? last_month)%Z
  end.

(** [d + pd.DateOffset(months=k)] on a month start; past the last timestamp
    pandas raises [OutOfBoundsDatetime], a [ValueError]. *)
Definition add_months (d : timestamp) (k : Z) : result timestamp :=
  let shifted := shift_months d k in
  if representable shifted then Ok shifted else Raise ValueError.

(** [pd.date_range(start=..., periods=..., freq='MS')] from a month start:
    the month starts from [start] on, a [ValueError] when [start] is [NaT]
    or one of them lies past the last timestamp. *)
Definition date_range (start : timestamp) (periods : nat) : result (list timestamp) :=
  match start with
  | NaT => Raise ValueError
  | MonthStart _ _ =>
    let dates := map (fun k => shift_months start (Z.of_nat k)) (seq 0 periods) in
    if forallb representable dates then Ok dates else Raise ValueError
  end.

(** The forecast block, for the number [future_months] of months to
    project; the script binds [future_months = 6]. *)
Definition demand_forecast (time_trends : list row) (future_months : nat)
  : result forecast :=
  let last_12_months := tail 12 time_trends in
  last <- iloc_last (map total_17_plus last_12_months) ;;
  first <- iloc_first (map total_17_plus last_12_months) ;;
  exponent <- py_truediv 1 12 ;;
  let avg_growth := sub (power (div (of_int last) (of_int first)) exponent) (Fin 1) in
  let last_date := date_max (map date time_trends) in
  start <- add_months last_date 1 ;;
  future_dates <- date_range start future_months ;;
  last_value <- iloc_last (map total_17_plus time_trends) ;;
  let forecast_values :=
    map (fun i => mul (of_int last_value) (power_int (add (Fin 1) avg_growth) i))
        (seq 1 future_months) in
  Ok (mk_forecast avg_growth future_dates forecast_values).

End TimestampRange.

(** The number of the last month of a forecast of [future_months] months:
    the month after the last date of the table is computed also when no
    month is asked for. *)
Definition last_forecast_month (time_trends : list row) (future_months : nat) : Z :=
  (month_number (date_max (map date time_trends))
   + Z.max 1 (Z.of_nat future_months))%Z.

(** The last month start at nanosecond resolution. *)
Definition nanosecond_last_month : Z := month_number (MonthStart 2262 4).

Definition future_months : nat := 6.

(** Twelve months whose 17+ totals go from 100 to 200, and two months the
    first of which has a total of zero. *)
Definition doubling_year : list row :=
  [mk 2024 1 0 100; mk 2024 2 0 110; mk 2024 3 0 120; mk 2024 4 0 130;
 mk 2024 5 0 140; mk 2024 6 0 150; mk 2024 7 0 160; mk 2024 8 0 170;
 mk 2024 9 0 180; mk 2024 10 0 190; mk 2024 11 0 195; mk 2024 12 0 200].

Definition zero_start : list row :=
  [mk 2024 1 0 0; mk 2024 2 0 5].

Definition single_month : list row :=
  [mk 2024 1 0 5].

End Forecast.

(** ** The scenario planner (lines 514 to 536) *)

Module Scenario.
Import F64.

Inductive age_group : Type := Education | Workforce | Both.

(** [baseline], from the rows of the target states. *)
Definition baseline (target_data : list DistrictProfile.row) (g : age_group) : Z :=
  match g with
  | Education => Int64.sum (map DistrictProfile.total_5_17 target_data)
  | Workforce => Int64.sum (map DistrictProfile.total_17_plus target_data)
  | Both => Int64.wrap64 (Int64.sum (map DistrictProfile.total_5_17 target_data)
                        + Int64.sum (map DistrictProfile.total_17_plus target_data))
  end.

Record projection : Type := mk_projection {
  projected : f64;
  impact : f64;
  cost_per_update : f64;
  roi : f64
}.

(** The budget in rupees: the widget gives crores. *)
Definition budget_rupees (budget_allocation : Z) : Z :=
  (budget_allocation * 10000000)%Z.

(** The planner's formulas.  [baseline] is an [np.int64], so every product
    and quotient below has a NumPy operand; only [growth_rate/100] is a
    division of two Python [int]s.  The script binds
    [avg_value_per_update = 500]. *)
Definition scenario_with (avg_value_per_update : Z)
    (baseline growth_rate budget_allocation : Z) : result projection :=
  rate <- py_truediv growth_rate 100 ;;
  let projected := mul (of_int baseline) (Fin (1 + rate)) in
  let impact := sub projected (of_int baseline) in
  let cost_per_update :=
    if gtb impact (Fin 0)
    then div (of_int (budget_rupees budget_allocation)) impact
    else of_int 0 in
  let roi :=
    mul (div (mul impact (of_int avg_value_per_update))
             (of_int (budget_rupees budget_allocation)))
        (Fin 100) in
  Ok (mk_projection projected impact cost_per_update roi).

Definition avg_value_per_update : Z := 500.

(** The exact value of [impact]. *)
Definition impact_value (baseline growth_rate : Z) : R :=
  (IZR baseline * (1 + IZR growth_rate / 100) - IZR baseline)%R.

Definition scenario : Z -> Z -> Z -> result projection :=
  scenario_with avg_value_per_update.

End Scenario.

(** ** The script as a program on a store of frames

    A pandas frame is a mutable object and a variable of the script holds a
    reference to one.  The store is the list of the frames allocated so far
    and a reference is a position in it.  [copy], a boolean-mask selection,
    [nlargest] and [groupby(...).agg(...)] allocate a frame; an assignment
    [frame[column] = values] updates a frame in place. *)

Module Session.
Import F64.

Inductive frame : Type :=
| District (rows : list DistrictProfile.row)
| Trends (rows : list TimeTrends.row)
| YearlyFrame (groups : list Yearly.group)
              (growth_5_17 growth_17_plus : option (list f64)).

Definition heap : Type := list frame.

Definition M (A : Type) : Type := heap -> result A * heap.

Definition mret {A : Type} (a : A) : M A := fun h => (Ok a, h).

Definition mbind {A B : Type} (m : M A) (k : A -> M B) : M B :=
  fun h =>
  match m h with
  | (Ok a, h') => k a h'
  | (Raise e, h') => (Raise e, h')
  end.

Notation "x <~ m ;; k" := (mbind m (fun x => k))
  (at level 61, m at next level, right associativity).

Definition lift {A : Type} (r : result A) : M A := fun h => (r, h).

Definition alloc (f : frame) : M nat := fun h => (Ok (List.length h), h ++ [f]).

Definition read (id : nat) : M frame :=
  fun h =>
  match nth_error h id with
  | Some f => (Ok f, h)
  | None => (Raise KeyError, h)
  end.

Fixpoint update (id : nat) (f : frame) (h : heap) : heap :=
  match h, id with
  | [], _ => []
  | _ :: rest, O => f :: rest
  | g :: rest, S id' => g :: update id' f rest
  end.

Definition store (id : nat) (f : frame) : M unit := fun h => (Ok tt, update id f h).

Definition district_rows (id : nat) : M (list DistrictProfile.row) :=
  f <~ read id ;;
  match f with
  | District rows => mret rows
  | _ => lift (Raise KeyError)
  end.

Definition trend_rows (id : nat) : M (list TimeTrends.row) :=
  f <~ read id ;;
  match f with
  | Trends rows => mret rows
  | _ => lift (Raise KeyError)
  end.

(** [frame[mask]]: a new frame with the selected rows. *)
Definition select (p : DistrictProfile.row -> bool) (id : nat) : M nat :=
  rows <~ district_rows id ;;
  alloc (District (filter p rows)).

(** The values of the sidebar and planner widgets. *)
Record widgets : Type := mk_widgets {
  selected_states : list string;
  ati_range : Q * Q;
  show_anomalies : bool;
  target_age_group : Scenario.age_group;
  growth_rate : Z;
  budget_allocation : Z;
  target_states_scenario : list string
}.

(** Lines 87 to 98. *)
Definition filter_stage (district_profile : nat) (w : widgets) : M nat :=
  rows <~ district_rows district_profile ;;
  filtered_data <~ alloc (District rows) ;;
  filtered_data <~
  (if negb (Filter.unrestricted (selected_states w))
   then select (fun r => Filter.isin (DistrictProfile.state r) (selected_states w))
               filtered_data
   else mret filtered_data) ;;
  filtered_data <~ select (Filter.in_ati_range (ati_range w)) filtered_data ;;
  if show_anomalies w then select Filter.is_anomaly filtered_data else mret filtered_data.

(** Lines 106 to 109, without the mean. *)
Definition metrics_stage (filtered_data : nat) : M (Z * Z * Z) :=
  rows <~ district_rows filtered_data ;;
  mret (Int64.sum (map DistrictProfile.total_5_17 rows),
      Int64.sum (map DistrictProfile.total_17_plus rows),
      Filter.anomaly_count rows).

(** Lines 155 and 199. *)
Definition top_stage (filtered_data : nat) : M (nat * nat) :=
  rows <~ district_rows filtered_data ;;
  top_districts <~ alloc (District (TopN.top_districts rows)) ;;
  top_demo <~ alloc (District (TopN.top_demo rows)) ;;
  mret (top_districts, top_demo).

(** Line 155 and line 199, each on its own. *)
Definition top_districts_stage (filtered_data : nat) : M nat :=
  rows <~ district_rows filtered_data ;;
  alloc (District (TopN.top_districts rows)).

Definition top_demo_stage (filtered_data : nat) : M nat :=
  rows <~ district_rows filtered_data ;;
  alloc (District (TopN.top_demo rows)).

(** The number of entries of [filtered_data['anomaly_flag'].value_counts()]:
    one for every distinct value of the column. *)
Definition distinct_flags (rows : list DistrictProfile.row) : nat :=
  List.length (nodup Z.eq_dec (map DistrictProfile.anomaly_flag rows)).

(** Lines 187 to 192.  [px.pie] is given the counts and the two names
    ['Normal', 'Anomaly']; plotly raises a [ValueError] when its arguments
    differ in length, that is unless the column holds exactly two distinct
    values. *)
Definition pie_stage (filtered_data : nat) : M unit :=
  rows <~ district_rows filtered_data ;;
  if Nat.eqb (distinct_flags rows) 2 then mret tt else lift (Raise ValueError).

(** Lines 323 and 324: the two column assignments on [yearly_growth]. *)
Definition set_growth_5_17 (id : nat) : M unit :=
  f <~ read id ;;
  match f with
  | YearlyFrame groups _ g17 =>
    store id (YearlyFrame groups (Some (Yearly.growth_5_17_column groups)) g17)
  | _ => lift (Raise KeyError)
  end.

Definition set_growth_17_plus (id : nat) : M unit :=
  f <~ read id ;;
  match f with
  | YearlyFrame groups g5 _ =>
    store id (YearlyFrame groups g5 (Some (Yearly.growth_17_plus_column groups)))
  | _ => lift (Raise KeyError)
  end.

(** Lines 318 to 324. *)
Definition yearly_stage (time_trends : nat) : M nat :=
  rows <~ trend_rows time_trends ;;
  yearly_growth <~ alloc (YearlyFrame (Yearly.groupby_year_sum rows) None None) ;;
  _ <~ set_growth_5_17 yearly_growth ;;
  _ <~ set_growth_17_plus yearly_growth ;;
  mret yearly_growth.

(** Lines 373 to 381; [last_month] bounds the timestamps, as in
    [Forecast]. *)
Definition forecast_stage (last_month : Z) (time_trends : nat) : M Forecast.forecast :=
  rows <~ trend_rows time_trends ;;
  _ <~ alloc (Trends (Forecast.tail 12 rows)) ;;
  lift (Forecast.demand_forecast last_month rows Forecast.future_months).

(** Lines 513 to 536: nothing is computed while no target state is chosen. *)
Definition scenario_stage (district_profile : nat) (w : widgets)
  : M (option Scenario.projection) :=
  match target_states_scenario w with
  | [] => mret None
  | _ :: _ =>
    target_data <~
      select (fun r => Filter.isin (DistrictProfile.state r) (target_states_scenario w))
             district_profile ;;
    rows <~ district_rows target_data ;;
    p <~ lift (Scenario.scenario (Scenario.baseline rows (target_age_group w))
                                 (growth_rate w) (budget_allocation w)) ;;
    mret (Some p)
  end.

Record outputs : Type := mk_outputs {
  out_filtered_data : nat;
  out_metrics : Z * Z * Z;
  out_top : nat * nat;
  out_yearly_growth : nat;
  out_forecast : Forecast.forecast;
  out_projection : option Scenario.projection
}.

(** The stages above in the order of the script, with the one chart call
    that rejects frames the filter can produce ([px.pie], line 188).  This is
    what a run computes on the two tables, up to the point it reaches.  The
    other chart and widget calls render what they are given and are not
    modelled, nor are the frames built for them alone (lines 228 to 232,
    266, 344 to 347, 414 and 455): a result [Ok] says what a run that
    completes has computed, not that every rendering call accepts its
    input. *)
Definition dashboard (last_month : Z) (district_profile time_trends : nat)
    (w : widgets) : M outputs :=
  filtered_data <~ filter_stage district_profile w ;;
  metrics <~ metrics_stage filtered_data ;;
  top_districts <~ top_districts_stage filtered_data ;;
  _ <~ pie_stage filtered_data ;;
  top_demo <~ top_demo_stage filtered_data ;;
  yearly_growth <~ yearly_stage time_trends ;;
  fc <~ forecast_stage last_month time_trends ;;
  projection <~ scenario_stage district_profile w ;;
  mret (mk_outputs filtered_data metrics (top_districts, top_demo) yearly_growth
                   fc projection).

(** [m], run on a store of at least [n] frames, leaves the first [n] frames
    as they are, and a value it returns satisfies [Q]. *)
Definition preserves {A : Type} (n : nat) (m : M A) (Q : A -> Prop) : Prop :=
  forall h, n <= List.length h ->
  n <= List.length (snd (m h))
  /\ firstn n (snd (m h)) = firstn n h
  /\ (forall a, fst (m h) = Ok a -> Q a).

(** Running [m] on the store [h] leaves every frame of [h] as it is: the
    store afterwards is [h] followed by the frames [m] allocated. *)
Definition leaves_store {A : Type} (m : M A) (h : heap) : Prop :=
  firstn (List.length h) (snd (m h)) = h.

End Session.

(** ** The sidebar defaults (lines 69 to 83) *)

Module Sidebar.
Import DistrictProfile.

(** [Series.unique()]: the distinct values, in their order of first
    appearance. *)
Fixpoint unique_from (seen : list string) (l : list string) : list string :=
  match l with
  | [] => []
  | x :: rest =>
    if Filter.isin x seen
    then unique_from seen rest
    else x :: unique_from (x :: seen) rest
  end.

Definition unique (l : list string) : list string := unique_from [] l.

Definition Qmin_b (a b : Q) : Q := if Qle_bool a b then a else b.

Definition Qmax_b (a b : Q) : Q := if Qle_bool a b then b else a.

(** [Series.min()] and [Series.max()] of a column without missing values;
    there is none on an empty column. *)
Definition column_min (l : list Q) : option Q :=
  match l with
  | [] => None
  | x :: rest => Some (fold_left Qmin_b rest x)
  end.

Definition column_max (l : list Q) : option Q :=
  match l with
  | [] => None
  | x :: rest => Some (fold_left Qmax_b rest x)
  end.

(** The value the slider starts with: from the smallest to the largest
    [avg_ATI] of the table. *)
Definition default_ati_range (district_profile : list row) : option (Q * Q) :=
  match column_min (map avg_ATI district_profile),
        column_max (map avg_ATI district_profile) with
  | Some lo, Some hi => Some (lo, hi)
  | _, _ => None
  end.

Definition default_selected_states : list string := ["All States"%string].

Definition default_show_anomalies : bool := false.

End Sidebar.

(** ** The metric row (lines 106 to 138) *)

Module Metrics.
Import DistrictProfile F64.

(** [len(frame)] as a number. *)
Definition len (l : list row) : Z := Z.of_nat (List.length l).

(** [anomaly_count / len(filtered_data) * 100] (line 136): an [np.int64]
    divided by a Python [int]. *)
Definition anomaly_share (filtered_data : list row) : f64 :=
  mul (div (of_int (Filter.anomaly_count filtered_data)) (of_int (len filtered_data)))
      (Fin 100).

Definition ati_sum (l : list row) : R :=
  fold_right (fun r acc => (Q2R (avg_ATI r) + acc)%R) 0%R l.

(** [frame['avg_ATI'].mean()]: the sum over the number of rows, [NaN] on an
    empty frame. *)
Definition avg_ati (l : list row) : f64 := div (Fin (ati_sum l)) (of_int (len l)).

(** [(avg_ati / district_profile['avg_ATI'].mean() - 1) * 100] (line 129). *)
Definition vs_national (filtered_data district_profile : list row) : f64 :=
  mul (sub (div (avg_ati filtered_data) (avg_ati district_profile)) (Fin 1)) (Fin 100).

End Metrics.

(** ** The table of anomalous districts (lines 266 to 286) *)

Module Anomalies.
Import DistrictProfile.

Definition anomalies (filtered_data : list row) : list row :=
  nlargest avg_ATI 20 (filter Filter.is_anomaly filtered_data).

(** [anomalies[...].head(10)], shown when [len(anomalies) > 0]. *)
Definition anomalies_table (filtered_data : list row) : option (list row) :=
  match anomalies filtered_data with
  | [] => None
  | _ :: _ => Some (firstn 10 (anomalies filtered_data))
  end.

End Anomalies.

(** ** The comparison of districts (lines 446 to 467) *)

Module Compare.
Import DistrictProfile.

(** The options of the multiselect. *)
Definition options (filtered_data : list row) : list string :=
  Sidebar.unique (map district filtered_data).

(** The two bars of one district: [data[...].values[0]] on the rows of that
    name, an [IndexError] when there is none. *)
Definition district_bars (comparison_data : list row) (d : string) : result (Z * Z) :=
  let data := filter (fun r => String.eqb (district r) d) comparison_data in
  a <- Forecast.iloc_first (map total_5_17 data) ;;
  b <- Forecast.iloc_first (map total_17_plus data) ;;
  Ok (a, b).

Fixpoint traces (comparison_data : list row) (compare_districts : list string)
  : result (list (string * (Z * Z))) :=
  match compare_districts with
  | [] => Ok []
  | d :: rest =>
    bars <- district_bars comparison_data d ;;
    others <- traces comparison_data rest ;;
    Ok ((d, bars) :: others)
  end.

(** The block under [if compare_districts:]. *)
Definition comparison (filtered_data : list row) (compare_districts : list string)
  : result (list (string * (Z * Z))) :=
  match compare_districts with
  | [] => Ok []
  | _ :: _ =>
    let comparison_data :=
      filter (fun r => Filter.isin (district r) compare_districts) filtered_data in
    traces comparison_data compare_districts
  end.

End Compare.

(** ** The columns of the groups of a year *)

Module YearlyColumns.
Import Yearly.

Definition firsts (groups : list group) : list Z := map (fun g => fst (snd g)) groups.

Definition seconds (groups : list group) : list Z := map (fun g => snd (snd g)) groups.

End YearlyColumns.

(** ** Grouping by an integer key

    [frame.groupby(key)], with the groups in ascending order of the key:
    every row updates the accumulator of its group, or opens a group. *)

Section GroupBy.
Variables Row V : Type.
Variable key : Row -> Z.
Variable init : Row -> V.
Variable step : V -> Row -> V.

Fixpoint gb_add (r : Row) (groups : list (Z * V)) : list (Z * V) :=
  match groups with
  | [] => [(key r, init r)]
  | (k, v) :: rest =>
    if (key r <? k)%Z then (key r, init r) :: groups
    else if (key r =? k)%Z then (k, step v r) :: rest
    else (k, v) :: gb_add r rest
  end.

Definition gb (rows : list Row) : list (Z * V) :=
  fold_left (fun groups r => gb_add r groups) rows [].

Fixpoint gb_lookup (k : Z) (groups : list (Z * V)) : option V :=
  match groups with
  | [] => None
  | (k', v) :: rest => if (k =? k')%Z then Some v else gb_lookup k rest
  end.

(** The rows of one key and the accumulator they give. *)
Definition gb_rows (k : Z) (rows : list Row) : list Row :=
  filter (fun r => (key r =? k)%Z) rows.

Definition gb_acc (rows : list Row) : option V :=
  match rows with
  | [] => None
  | r :: rest => Some (fold_left step rest (init r))
  end.

End GroupBy.

(** ** Monthly seasonality (lines 344 to 347) *)

Module Seasonality.
Import TimeTrends F64.

(** The two sums and the number of rows of a month.  pandas averages an
    integer column in floating point, so these sums do not wrap. *)
Definition acc : Type := Z * Z * Z.

Definition acc_init (r : row) : acc := (total_5_17 r, total_17_plus r, 1%Z).

Definition acc_step (a : acc) (r : row) : acc :=
  let '(s5, s17, n) := a in
  ((s5 + total_5_17 r)%Z, (s17 + total_17_plus r)%Z, (n + 1)%Z).

Record monthly_row : Type := mk_monthly {
  mo_month : Z;
  avg_5_17 : f64;
  avg_17_plus : f64
}.

(** The mean of a group: its sum over its number of rows, in floating
    point. *)
Definition mean (s n : Z) : f64 := div (of_int s) (of_int n).

(** [time_trends.groupby('month').agg({...: 'mean'}).reset_index()]. *)
Definition monthly_avg (time_trends : list row) : list monthly_row :=
  map (fun g : Z * acc =>
         let '(s5, s17, n) := snd g in
         mk_monthly (fst g) (mean s5 n) (mean s17 n))
      (gb month acc_init acc_step time_trends).

Definition month_rows (m : Z) (time_trends : list row) : list row :=
  gb_rows month m time_trends.

End Seasonality.

(** ** The simulation curve (lines 542 to 549) *)

Module Simulation.
Import F64.

Fixpoint mapM {A B : Type} (f : A -> result B) (l : list A) : result (list B) :=
  match l with
  | [] => Ok []
  | x :: rest =>
    y <- f x ;;
    ys <- mapM f rest ;;
    Ok (y :: ys)
  end.

(** [baseline * (1 + (growth_rate/100) * (m/duration_months))]: the two
    quotients are divisions of Python [int]s. *)
Definition projection_value (baseline growth_rate : Z) (duration_months : nat)
    (m : nat) : result f64 :=
  rate <- py_truediv growth_rate 100 ;;
  share <- py_truediv (Z.of_nat m) (Z.of_nat duration_months) ;;
  Ok (mul (of_int baseline) (Fin (1 + rate * share))).

(** [months = list(range(duration_months + 1))] and the list comprehension
    over it. *)
Definition projection_values (baseline growth_rate : Z) (duration_months : nat)
  : result (list f64) :=
  mapM (projection_value baseline growth_rate duration_months)
       (seq 0 (duration_months + 1)).

(** The value of the curve after [m] of [d] months. *)
Definition curve (baseline growth_rate : Z) (d m : nat) : f64 :=
  Fin (IZR baseline * (1 + IZR growth_rate / 100 * (INR m / INR d)))%R.

End Simulation.

(** ** Stores that grow *)

Module SessionRun.
Import Session.

(** Every frame of [h] is still there, unchanged, in [h']. *)
Definition extends (h h' : heap) : Prop :=
  forall i f, nth_error h i = Some f -> nth_error h' i = Some f.

(** The filtered table of a run, and the rows the planner works on. *)
Definition filtered_rows (d : list DistrictProfile.row) (w : widgets)
  : list DistrictProfile.row :=
  Filter.filtered_data d (selected_states w) (ati_range w) (show_anomalies w).

Definition target_rows (d : list DistrictProfile.row) (w : widgets)
  : list DistrictProfile.row :=
  filter (fun r => Filter.isin (DistrictProfile.state r) (target_states_scenario w)) d.

End SessionRun.

(** ** Months in order *)

Module Calendar.
Import TimeTrends.

(** The month after a month start. *)
Definition next_month (d : timestamp) : timestamp :=
  match d with
  | NaT => NaT
  | MonthStart y m => if (m =? 12)%Z then MonthStart (y + 1) 1 else MonthStart y (m + 1)
  end.

(** A month start whose month is one of 1 to 12. *)
Definition valid (d : timestamp) : Prop :=
  match d with
  | NaT => False
  | MonthStart _ m => (1 <= m <= 12)%Z
  end.

(** The dates of the table never decrease. *)
Definition ascending (dates : list timestamp) : Prop :=
  StronglySorted (fun a b => Forecast.ts_leb a b = true) dates.

End Calendar.

(** * Properties *)

(** ** Results about lists used below *)

Section ListFacts.
Context {A : Type}.

Lemma subseq_filter (p : A -> bool) (l : list A) : subseq (filter p l) l.
Proof. induction l as [|x l IH]; simpl; [auto|destruct (p x); auto]. Qed.

Lemma filter_filter (p q : A -> bool) (l : list A) :
  filter q (filter p l) = filter (fun x => p x && q x) l.
Proof.
  induction l as [|x l IH]; simpl; [reflexivity|].
  destruct (p x); simpl; [destruct (q x)|]; now rewrite IH.
Qed.

Lemma filter_all (p : A -> bool) (l : list A) :
  Forall (fun x => p x = true) l -> filter p l = l.
Proof.
  induction 1 as [|x l Hx _ IH]; simpl; [reflexivity|].
  now rewrite Hx, IH.
Qed.

End ListFacts.

(** ** The filter *)

Module FilterFacts.
Import DistrictProfile Filter.

Lemma filtered_data_filter dp sel rng anom :
  filtered_data dp sel rng anom = filter (keeps sel rng anom) dp.
Proof.
  unfold filtered_data, keeps.
  destruct (unrestricted sel), anom; simpl;
    rewrite ?filter_filter; apply filter_ext; intro r;
    destruct (isin (state r) sel), (in_ati_range rng r), (is_anomaly r);
    reflexivity.
Qed.

Lemma in_ati_range_iff lo hi r :
  in_ati_range (lo, hi) r = true <-> (lo <= avg_ATI r /\ avg_ATI r <= hi)%Q.
Proof.
  unfold in_ati_range; simpl.
  now rewrite andb_true_iff, !Qle_bool_iff.
Qed.

(** With no state selected at all, "All States" included, the script
    selects no row: only the entry "All States" lifts the restriction. *)
Lemma empty_selection_selects_nothing dp rng anom :
  filtered_data dp [] rng anom = [].
Proof.
  rewrite filtered_data_filter. unfold keeps. simpl.
  induction dp as [|r dp IH]; [reflexivity|exact IH].
Qed.

Lemma isin_iff (s : string) (values : list string) :
  isin s values = true <-> In s values.
Proof.
  unfold isin. rewrite existsb_exists. split.
  - intros (x & Hx & E). apply String.eqb_eq in E. now subst.
  - intro H. exists s. split; [exact H|apply String.eqb_refl].
Qed.

Lemma unrestricted_iff (sel : list string) :
  unrestricted sel = true <-> In "All States"%string sel.
Proof. apply isin_iff. Qed.

(** [keeps] in terms of the columns of the row and the values of the
    widgets. *)
Lemma keeps_iff (sel : list string) (lo hi : Q) (anom : bool) (r : row) :
  keeps sel (lo, hi) anom r = true <->
  (In "All States"%string sel \/ In (state r) sel)
  /\ (lo <= avg_ATI r)%Q /\ (avg_ATI r <= hi)%Q
  /\ (anom = true -> anomaly_flag r = (-1)%Z).
Proof.
  unfold keeps, is_anomaly.
  rewrite !andb_true_iff, !orb_true_iff, unrestricted_iff, isin_iff,
    in_ati_range_iff, negb_true_iff, Z.eqb_eq.
  destruct anom; intuition congruence.
Qed.

Lemma filtered_data_app (l1 l2 : list row) sel rng anom :
  filtered_data (l1 ++ l2) sel rng anom
  = filtered_data l1 sel rng anom ++ filtered_data l2 sel rng anom.
Proof. rewrite !filtered_data_filter. apply filter_app. Qed.

(** C7, where the spec and the script part: the spec counts a selection
    of no state at all as unrestricted, the script selects no row with it,
    although the range covers both rows and the anomaly box is unchecked. *)
Lemma empty_state_set_selects_no_row :
  Forall (fun r => (1 # 2 <= avg_ATI r /\ avg_ATI r <= 3 # 4)%Q) two_districts
  /\ filtered_data two_districts [] (1 # 2, 3 # 4)%Q false = []
  /\ filtered_data two_districts [] (1 # 2, 3 # 4)%Q false <> two_districts.
Proof.
  split.
  - repeat constructor; simpl; apply Qle_bool_iff; reflexivity.
  - split; [reflexivity|discriminate].
Qed.

(** C7, as the script has it.  The filter returns the rows of the input
    that pass every test, in their input order and as often as they occur:
    the result is a subsequence of the input; a row is in it exactly when it
    is in the input, "All States" is among the selected states or the row's
    state is, its [avg_ATI] lies between the two ends of the range, ends
    included, and it has the flag [-1] if the anomaly box is checked; the
    rows are tested one by one, so the result on two tables put end to end
    is the two results put end to end.  The empty table gives the empty
    result.  With "All States" selected, a range that covers every row and
    the anomaly box unchecked the input comes back unchanged; with no state
    selected at all nothing comes back. *)
Theorem filtered_data_subsequence :
  forall (dp : list row) (sel : list string) (lo hi : Q) (anom : bool),
    subseq (filtered_data dp sel (lo, hi) anom) dp
    /\ (forall r, In r (filtered_data dp sel (lo, hi) anom) <->
                  In r dp
                  /\ (In "All States"%string sel \/ In (state r) sel)
                  /\ (lo <= avg_ATI r)%Q /\ (avg_ATI r <= hi)%Q
                  /\ (anom = true -> anomaly_flag r = (-1)%Z))
    /\ (forall l1 l2, dp = l1 ++ l2 ->
          filtered_data dp sel (lo, hi) anom
          = filtered_data l1 sel (lo, hi) anom ++ filtered_data l2 sel (lo, hi) anom)
    /\ (forall r, In r dp -> In (state r) sel -> (lo <= hi)%Q ->
                  (avg_ATI r == lo \/ avg_ATI r == hi)%Q ->
                  In r (filtered_data dp sel (lo, hi) false))
    /\ filtered_data [] sel (lo, hi) anom = []
    /\ (In "All States"%string sel ->
        Forall (fun r => (lo <= avg_ATI r /\ avg_ATI r <= hi)%Q) dp ->
        filtered_data dp sel (lo, hi) false = dp)
    /\ filtered_data dp [] (lo, hi) anom = [].
Proof.
  intros dp sel lo hi anom.
  split; [rewrite filtered_data_filter; apply subseq_filter|].
  split.
  { intro r. rewrite filtered_data_filter, filter_In, keeps_iff. tauto. }
  split; [intros l1 l2 ->; apply filtered_data_app|].
  split.
  { intros r Hr Hs Hle He.
    rewrite filtered_data_filter. apply filter_In. split; [exact Hr|].
    apply keeps_iff. split; [now right|].
    destruct He as [He|He]; rewrite He;
      repeat split; auto using Qle_refl; discriminate. }
  split; [now rewrite filtered_data_filter|].
  split; [|apply empty_selection_selects_nothing].
  intros Hall Hrng.
  rewrite filtered_data_filter.
  apply filter_all. eapply Forall_impl; [|exact Hrng].
  intros r [Hlo Hhi]. apply keeps_iff.
  split; [now left|]. repeat split; auto; discriminate.
Qed.

(** Both districts of [two_districts] lie in the range from 1/2 to 3/4, and
    North Goa, whose [avg_ATI] is the upper end, is kept when Goa is
    selected. *)
Lemma filtered_data_subsequence_witness :
  In "All States"%string ["All States"%string]
  /\ Forall (fun r => (1 # 2 <= avg_ATI r /\ avg_ATI r <= 3 # 4)%Q) two_districts
  /\ filtered_data two_districts ["All States"%string] (1 # 2, 3 # 4)%Q false
     = two_districts
  /\ In (mk "Goa" "North Goa" 5 8 (3 # 4)%Q (-1))
        (filtered_data two_districts ["Goa"%string] (1 # 2, 3 # 4)%Q false).
Proof.
  assert (Hsel : In "All States"%string ["All States"%string]) by (left; reflexivity).
  assert (Hrng : Forall (fun r => (1 # 2 <= avg_ATI r /\ avg_ATI r <= 3 # 4)%Q)
                        two_districts).
  { repeat constructor; simpl; apply Qle_bool_iff; reflexivity. }
  split; [exact Hsel|]. split; [exact Hrng|].
  split.
  - destruct (filtered_data_subsequence two_districts ["All States"%string]
                (1 # 2)%Q (3 # 4)%Q false) as (_ & _ & _ & _ & _ & Hid & _).
    exact (Hid Hsel Hrng).
  - destruct (filtered_data_subsequence two_districts ["Goa"%string]
                (1 # 2)%Q (3 # 4)%Q false) as (_ & _ & _ & Hb & _).
    apply Hb.
    + right. left. reflexivity.
    + left. reflexivity.
    + apply Qle_bool_iff. reflexivity.
    + right. reflexivity.
Defined.

End FilterFacts.

Module AnomalyFacts.
Import DistrictProfile Filter.

Lemma anomaly_count_length (l : list row) :
  anomaly_count l = Z.of_nat (List.length (filter is_anomaly l)).
Proof.
  induction l as [|r l IH]; [reflexivity|].
  simpl. destruct (is_anomaly r); simpl List.length; lia.
Qed.

Lemma is_anomaly_iff (r : row) : is_anomaly r = true <-> anomaly_flag r = (-1)%Z.
Proof. unfold is_anomaly. apply Z.eqb_eq. Qed.

(** C10.  The anomaly label is the integer [-1].  With the anomaly box
    checked the filter keeps, of the rows that pass the other two tests,
    exactly those whose [anomaly_flag] is [-1]; [anomaly_count] is the number
    of rows whose [anomaly_flag] is [-1]; a row with any other flag, such as
    [1], is dropped by the first and not counted by the second. *)
Theorem anomaly_flag_minus_one :
  forall (dp : list row) (sel : list string) (rng : Q * Q),
    filtered_data dp sel rng true
      = filter (fun r => (anomaly_flag r =? -1)%Z) (filtered_data dp sel rng false)
    /\ (forall r, In r (filtered_data dp sel rng true) <->
                  In r (filtered_data dp sel rng false) /\ anomaly_flag r = (-1)%Z)
    /\ anomaly_count dp
         = Z.of_nat (List.length (filter (fun r => (anomaly_flag r =? -1)%Z) dp))
    /\ (forall r, anomaly_flag r <> (-1)%Z ->
                  ~ In r (filtered_data dp sel rng true)
                  /\ anomaly_count (r :: dp) = anomaly_count dp)
    /\ (forall s d a b q,
          filtered_data [mk s d a b q 1%Z] ["All States"%string] (q, q) true = []
          /\ anomaly_count [mk s d a b q 1%Z] = 0%Z
          /\ filtered_data [mk s d a b q (-1)%Z] ["All States"%string] (q, q) true
             = [mk s d a b q (-1)%Z]
          /\ anomaly_count [mk s d a b q (-1)%Z] = 1%Z).
Proof.
  intros dp sel rng.
  assert (Hsel : filtered_data dp sel rng true
                 = filter is_anomaly (filtered_data dp sel rng false))
    by reflexivity.
  split; [exact Hsel|].
  split.
  { intro r. rewrite Hsel, filter_In, is_anomaly_iff. reflexivity. }
  split; [apply anomaly_count_length|].
  split.
  { intros r Hr. split.
    - rewrite Hsel, filter_In, is_anomaly_iff. tauto.
    - simpl. destruct (is_anomaly r) eqn:E; [|lia].
      apply is_anomaly_iff in E. contradiction. }
  intros s d a b q.
  unfold filtered_data, in_ati_range, is_anomaly; simpl.
  assert (Hq : Qle_bool q q = true) by (apply Qle_bool_iff, Qle_refl).
  rewrite Hq. simpl. auto.
Qed.

(** The first district of [two_districts] has the flag [1]. *)
Lemma anomaly_flag_minus_one_witness :
  anomaly_flag (mk "Kerala" "Idukki" 10 20 (1 # 2)%Q 1) <> (-1)%Z
  /\ ~ In (mk "Kerala" "Idukki" 10 20 (1 # 2)%Q 1)
          (filtered_data two_districts ["All States"%string] (0, 1)%Q true)
  /\ anomaly_count (mk "Kerala" "Idukki" 10 20 (1 # 2)%Q 1 :: two_districts)
     = anomaly_count two_districts.
Proof.
  assert (Hflag : anomaly_flag (mk "Kerala" "Idukki" 10 20 (1 # 2)%Q 1) <> (-1)%Z)
    by discriminate.
  split; [exact Hflag|].
  destruct (anomaly_flag_minus_one two_districts ["All States"%string] (0, 1)%Q)
    as (_ & _ & _ & Hother & _).
  exact (Hother _ Hflag).
Defined.

End AnomalyFacts.

(** ** The largest rows *)

Section NLargestFacts.
Variable A : Type.
Variable key : A -> Q.

Lemma insert_desc_perm (x : A) (l : list A) :
  Permutation (insert_desc key x l) (x :: l).
Proof.
  induction l as [|y ys IH]; simpl; [reflexivity|].
  destruct (Qle_bool (key y) (key x)); [reflexivity|].
  rewrite IH. apply perm_swap.
Qed.

Lemma sort_desc_perm (l : list A) : Permutation (sort_desc key l) l.
Proof.
  induction l as [|x l IH]; simpl; [reflexivity|].
  rewrite insert_desc_perm. now constructor.
Qed.

Lemma Qle_bool_false (a b : Q) : Qle_bool a b = false -> (b < a)%Q.
Proof.
  intro H. apply Qnot_le_lt. intro Hle.
  apply Qle_bool_iff in Hle. congruence.
Qed.

Lemma insert_desc_sorted (x : A) (l : list A) :
  descending key l -> descending key (insert_desc key x l).
Proof.
  unfold descending.
  induction 1 as [|y ys Hs IH Hy]; simpl.
  - repeat constructor.
  - destruct (Qle_bool (key y) (key x)) eqn:E.
    + apply Qle_bool_iff in E.
      constructor; [now constructor|].
      constructor; [exact E|].
      eapply Forall_impl; [|exact Hy].
      intros b Hb. now apply Qle_trans with (key y).
    + apply Qle_bool_false in E.
      constructor; [exact IH|].
      eapply Permutation_Forall; [symmetry; apply insert_desc_perm|].
      constructor; [now apply Qlt_le_weak|exact Hy].
Qed.

Lemma sort_desc_sorted (l : list A) : descending key (sort_desc key l).
Proof.
  induction l as [|x l IH]; simpl; [constructor|].
  now apply insert_desc_sorted.
Qed.

Lemma insert_desc_tied (k : Q) (x : A) (l : list A) :
  filter (tied key k) (insert_desc key x l) = filter (tied key k) (x :: l).
Proof.
  induction l as [|y ys IH]; [reflexivity|].
  simpl insert_desc.
  destruct (Qle_bool (key y) (key x)) eqn:E; [reflexivity|].
  apply Qle_bool_false in E.
  change (filter (tied key k) (y :: insert_desc key x ys))
    with (if tied key k y then y :: filter (tied key k) (insert_desc key x ys)
          else filter (tied key k) (insert_desc key x ys)).
  rewrite IH. simpl.
  destruct (tied key k y) eqn:Ey, (tied key k x) eqn:Ex; try reflexivity.
  unfold tied in Ey, Ex. apply Qeq_bool_iff in Ey, Ex.
  rewrite Ey, Ex in E. now apply Qlt_irrefl in E.
Qed.

Lemma sort_desc_tied (k : Q) (l : list A) :
  filter (tied key k) (sort_desc key l) = filter (tied key k) l.
Proof.
  induction l as [|x l IH]; [reflexivity|].
  simpl sort_desc. rewrite insert_desc_tied. simpl. now rewrite IH.
Qed.

Lemma descending_app (l1 l2 : list A) :
  descending key (l1 ++ l2) ->
  forall x y, In x l1 -> In y l2 -> (key y <= key x)%Q.
Proof.
  unfold descending.
  induction l1 as [|a l1 IH]; simpl; intros Hs x y Hx Hy; [contradiction|].
  inversion Hs as [|? ? Hs' Hall]; subst.
  destruct Hx as [->|Hx].
  - rewrite Forall_forall in Hall. apply Hall, in_or_app. now right.
  - now apply IH.
Qed.

Lemma descending_prefix (l1 l2 : list A) :
  descending key (l1 ++ l2) -> descending key l1.
Proof.
  unfold descending.
  induction l1 as [|a l1 IH]; simpl; intro Hs; [constructor|].
  inversion Hs as [|? ? Hs' Hall]; subst.
  constructor; [now apply IH|].
  rewrite Forall_forall in *. intros b Hb. apply Hall, in_or_app. now left.
Qed.

Lemma descending_firstn (n : nat) (l : list A) :
  descending key l -> descending key (firstn n l).
Proof.
  intro Hs. apply descending_prefix with (skipn n l).
  now rewrite firstn_skipn.
Qed.

End NLargestFacts.

(** C8.  [nlargest n] on the column [key] returns [min n (length l)] rows of
    the frame, in descending order of the key; every row left out has a key
    no larger than every row returned; among rows of equal key the ones
    returned are the first ones of the frame, in the order of the frame;
    when [n] is at least the number of rows all of them are returned, sorted
    in descending order; and on the [avg_ATI] values 1, 5, 3 with [n = 3]
    the result is 5, 3, 1. *)
Theorem nlargest_top_n :
  forall (A : Type) (key : A -> Q) (n : nat) (l : list A),
    List.length (nlargest key n l) = Nat.min n (List.length l)
    /\ descending key (nlargest key n l)
    /\ (exists rest,
          Permutation (nlargest key n l ++ rest) l
          /\ forall x y, In x (nlargest key n l) -> In y rest -> (key y <= key x)%Q)
    /\ (forall k, exists later,
          filter (tied key k) l = filter (tied key k) (nlargest key n l) ++ later)
    /\ (List.length l <= n ->
        nlargest key n l = sort_desc key l /\ Permutation (nlargest key n l) l)
    /\ (let r q := DistrictProfile.mk "s" "d" 0 0 q 1 in
        map DistrictProfile.avg_ATI
            (nlargest DistrictProfile.avg_ATI 3 [r 1%Q; r 5%Q; r 3%Q])
        = [5%Q; 3%Q; 1%Q]).
Proof.
  intros A key n l. unfold nlargest.
  split.
  { rewrite length_firstn. f_equal.
    apply Permutation_length, sort_desc_perm. }
  split; [apply descending_firstn, sort_desc_sorted|].
  split.
  { exists (skipn n (sort_desc key l)). split.
    - rewrite firstn_skipn. apply sort_desc_perm.
    - apply descending_app. rewrite firstn_skipn. apply sort_desc_sorted. }
  split.
  { intro k. exists (filter (tied key k) (skipn n (sort_desc key l))).
    rewrite <- filter_app, firstn_skipn. symmetry. apply sort_desc_tied. }
  split.
  { intro Hn.
    assert (E : firstn n (sort_desc key l) = sort_desc key l).
    { apply firstn_all2.
      rewrite (Permutation_length (sort_desc_perm key l)). exact Hn. }
    rewrite E. split; [reflexivity|apply sort_desc_perm]. }
  reflexivity.
Qed.

(** The three values of the example: [n] is the number of rows. *)
Lemma nlargest_top_n_witness :
  (List.length [1%Q; 5%Q; 3%Q] <= 3)%nat
  /\ nlargest (fun q => q) 3 [1%Q; 5%Q; 3%Q] = sort_desc (fun q => q) [1%Q; 5%Q; 3%Q]
  /\ Permutation (nlargest (fun q => q) 3 [1%Q; 5%Q; 3%Q]) [1%Q; 5%Q; 3%Q].
Proof.
  assert (H : (List.length [1%Q; 5%Q; 3%Q] <= 3)%nat) by (simpl; lia).
  split; [exact H|].
  pose proof (nlargest_top_n (fun q : Q => q) 3 [1%Q; 5%Q; 3%Q]) as T.
  destruct T as (_ & _ & _ & _ & T & _).
  exact (T H).
Defined.

(** ** The store *)

Module SessionFacts.
Import Session.

Lemma update_length (id : nat) (f : frame) (h : heap) :
  List.length (update id f h) = List.length h.
Proof.
  revert id. induction h as [|g h IH]; intros [|id]; simpl; auto.
Qed.

Lemma update_firstn (n id : nat) (f : frame) (h : heap) :
  n <= id -> firstn n (update id f h) = firstn n h.
Proof.
  revert n id. induction h as [|g h IH]; intros [|n] [|id] Hle; simpl;
    try reflexivity; try lia.
  f_equal. apply IH. lia.
Qed.

Lemma preserves_weaken {A : Type} (n : nat) (m : M A) (P Q : A -> Prop) :
  (forall a, P a -> Q a) -> preserves n m P -> preserves n m Q.
Proof.
  intros HPQ Hm h Hn. destruct (Hm h Hn) as (H1 & H2 & H3). auto.
Qed.

Lemma preserves_ret {A : Type} (n : nat) (a : A) (Q : A -> Prop) :
  Q a -> preserves n (mret a) Q.
Proof.
  intros Ha h Hn. simpl. repeat split; auto.
  intros b Hb. now inversion Hb; subst.
Qed.

Lemma preserves_lift {A : Type} (n : nat) (r : result A) :
  preserves n (lift r) (fun _ => True).
Proof. intros h Hn. simpl. auto. Qed.

Lemma preserves_alloc (n : nat) (f : frame) :
  preserves n (alloc f) (fun id => n <= id).
Proof.
  intros h Hn. simpl. rewrite length_app. repeat split.
  - lia.
  - now rewrite firstn_app, (proj2 (Nat.sub_0_le _ _) Hn), firstn_O, app_nil_r.
  - intros a Ha. inversion Ha; subst. exact Hn.
Qed.

Lemma preserves_read (n id : nat) : preserves n (read id) (fun _ => True).
Proof.
  intros h Hn. unfold read. destruct (nth_error h id); simpl; auto.
Qed.

Lemma preserves_store (n id : nat) (f : frame) :
  n <= id -> preserves n (store id f) (fun _ => True).
Proof.
  intros Hid h Hn. simpl. rewrite update_length.
  repeat split; auto using update_firstn.
Qed.

Lemma preserves_bind {A B : Type} (n : nat) (m : M A) (k : A -> M B)
    (P : A -> Prop) (Q : B -> Prop) :
  preserves n m P -> (forall a, P a -> preserves n (k a) Q) ->
  preserves n (mbind m k) Q.
Proof.
  intros Hm Hk h Hn. unfold mbind.
  destruct (Hm h Hn) as (H1 & H2 & H3).
  destruct (m h) as [[a|e] h']; simpl in *.
  - destruct (Hk a (H3 a eq_refl) h' H1) as (K1 & K2 & K3).
    repeat split; auto. congruence.
  - repeat split; auto. discriminate.
Qed.

Lemma preserves_district_rows (n id : nat) :
  preserves n (district_rows id) (fun _ => True).
Proof.
  unfold district_rows.
  eapply preserves_bind; [apply preserves_read|].
  intros [rows|rows|g a b] _; auto using preserves_ret, preserves_lift.
Qed.

Lemma preserves_trend_rows (n id : nat) :
  preserves n (trend_rows id) (fun _ => True).
Proof.
  unfold trend_rows.
  eapply preserves_bind; [apply preserves_read|].
  intros [rows|rows|g a b] _; auto using preserves_ret, preserves_lift.
Qed.

Lemma preserves_select (n id : nat) p :
  preserves n (select p id) (fun _ => True).
Proof.
  unfold select.
  eapply preserves_bind; [apply preserves_district_rows|].
  intros rows _. eapply preserves_weaken; [|apply preserves_alloc]. auto.
Qed.

Lemma preserves_filter_stage (n dp : nat) (w : widgets) :
  preserves n (filter_stage dp w) (fun _ => True).
Proof.
  unfold filter_stage.
  eapply preserves_bind; [apply preserves_district_rows|]. intros rows _.
  eapply preserves_bind; [apply preserves_alloc|]. intros fd0 _.
  eapply preserves_bind with (P := fun _ => True).
  { destruct (negb _); [apply preserves_select|now apply preserves_ret]. }
  intros fd1 _.
  eapply preserves_bind; [apply preserves_select|]. intros fd2 _.
  destruct (show_anomalies w); [apply preserves_select|now apply preserves_ret].
Qed.

Lemma preserves_metrics_stage (n fd : nat) :
  preserves n (metrics_stage fd) (fun _ => True).
Proof.
  unfold metrics_stage.
  eapply preserves_bind; [apply preserves_district_rows|]. intros rows _.
  now apply preserves_ret.
Qed.

Lemma preserves_top_stage (n fd : nat) :
  preserves n (top_stage fd) (fun _ => True).
Proof.
  unfold top_stage.
  eapply preserves_bind; [apply preserves_district_rows|]. intros rows _.
  eapply preserves_bind; [apply preserves_alloc|]. intros a _.
  eapply preserves_bind; [apply preserves_alloc|]. intros b _.
  now apply preserves_ret.
Qed.

Lemma preserves_set_growth_5_17 (n id : nat) :
  n <= id -> preserves n (set_growth_5_17 id) (fun _ => True).
Proof.
  intro Hid. unfold set_growth_5_17.
  eapply preserves_bind; [apply preserves_read|].
  intros [rows|rows|g a b] _;
    auto using preserves_store, preserves_lift.
Qed.

Lemma preserves_set_growth_17_plus (n id : nat) :
  n <= id -> preserves n (set_growth_17_plus id) (fun _ => True).
Proof.
  intro Hid. unfold set_growth_17_plus.
  eapply preserves_bind; [apply preserves_read|].
  intros [rows|rows|g a b] _;
    auto using preserves_store, preserves_lift.
Qed.

Lemma preserves_yearly_stage (n tt : nat) :
  preserves n (yearly_stage tt) (fun _ => True).
Proof.
  unfold yearly_stage.
  eapply preserves_bind; [apply preserves_trend_rows|]. intros rows _.
  eapply preserves_bind; [apply preserves_alloc|]. intros yg Hyg.
  eapply preserves_bind; [now apply preserves_set_growth_5_17|]. intros _ _.
  eapply preserves_bind; [now apply preserves_set_growth_17_plus|]. intros _ _.
  now apply preserves_ret.
Qed.

Lemma preserves_top_districts_stage (n fd : nat) :
  preserves n (top_districts_stage fd) (fun _ => True).
Proof.
  unfold top_districts_stage.
  eapply preserves_bind; [apply preserves_district_rows|]. intros rows _.
  eapply preserves_weaken; [|apply preserves_alloc]. auto.
Qed.

Lemma preserves_top_demo_stage (n fd : nat) :
  preserves n (top_demo_stage fd) (fun _ => True).
Proof.
  unfold top_demo_stage.
  eapply preserves_bind; [apply preserves_district_rows|]. intros rows _.
  eapply preserves_weaken; [|apply preserves_alloc]. auto.
Qed.

Lemma preserves_pie_stage (n fd : nat) :
  preserves n (pie_stage fd) (fun _ => True).
Proof.
  unfold pie_stage.
  eapply preserves_bind; [apply preserves_district_rows|]. intros rows _.
  destruct (Nat.eqb _ _); [now apply preserves_ret|apply preserves_lift].
Qed.

Lemma preserves_forecast_stage (last_month : Z) (n tt : nat) :
  preserves n (forecast_stage last_month tt) (fun _ => True).
Proof.
  unfold forecast_stage.
  eapply preserves_bind; [apply preserves_trend_rows|]. intros rows _.
  eapply preserves_bind; [apply preserves_alloc|]. intros a _.
  apply preserves_lift.
Qed.

Lemma preserves_scenario_stage (n dp : nat) (w : widgets) :
  preserves n (scenario_stage dp w) (fun _ => True).
Proof.
  unfold scenario_stage.
  destruct (target_states_scenario w); [now apply preserves_ret|].
  eapply preserves_bind; [apply preserves_select|]. intros td _.
  eapply preserves_bind; [apply preserves_district_rows|]. intros rows _.
  eapply preserves_bind; [apply preserves_lift|]. intros p _.
  now apply preserves_ret.
Qed.

Lemma preserves_dashboard (last_month : Z) (n dp tt : nat) (w : widgets) :
  preserves n (dashboard last_month dp tt w) (fun _ => True).
Proof.
  unfold dashboard.
  eapply preserves_bind; [apply preserves_filter_stage|]. intros fd _.
  eapply preserves_bind; [apply preserves_metrics_stage|]. intros ms _.
  eapply preserves_bind; [apply preserves_top_districts_stage|]. intros top _.
  eapply preserves_bind; [apply preserves_pie_stage|]. intros pie _.
  eapply preserves_bind; [apply preserves_top_demo_stage|]. intros demo _.
  eapply preserves_bind; [apply preserves_yearly_stage|]. intros yg _.
  eapply preserves_bind; [apply preserves_forecast_stage|]. intros fc _.
  eapply preserves_bind; [apply preserves_scenario_stage|]. intros pr _.
  now apply preserves_ret.
Qed.

Lemma preserves_leaves {A : Type} (m : M A) (Q : A -> Prop) (h : heap) :
  preserves (List.length h) m Q -> leaves_store m h.
Proof.
  intro Hm. destruct (Hm h (le_n _)) as (_ & H & _).
  unfold leaves_store. now rewrite H, firstn_all.
Qed.

Lemma leaves_store_lookup {A : Type} (m : M A) (h : heap) (i : nat) (f : frame) :
  leaves_store m h -> nth_error h i = Some f -> nth_error (snd (m h)) i = Some f.
Proof.
  unfold leaves_store. intros Hm Hi.
  assert (Hlt : i < List.length h) by (apply nth_error_Some; congruence).
  rewrite <- (firstn_skipn (List.length h) (snd (m h))), Hm.
  rewrite nth_error_app1; assumption.
Qed.

Lemma nth_error_last (h : heap) (f : frame) :
  nth_error (h ++ [f]) (List.length h) = Some f.
Proof. now rewrite nth_error_app2, Nat.sub_diag by lia. Qed.

Lemma run_bind {A B : Type} (m : M A) (k : A -> M B) (h h' : heap) (a : A) :
  m h = (Ok a, h') -> mbind m k h = k a h'.
Proof. intro H. unfold mbind. now rewrite H. Qed.

Lemma run_district_rows (h : heap) (id : nat) rows :
  nth_error h id = Some (District rows) -> district_rows id h = (Ok rows, h).
Proof. intro H. unfold district_rows, mbind, read. now rewrite H. Qed.

Lemma run_trend_rows (h : heap) (id : nat) rows :
  nth_error h id = Some (Trends rows) -> trend_rows id h = (Ok rows, h).
Proof. intro H. unfold trend_rows, mbind, read. now rewrite H. Qed.

Lemma run_select (h : heap) (id : nat) p rows :
  nth_error h id = Some (District rows) ->
  select p id h = (Ok (List.length h), h ++ [District (filter p rows)]).
Proof.
  intro H. unfold select.
  erewrite run_bind; [reflexivity|]. now apply run_district_rows.
Qed.

Lemma update_last (h : heap) (f g : frame) :
  update (List.length h) g (h ++ [f]) = h ++ [g].
Proof. induction h as [|x h IH]; simpl; [reflexivity|now rewrite IH]. Qed.

Ltac run_step :=
  erewrite run_bind;
  [|first [ apply run_district_rows; first [eassumption|apply nth_error_last]
          | apply run_trend_rows; eassumption
          | apply run_select; first [eassumption|apply nth_error_last]
          | reflexivity ]].

(** The frame the filter stage returns holds [Filter.filtered_data] of the
    rows of [district_profile]. *)
Lemma filter_stage_result (h : heap) (dp : nat) (w : widgets) rows :
  nth_error h dp = Some (District rows) ->
  exists id h',
    filter_stage dp w h = (Ok id, h')
    /\ nth_error h' id
       = Some (District (Filter.filtered_data rows (selected_states w)
                           (ati_range w) (show_anomalies w))).
Proof.
  intro H. unfold filter_stage, Filter.filtered_data.
  run_step. run_step.
  destruct (negb (Filter.unrestricted (selected_states w))).
  - run_step. run_step.
    destruct (show_anomalies w).
    + erewrite run_select by apply nth_error_last.
      eexists. eexists. split; [reflexivity|apply nth_error_last].
    + eexists. eexists. split; [reflexivity|apply nth_error_last].
  - run_step. run_step.
    destruct (show_anomalies w).
    + erewrite run_select by apply nth_error_last.
      eexists. eexists. split; [reflexivity|apply nth_error_last].
    + eexists. eexists. split; [reflexivity|apply nth_error_last].
Qed.

(** The yearly stage allocates the grouped frame and then sets its two
    growth columns in place: the frame it returns holds both. *)
Lemma yearly_stage_result (h : heap) (tt : nat) rows :
  nth_error h tt = Some (Trends rows) ->
  yearly_stage tt h
  = (Ok (List.length h),
     h ++ [YearlyFrame (Yearly.groupby_year_sum rows)
             (Some (Yearly.growth_5_17_column (Yearly.groupby_year_sum rows)))
             (Some (Yearly.growth_17_plus_column (Yearly.groupby_year_sum rows)))]).
Proof.
  intro H. unfold yearly_stage.
  run_step. run_step.
  unfold set_growth_5_17, set_growth_17_plus, mbind, read, store, mret.
  rewrite nth_error_last, update_last, nth_error_last, update_last.
  reflexivity.
Qed.

(** An assignment to a column of a frame that exists already does change
    the store: [leaves_store] is not a property of every program. *)
Lemma set_column_changes_store :
  ~ leaves_store (set_growth_5_17 0) [YearlyFrame [] None None].
Proof. unfold leaves_store. simpl. discriminate. Qed.

(** C9.  No stage of the script changes a frame that exists when the stage
    starts: after the filter, the metrics, the two [nlargest] selections,
    the yearly growth (whose column assignments update a frame the stage
    itself allocated), the forecast, the scenario planner, and after the
    stages run in the order of the script, whether they return or raise and
    whatever the bound of the timestamps, the store is the store before
    followed by new frames.  In particular the frames of [district_profile]
    and [time_trends] hold the same rows after the run as before. *)
Theorem tables_unchanged :
  forall (last_month : Z) (h : heap)
         (district_profile time_trends filtered_data : nat) (w : widgets),
    leaves_store (filter_stage district_profile w) h
    /\ leaves_store (metrics_stage filtered_data) h
    /\ leaves_store (top_stage filtered_data) h
    /\ leaves_store (yearly_stage time_trends) h
    /\ leaves_store (forecast_stage last_month time_trends) h
    /\ leaves_store (scenario_stage district_profile w) h
    /\ leaves_store (dashboard last_month district_profile time_trends w) h
    /\ (forall d t,
          nth_error h district_profile = Some (District d) ->
          nth_error h time_trends = Some (Trends t) ->
          let h' := snd (dashboard last_month district_profile time_trends w h) in
          nth_error h' district_profile = Some (District d)
          /\ nth_error h' time_trends = Some (Trends t)).
Proof.
  intros last_month h dp tt fd w.
  assert (Hrun : leaves_store (dashboard last_month dp tt w) h)
    by (eapply preserves_leaves, preserves_dashboard).
  repeat match goal with |- _ /\ _ => split end;
    try (eapply preserves_leaves;
         first [ apply preserves_filter_stage | apply preserves_metrics_stage
               | apply preserves_top_stage | apply preserves_yearly_stage
               | apply preserves_forecast_stage | apply preserves_scenario_stage ]);
    try exact Hrun.
  intros d t Hd Ht h'. split; now apply leaves_store_lookup.
Qed.

(** A run on a store that holds the two example tables. *)
Lemma tables_unchanged_witness :
  let h := [District two_districts; Trends two_months] in
  let w := mk_widgets ["Goa"%string] (0, 1)%Q true Scenario.Both 15 500
                      ["Kerala"%string] in
  let h' := snd (dashboard Forecast.nanosecond_last_month 0 1 w h) in
  nth_error h' 0 = Some (District two_districts)
  /\ nth_error h' 1 = Some (Trends two_months).
Proof.
  intros h w.
  destruct (tables_unchanged Forecast.nanosecond_last_month h 0 1 0 w)
    as (_ & _ & _ & _ & _ & _ & _ & Hrun).
  exact (Hrun two_districts two_months eq_refl eq_refl).
Defined.

End SessionFacts.

(** ** Arithmetic of binary64 values *)

Module F64Facts.
Import F64.
Local Open Scope R_scope.

Lemma Rsign_pos (r : R) : 0 < r -> Rsign r = Gt.
Proof.
  intro H. unfold Rsign.
  destruct (total_order_T r 0) as [[Hlt|Heq]|Hgt]; try reflexivity; exfalso; lra.
Qed.

Lemma Rsign_neg (r : R) : r < 0 -> Rsign r = Lt.
Proof.
  intro H. unfold Rsign.
  destruct (total_order_T r 0) as [[Hlt|Heq]|Hgt]; try reflexivity; exfalso; lra.
Qed.

Lemma Rsign_zero (r : R) : r = 0 -> Rsign r = Eq.
Proof.
  intro H. unfold Rsign.
  destruct (total_order_T r 0) as [[Hlt|Heq]|Hgt]; try reflexivity; exfalso; lra.
Qed.

Lemma Rsign_cases (r : R) :
  (r < 0 /\ Rsign r = Lt) \/ (r = 0 /\ Rsign r = Eq) \/ (0 < r /\ Rsign r = Gt).
Proof.
  destruct (Rtotal_order r 0) as [H|[H|H]];
    auto using Rsign_pos, Rsign_neg, Rsign_zero.
Qed.

Lemma div_fin (a b : R) : b <> 0 -> div (Fin a) (Fin b) = Fin (a / b).
Proof.
  intro Hb. unfold div.
  destruct (Rsign_cases b) as [[H ->]|[[H ->]|[H ->]]]; try reflexivity.
  contradiction.
Qed.

Lemma div_zero (a : R) : div (Fin a) (Fin 0) = signed_inf (Rsign a).
Proof. unfold div. now rewrite (Rsign_zero (r := 0) eq_refl). Qed.

Lemma gtb_fin_zero_true (a : R) : 0 < a -> gtb (Fin a) (Fin 0) = true.
Proof. intro H. unfold gtb. rewrite Rsign_pos; [reflexivity|lra]. Qed.

Lemma gtb_fin_zero_false (a : R) : a <= 0 -> gtb (Fin a) (Fin 0) = false.
Proof.
  intro H. unfold gtb.
  destruct (Rsign_cases (a - 0)) as [[H' ->]|[[H' ->]|[H' ->]]];
    try reflexivity; exfalso; lra.
Qed.

Lemma signed_inf_not_finite (c : comparison) : is_finite (signed_inf c) = false.
Proof. now destruct c. Qed.

Lemma signed_inf_minus_fin (c : comparison) (b : R) :
  sub (signed_inf c) (Fin b) = signed_inf c.
Proof. now destruct c. Qed.

Lemma signed_inf_times_pos (c : comparison) (b : R) :
  0 < b -> mul (signed_inf c) (Fin b) = signed_inf c.
Proof.
  intro Hb. destruct c; simpl; rewrite ?(Rsign_pos Hb); reflexivity.
Qed.

End F64Facts.

(** ** The scenario planner *)

Module ScenarioFacts.
Import F64 F64Facts Scenario.
Local Open Scope R_scope.

Lemma scenario_with_eq (v baseline growth_rate budget_allocation : Z) :
  scenario_with v baseline growth_rate budget_allocation
  = Ok (mk_projection
          (Fin (IZR baseline * (1 + IZR growth_rate / 100)))
          (Fin (impact_value baseline growth_rate))
          (if gtb (Fin (impact_value baseline growth_rate)) (Fin 0)
           then div (of_int (budget_rupees budget_allocation))
                    (Fin (impact_value baseline growth_rate))
           else of_int 0)
          (mul (div (Fin (impact_value baseline growth_rate * IZR v))
                    (of_int (budget_rupees budget_allocation)))
               (Fin 100))).
Proof.
  unfold scenario_with, py_truediv, impact_value. simpl.
  repeat f_equal; lra.
Qed.

Lemma budget_rupees_nonzero (b : Z) : b <> 0%Z -> IZR (budget_rupees b) <> 0.
Proof.
  intro Hb. unfold budget_rupees. apply not_0_IZR. lia.
Qed.

(** C5.  For every baseline, growth rate, value per update and budget the
    planner returns [projected = baseline * (1 + growth_rate/100)] and
    [impact = projected - baseline]; [cost_per_update] is the budget in
    rupees divided by [impact] when [impact > 0] and the number 0 otherwise.
    With baseline 1000, growth rate 15, a budget of 500 crores (5 000 000 000
    rupees) and 500 per update: projected 1150, impact 150, cost per update
    5 000 000 000 / 150 and ROI (150 * 500 / 5 000 000 000) * 100. *)
Theorem scenario_formulas :
  forall (v baseline growth_rate budget_allocation : Z),
    (exists p,
       scenario_with v baseline growth_rate budget_allocation = Ok p
       /\ projected p = mul (of_int baseline) (Fin (1 + IZR growth_rate / 100))
       /\ projected p = Fin (IZR baseline * (1 + IZR growth_rate / 100))
       /\ impact p = sub (projected p) (of_int baseline)
       /\ impact p = Fin (impact_value baseline growth_rate)
       /\ (0 < impact_value baseline growth_rate ->
           cost_per_update p
           = Fin (IZR (budget_rupees budget_allocation)
                  / impact_value baseline growth_rate))
       /\ (impact_value baseline growth_rate <= 0 -> cost_per_update p = Fin 0))
    /\ budget_rupees 500 = 5000000000%Z
    /\ scenario 1000 15 500
       = Ok (mk_projection (Fin 1150) (Fin 150) (Fin (5000000000 / 150))
                           (Fin (150 * 500 / 5000000000 * 100))).
Proof.
  intros v baseline growth_rate budget_allocation.
  split.
  { eexists. split; [apply scenario_with_eq|].
    cbn [projected impact cost_per_update roi].
    split; [reflexivity|].
    split; [reflexivity|].
    split; [reflexivity|].
    split; [reflexivity|].
    split.
    - intro Hpos. rewrite (gtb_fin_zero_true Hpos).
      apply div_fin. lra.
    - intro Hneg. now rewrite (gtb_fin_zero_false Hneg). }
  split; [reflexivity|].
  unfold scenario, avg_value_per_update. rewrite scenario_with_eq.
  assert (Hi : impact_value 1000 15 = 150) by (unfold impact_value; lra).
  rewrite Hi.
  rewrite (gtb_fin_zero_true (a := 150)) by lra.
  unfold of_int. change (budget_rupees 500) with 5000000000%Z.
  rewrite !div_fin by lra. simpl.
  repeat f_equal; lra.
Qed.

(** The planner at the values of the example, where [impact] is 150. *)
Lemma scenario_formulas_witness :
  0 < impact_value 1000 15
  /\ exists p,
       scenario_with 500 1000 15 500 = Ok p
       /\ cost_per_update p = Fin (IZR (budget_rupees 500) / impact_value 1000 15).
Proof.
  assert (Hpos : 0 < impact_value 1000 15) by (unfold impact_value; lra).
  split; [exact Hpos|].
  destruct (scenario_formulas 500 1000 15 500)
    as [(p & Hp & _ & _ & _ & _ & Hcost & _) _].
  exists p. split; [exact Hp|exact (Hcost Hpos)].
Defined.

(** C3, at a budget of zero: the planner returns, with an infinite ROI. *)
Lemma scenario_zero_budget_returns :
  (forall e, scenario 1000 15 0 <> Raise e)
  /\ scenario 1000 15 0 = Ok (mk_projection (Fin 1150) (Fin 150) (Fin 0) PInf).
Proof.
  assert (H : scenario 1000 15 0
              = Ok (mk_projection (Fin 1150) (Fin 150) (Fin 0) PInf)).
  { unfold scenario, avg_value_per_update. rewrite scenario_with_eq.
    assert (Hi : impact_value 1000 15 = 150) by (unfold impact_value; lra).
    rewrite Hi.
    rewrite (gtb_fin_zero_true (a := 150)) by lra.
    unfold of_int. change (budget_rupees 0) with 0%Z.
    rewrite div_fin by lra. rewrite div_zero.
    rewrite Rsign_pos by lra. simpl. rewrite Rsign_pos by lra. simpl.
    repeat f_equal; lra. }
  split; [|exact H].
  intros e He. rewrite H in He. discriminate.
Qed.

(** C3, as the script has it.  The planner never raises.  For a budget
    other than zero [roi = (impact * value per update / budget) * 100]; for
    a budget of zero [roi] is the quotient by zero of IEEE arithmetic:
    [+inf], [-inf] or [NaN] as [impact * value per update] is positive,
    negative or zero. *)
Theorem scenario_roi :
  forall (v baseline growth_rate budget_allocation : Z),
    exists p,
      scenario_with v baseline growth_rate budget_allocation = Ok p
      /\ (budget_allocation <> 0%Z ->
          roi p = Fin (impact_value baseline growth_rate * IZR v
                       / IZR (budget_rupees budget_allocation) * 100))
      /\ (budget_allocation = 0%Z ->
          roi p = signed_inf (Rsign (impact_value baseline growth_rate * IZR v))
          /\ is_finite (roi p) = false).
Proof.
  intros v baseline growth_rate budget_allocation.
  eexists. split; [apply scenario_with_eq|].
  cbn [projected impact cost_per_update roi]. split.
  - intro Hb. unfold of_int.
    rewrite div_fin by now apply budget_rupees_nonzero.
    reflexivity.
  - intros ->. unfold of_int. change (budget_rupees 0) with 0%Z.
    rewrite div_zero, signed_inf_times_pos by lra.
    split; [reflexivity|apply signed_inf_not_finite].
Qed.

(** The planner at a budget of 500 crores and at a budget of zero. *)
Lemma scenario_roi_witness :
  (exists p,
     scenario_with 500 1000 15 500 = Ok p
     /\ roi p = Fin (impact_value 1000 15 * IZR 500 / IZR (budget_rupees 500) * 100))
  /\ (exists p,
        scenario_with 500 1000 15 0 = Ok p /\ is_finite (roi p) = false).
Proof.
  split.
  - destruct (scenario_roi 500 1000 15 500) as (p & Hp & Hroi & _).
    exists p. split; [exact Hp|]. apply Hroi. discriminate.
  - destruct (scenario_roi 500 1000 15 0) as (p & Hp & _ & Hzero).
    exists p. split; [exact Hp|]. exact (proj2 (Hzero eq_refl)).
Defined.

End ScenarioFacts.

(** ** Year-over-year growth *)

Module YearlyFacts.
Import TimeTrends Int64 F64 F64Facts Yearly.
Local Open Scope Z_scope.

Lemma wrap64_add_l (a b : Z) : wrap64 (wrap64 a + b) = wrap64 (a + b).
Proof.
  unfold wrap64.
  replace ((a + 2 ^ 63) mod 2 ^ 64 - 2 ^ 63 + b + 2 ^ 63)
    with ((a + 2 ^ 63) mod 2 ^ 64 + b) by ring.
  rewrite Zplus_mod_idemp_l. f_equal. f_equal. ring.
Qed.

Lemma wrap64_in_range (z : Z) : in_range z -> wrap64 z = z.
Proof.
  unfold in_range, wrap64. intro H.
  rewrite Z.mod_small; lia.
Qed.

Lemma sum_snoc (l : list Z) (x : Z) : Int64.sum (l ++ [x]) = wrap64 (Int64.sum l + x).
Proof. unfold Int64.sum. now rewrite fold_left_app. Qed.

Lemma groupby_snoc (tt : list row) (r : row) :
  groupby_year_sum (tt ++ [r]) = group_add r (groupby_year_sum tt).
Proof. unfold groupby_year_sum. now rewrite fold_left_app. Qed.

Lemma group_add_keys (r : row) (g : list group) (k : Z) :
  In k (map fst (group_add r g)) <-> k = year r \/ In k (map fst g).
Proof.
  induction g as [|[y [a b]] rest IH]; simpl.
  - intuition congruence.
  - destruct (year r <? y) eqn:E1; [simpl; intuition congruence|].
    destruct (year r =? y) eqn:E2; simpl.
    + apply Z.eqb_eq in E2. intuition congruence.
    + rewrite IH. intuition congruence.
Qed.

Lemma group_add_sorted (r : row) (g : list group) :
  keys_sorted g -> keys_sorted (group_add r g).
Proof.
  unfold keys_sorted.
  induction g as [|[y [a b]] rest IH]; simpl; intro Hs.
  - repeat constructor.
  - inversion Hs as [|? ? Hs' Hall]; subst.
    destruct (year r <? y) eqn:E1.
    + apply Z.ltb_lt in E1. simpl.
      constructor; [exact Hs|].
      constructor; [exact E1|].
      eapply Forall_impl; [|exact Hall]. simpl. intros; lia.
    + destruct (year r =? y) eqn:E2; simpl.
      * now constructor.
      * apply Z.ltb_ge in E1. apply Z.eqb_neq in E2.
        constructor; [now apply IH|].
        apply Forall_forall. intros k Hk.
        apply group_add_keys in Hk. destruct Hk as [->|Hk]; [lia|].
        rewrite Forall_forall in Hall. now apply Hall.
Qed.

Lemma groupby_sorted (tt : list row) : keys_sorted (groupby_year_sum tt).
Proof.
  induction tt as [|r tt IH] using rev_ind.
  - constructor.
  - rewrite groupby_snoc. now apply group_add_sorted.
Qed.

Lemma lookup_below (y y0 : Z) (v : Z * Z) (rest : list group) :
  keys_sorted ((y0, v) :: rest) -> y < y0 -> lookup y ((y0, v) :: rest) = None.
Proof.
  unfold keys_sorted. simpl. intros Hs Hlt.
  inversion Hs as [|? ? _ Hall]; subst.
  destruct (y =? y0) eqn:E; [apply Z.eqb_eq in E; lia|].
  clear Hs E. induction rest as [|[y1 v1] rest IH]; simpl; [reflexivity|].
  inversion Hall as [|? ? H1 Hall']; subst. simpl in H1.
  destruct (y =? y1) eqn:E; [apply Z.eqb_eq in E; lia|].
  now apply IH.
Qed.

Lemma lookup_cons (y y0 : Z) (v : Z * Z) (rest : list group) :
  lookup y ((y0, v) :: rest) = if y =? y0 then Some v else lookup y rest.
Proof. reflexivity. Qed.

Lemma lookup_group_add (r : row) (g : list group) (y : Z) :
  keys_sorted g ->
  lookup y (group_add r g)
  = if y =? year r then Some (added r (lookup y g)) else lookup y g.
Proof.
  induction g as [|[y0 [a b]] rest IH]; intro Hs.
  - simpl. now destruct (y =? year r).
  - unfold group_add; fold group_add.
    destruct (year r <? y0) eqn:E1.
    + apply Z.ltb_lt in E1. rewrite (lookup_cons y (year r)).
      destruct (y =? year r) eqn:E; [|reflexivity].
      apply Z.eqb_eq in E; subst y.
      unfold group in *. now rewrite (lookup_below Hs E1).
    + destruct (year r =? y0) eqn:E2.
      * apply Z.eqb_eq in E2; subst y0. rewrite !lookup_cons.
        destruct (y =? year r); reflexivity.
      * apply Z.ltb_ge in E1. apply Z.eqb_neq in E2. rewrite !lookup_cons.
        destruct (y =? y0) eqn:E3.
        -- apply Z.eqb_eq in E3; subst y0.
           destruct (y =? year r) eqn:E4; [apply Z.eqb_eq in E4; lia|reflexivity].
        -- apply IH. unfold keys_sorted in *. simpl in Hs.
           now inversion Hs.
Qed.

Lemma year_rows_snoc (y : Z) (tt : list row) (r : row) :
  year_rows y (tt ++ [r])
  = year_rows y tt ++ (if year r =? y then [r] else []).
Proof. unfold year_rows. rewrite filter_app. reflexivity. Qed.

(** The group of a year holds the two totals of the rows of that year; a
    year without rows has no group. *)
Lemma groupby_lookup (tt : list row) (y : Z) :
  lookup y (groupby_year_sum tt)
  = match year_rows y tt with
    | [] => None
    | _ :: _ => Some (year_total_5_17 y tt, year_total_17_plus y tt)
    end.
Proof.
  induction tt as [|r tt IH] using rev_ind; [reflexivity|].
  rewrite groupby_snoc, lookup_group_add by apply groupby_sorted.
  unfold year_total_5_17, year_total_17_plus.
  rewrite year_rows_snoc, IH, (Z.eqb_sym y).
  destruct (year r =? y).
  - unfold year_total_5_17, year_total_17_plus.
    rewrite !map_app. simpl (map _ [r]). rewrite !sum_snoc.
    destruct (year_rows y tt) as [|r0 rows]; reflexivity.
  - rewrite app_nil_r. reflexivity.
Qed.

Lemma lookup_in (g : list group) (y : Z) (v : Z * Z) :
  keys_sorted g -> In (y, v) g -> lookup y g = Some v.
Proof.
  induction g as [|[y0 v0] rest IH]; intros Hs H; [contradiction|].
  destruct H as [H|H].
  - inversion H; subst. simpl. now rewrite Z.eqb_refl.
  - unfold keys_sorted in Hs. simpl in Hs.
    inversion Hs as [|? ? Hs' Hall]; subst. simpl.
    destruct (y =? y0) eqn:E; [|now apply IH].
    apply Z.eqb_eq in E; subst y0. exfalso.
    rewrite Forall_forall in Hall.
    specialize (Hall y (in_map fst _ _ H)). simpl in Hall. lia.
Qed.

Lemma year_rows_nonempty (y : Z) (tt : list row) :
  year_rows y tt <> [] <-> In y (map year tt).
Proof.
  unfold year_rows. split.
  - intro H. destruct (filter _ tt) as [|r rows] eqn:E; [contradiction|].
    assert (Hr : In r (filter (fun r => year r =? y) tt)) by (rewrite E; now left).
    apply filter_In in Hr. destruct Hr as [Hr Hy].
    apply Z.eqb_eq in Hy. subst y. now apply in_map.
  - intros H E. apply in_map_iff in H. destruct H as (r & Hy & Hr).
    assert (Hin : In r (filter (fun r => year r =? y) tt)).
    { apply filter_In. split; [exact Hr|now apply Z.eqb_eq]. }
    rewrite E in Hin. contradiction.
Qed.

(** The groups are those of the years that occur, each with its totals. *)
Lemma groupby_in (tt : list row) (y a b : Z) :
  In (y, (a, b)) (groupby_year_sum tt) <->
  In y (map year tt) /\ a = year_total_5_17 y tt /\ b = year_total_17_plus y tt.
Proof.
  split.
  - intro H. apply lookup_in in H; [|apply groupby_sorted].
    rewrite groupby_lookup in H.
    destruct (year_rows y tt) as [|r rows] eqn:E; [discriminate|].
    inversion H; subst. repeat split.
    apply year_rows_nonempty. congruence.
  - intros (Hy & -> & ->). apply year_rows_nonempty in Hy.
    pose proof (groupby_lookup tt y) as H.
    destruct (year_rows y tt) as [|r rows] eqn:E; [contradiction|].
    clear E Hy. revert H. generalize (groupby_year_sum tt).
    induction l as [|[y0 v0] rest IH]; simpl; [discriminate|].
    destruct (y =? y0) eqn:E.
    + apply Z.eqb_eq in E. intro H. inversion H; subst. now left.
    + intro H. right. now apply IH.
Qed.

Lemma fold_wrap (l : list Z) (a : Z) :
  fold_left (fun acc x => wrap64 (acc + x)) l (wrap64 a) = wrap64 (a + exact_sum l).
Proof.
  revert a. induction l as [|x l IH]; intro a; simpl.
  - f_equal. lia.
  - rewrite wrap64_add_l, IH. f_equal. lia.
Qed.

Lemma sum_wrap (l : list Z) : Int64.sum l = wrap64 (exact_sum l).
Proof. apply (fold_wrap l 0). Qed.

Lemma sum_exact (l : list Z) : in_range (exact_sum l) -> Int64.sum l = exact_sum l.
Proof. intro H. rewrite sum_wrap. now apply wrap64_in_range. Qed.

Lemma pct_next_combine (a : Z) (l : list Z) :
  map (fun p => sub (div (fst p) (snd p)) (Fin 1))
      (combine (map of_int l) (removelast (of_int a :: map of_int l)))
  = pct_next a l.
Proof.
  revert a. induction l as [|c l IH]; intro a; [reflexivity|].
  change (removelast (of_int a :: map of_int (c :: l)))
    with (of_int a :: removelast (of_int c :: map of_int l)).
  change (map of_int (c :: l)) with (of_int c :: map of_int l).
  cbn [combine]. rewrite map_cons, IH. reflexivity.
Qed.

Lemma pct_change_cons (a : Z) (l : list Z) :
  pct_change (a :: l) = NaN :: pct_next a l.
Proof.
  unfold pct_change.
  change (shift1 (map of_int (a :: l)))
    with (NaN :: removelast (of_int a :: map of_int l)).
  change (map of_int (a :: l)) with (of_int a :: map of_int l).
  cbn [combine]. rewrite map_cons, pct_next_combine. reflexivity.
Qed.

Lemma rows_after_combine (prev : group) (groups : list group) :
  map (fun p => mk_yearly (fst (fst p)) (fst (snd (fst p))) (snd (snd (fst p)))
                          (fst (snd p)) (snd (snd p)))
      (combine groups
         (combine (times_100 (pct_next (fst (snd prev))
                                       (map (fun g => fst (snd g)) groups)))
                  (times_100 (pct_next (snd (snd prev))
                                       (map (fun g => snd (snd g)) groups)))))
  = rows_after prev groups.
Proof.
  revert prev. induction groups as [|g rest IH]; intro prev; [reflexivity|].
  simpl. now rewrite IH.
Qed.

(** The frame [yearly_growth], row by row. *)
Lemma yearly_growth_rows (tt : list row) :
  yearly_growth tt
  = match groupby_year_sum tt with
    | [] => []
    | g :: rest =>
        mk_yearly (fst g) (fst (snd g)) (snd (snd g)) NaN NaN :: rows_after g rest
    end.
Proof.
  unfold yearly_growth, growth_5_17_column, growth_17_plus_column.
  destruct (groupby_year_sum tt) as [|g rest]; [reflexivity|].
  simpl map at 2 3. rewrite !pct_change_cons.
  simpl. now rewrite rows_after_combine.
Qed.

Lemma rows_after_groups (prev : group) (groups : list group) :
  map group_of (rows_after prev groups) = groups.
Proof.
  revert prev. induction groups as [|[y [a b]] rest IH]; intro prev; [reflexivity|].
  simpl. now rewrite IH.
Qed.

Lemma yearly_growth_groups (tt : list row) :
  map group_of (yearly_growth tt) = groupby_year_sum tt.
Proof.
  rewrite yearly_growth_rows.
  destruct (groupby_year_sum tt) as [|[y [a b]] rest]; [reflexivity|].
  simpl. now rewrite rows_after_groups.
Qed.

Lemma yearly_growth_years (tt : list row) :
  map yr_year (yearly_growth tt) = map fst (groupby_year_sum tt).
Proof.
  rewrite <- yearly_growth_groups, map_map. reflexivity.
Qed.

Lemma rows_after_head (prev : group) (groups : list group) r rest :
  rows_after prev groups = r :: rest ->
  growth_5_17 r = mul (pct (yr_total_5_17 r) (fst (snd prev))) (Fin 100)
  /\ growth_17_plus r = mul (pct (yr_total_17_plus r) (snd (snd prev))) (Fin 100)
  /\ exists groups', rest = rows_after (group_of r) groups'.
Proof.
  destruct groups as [|[y [a b]] groups']; simpl; [discriminate|].
  intro H. inversion H; subst. simpl. eauto.
Qed.

Lemma rows_after_adjacent (prev : group) (groups : list group) l1 p c l2 :
  rows_after prev groups = l1 ++ p :: c :: l2 ->
  growth_5_17 c = mul (pct (yr_total_5_17 c) (yr_total_5_17 p)) (Fin 100)
  /\ growth_17_plus c = mul (pct (yr_total_17_plus c) (yr_total_17_plus p)) (Fin 100).
Proof.
  revert prev groups. induction l1 as [|x l1 IH]; intros prev groups H.
  - simpl in H. apply rows_after_head in H.
    destruct H as (_ & _ & groups' & H). symmetry in H.
    apply rows_after_head in H. destruct H as (H5 & H17 & _). auto.
  - simpl in H. apply rows_after_head in H.
    destruct H as (_ & _ & groups' & H). symmetry in H. eauto.
Qed.

(** Two consecutive rows of [yearly_growth]: the growth of the second is
    computed from its totals and the totals of the first. *)
Lemma yearly_growth_adjacent (tt : list row) l1 p c l2 :
  yearly_growth tt = l1 ++ p :: c :: l2 ->
  growth_5_17 c = mul (pct (yr_total_5_17 c) (yr_total_5_17 p)) (Fin 100)
  /\ growth_17_plus c = mul (pct (yr_total_17_plus c) (yr_total_17_plus p)) (Fin 100).
Proof.
  rewrite yearly_growth_rows.
  destruct (groupby_year_sum tt) as [|g rest]; [now destruct l1|].
  destruct l1 as [|x l1]; simpl; intro H; injection H as Hp Hr.
  - apply rows_after_head in Hr. destruct Hr as (H5 & H17 & _).
    subst p. auto.
  - eapply rows_after_adjacent; eauto.
Qed.

Lemma yearly_growth_first (tt : list row) first rest :
  yearly_growth tt = first :: rest ->
  growth_5_17 first = NaN /\ growth_17_plus first = NaN.
Proof.
  rewrite yearly_growth_rows.
  destruct (groupby_year_sum tt) as [|g gs]; [discriminate|].
  intro H. inversion H; subst. auto.
Qed.

Local Open Scope R_scope.

Lemma pct_zero_prev (c : Z) :
  mul (pct c 0) (Fin 100) = signed_inf (Rsign (IZR c)).
Proof.
  unfold pct, of_int. rewrite div_zero, signed_inf_minus_fin.
  apply signed_inf_times_pos. lra.
Qed.

Lemma pct_nonzero_prev (c p : Z) :
  p <> 0%Z ->
  mul (pct c p) (Fin 100) = Fin ((IZR c - IZR p) / IZR p * 100).
Proof.
  intro Hp. unfold pct, of_int.
  assert (Hp' : IZR p <> 0) by now apply not_0_IZR.
  rewrite div_fin by assumption. simpl. f_equal. field. assumption.
Qed.

Lemma signed_inf_sign (c : Z) :
  ((0 < c)%Z -> signed_inf (Rsign (IZR c)) = PInf)
  /\ (c = 0%Z -> signed_inf (Rsign (IZR c)) = NaN)
  /\ ((c < 0)%Z -> signed_inf (Rsign (IZR c)) = NInf).
Proof.
  repeat split; intro H.
  - rewrite Rsign_pos; [reflexivity|]. now apply IZR_lt.
  - subst c. now rewrite Rsign_zero.
  - rewrite Rsign_neg; [reflexivity|]. now apply IZR_lt.
Qed.

Lemma three_years_groups :
  groupby_year_sum three_years
  = [(2021, (100, 30)); (2022, (150, 45)); (2023, (120, 36))]%Z.
Proof. vm_compute. reflexivity. Qed.

Lemma three_years_growth :
  map growth_5_17 (yearly_growth three_years) = [NaN; Fin 50; Fin (-20)]
  /\ map growth_17_plus (yearly_growth three_years) = [NaN; Fin 50; Fin (-20)].
Proof.
  rewrite yearly_growth_rows, three_years_groups.
  cbn [rows_after map growth_5_17 growth_17_plus fst snd].
  rewrite !pct_nonzero_prev by lia.
  split; repeat f_equal; lra.
Qed.

(** C6.  [yearly_growth] has one row per year of the series, in ascending
    order of the year; the totals of a row are the sums of the two columns
    over the rows of its year (the exact sums, as long as they fit in 64
    bits); the growth of the first row is [NaN], pandas' missing value, not
    zero; the growth of every other row is
    [(curr - prev) / prev * 100] on its total and the total of the row
    before it; and on yearly totals 100, 150, 120 the growth column is
    [NaN], 50, -20. *)
Theorem yearly_growth_pct :
  forall tt : list row,
    StronglySorted Z.lt (map yr_year (yearly_growth tt))
    /\ (forall y, In y (map yr_year (yearly_growth tt)) <-> In y (map year tt))
    /\ (forall r, In r (yearly_growth tt) ->
          yr_total_5_17 r = year_total_5_17 (yr_year r) tt
          /\ yr_total_17_plus r = year_total_17_plus (yr_year r) tt)
    /\ (forall y,
          (in_range (exact_sum (map total_5_17 (year_rows y tt))) ->
           year_total_5_17 y tt = exact_sum (map total_5_17 (year_rows y tt)))
          /\ (in_range (exact_sum (map total_17_plus (year_rows y tt))) ->
              year_total_17_plus y tt
              = exact_sum (map total_17_plus (year_rows y tt))))
    /\ (forall first rest,
          yearly_growth tt = first :: rest ->
          growth_5_17 first = NaN /\ growth_17_plus first = NaN)
    /\ (forall l1 prev curr l2,
          yearly_growth tt = l1 ++ prev :: curr :: l2 ->
          (yr_total_5_17 prev <> 0%Z ->
           growth_5_17 curr
           = Fin ((IZR (yr_total_5_17 curr) - IZR (yr_total_5_17 prev))
                  / IZR (yr_total_5_17 prev) * 100))
          /\ (yr_total_17_plus prev <> 0%Z ->
              growth_17_plus curr
              = Fin ((IZR (yr_total_17_plus curr) - IZR (yr_total_17_plus prev))
                     / IZR (yr_total_17_plus prev) * 100)))
    /\ map yr_total_5_17 (yearly_growth three_years) = [100; 150; 120]%Z
    /\ map growth_5_17 (yearly_growth three_years) = [NaN; Fin 50; Fin (-20)].
Proof.
  intro tt.
  split.
  { rewrite yearly_growth_years. apply groupby_sorted. }
  split.
  { intro y. rewrite yearly_growth_years. split.
    - intro H. apply in_map_iff in H. destruct H as ([y' [a b]] & Hy & Hin).
      simpl in Hy. subst y'. now apply groupby_in in Hin.
    - intro H.
      apply (in_map fst _ (y, (year_total_5_17 y tt, year_total_17_plus y tt))).
      now apply groupby_in. }
  split.
  { intros r Hr. apply (in_map group_of) in Hr.
    rewrite yearly_growth_groups in Hr.
    apply groupby_in in Hr. tauto. }
  split.
  { intro y. split; apply sum_exact. }
  split; [apply yearly_growth_first|].
  split.
  { intros l1 prev curr l2 H.
    destruct (@yearly_growth_adjacent _ _ _ _ _ H) as [H5 H17].
    rewrite H5, H17.
    split; intro Hp; now apply pct_nonzero_prev. }
  split; [|apply three_years_growth].
  rewrite yearly_growth_rows, three_years_groups. reflexivity.
Qed.

(** The second and third year of the example. *)
Lemma yearly_growth_pct_witness :
  exists prev curr,
    yearly_growth three_years
    = [mk_yearly 2021 100 30 NaN NaN] ++ prev :: curr :: []
    /\ yr_total_5_17 prev <> 0%Z
    /\ growth_5_17 curr
       = Fin ((IZR (yr_total_5_17 curr) - IZR (yr_total_5_17 prev))
              / IZR (yr_total_5_17 prev) * 100).
Proof.
  assert (E : yearly_growth three_years
              = [mk_yearly 2021 100 30 NaN NaN]
                ++ mk_yearly 2022 150 45 (mul (pct 150 100) (Fin 100))
                                         (mul (pct 45 30) (Fin 100))
                :: mk_yearly 2023 120 36 (mul (pct 120 150) (Fin 100))
                                         (mul (pct 36 45) (Fin 100))
                :: []).
  { rewrite yearly_growth_rows, three_years_groups. reflexivity. }
  eexists. eexists. split; [exact E|].
  assert (Hp : (150 <> 0)%Z) by lia.
  split; [exact Hp|].
  destruct (yearly_growth_pct three_years) as (_ & _ & _ & _ & _ & Hadj & _).
  exact (proj1 (Hadj _ _ _ _ E) Hp).
Defined.

Lemma zero_first_year_rows :
  yearly_growth zero_first_year
  = [mk_yearly 2023 0 0 NaN NaN; mk_yearly 2024 5 0 PInf NaN].
Proof.
  assert (G : groupby_year_sum zero_first_year
              = [(2023, (0, 0)); (2024, (5, 0))]%Z)
    by (vm_compute; reflexivity).
  rewrite yearly_growth_rows, G.
  cbn [rows_after fst snd].
  rewrite !pct_zero_prev.
  rewrite (proj1 (signed_inf_sign 5)) by lia.
  rewrite (proj1 (proj2 (signed_inf_sign 0))) by reflexivity.
  reflexivity.
Qed.

(** C4, on a series whose first year has a total of zero: the growth of the
    second year is [+inf], a value that is not null. *)
Lemma zero_previous_year_infinite :
  exists prev curr,
    yearly_growth zero_first_year = [prev; curr]
    /\ yr_total_5_17 prev = 0%Z
    /\ growth_5_17 curr = PInf
    /\ growth_5_17 curr <> NaN.
Proof.
  eexists. eexists. split; [apply zero_first_year_rows|].
  simpl. repeat split. discriminate.
Qed.

(** C4, as the script has it.  When the total of the preceding year is zero
    the growth of a year is the IEEE result of the division by zero: [+inf]
    when the year's own total is positive, [NaN] (null) when it is zero too,
    and [-inf] when it is negative. *)
Theorem growth_after_zero_year :
  forall (tt : list row) l1 prev curr l2,
    yearly_growth tt = l1 ++ prev :: curr :: l2 ->
    (yr_total_5_17 prev = 0%Z ->
     ((0 < yr_total_5_17 curr)%Z -> growth_5_17 curr = PInf)
     /\ (yr_total_5_17 curr = 0%Z -> growth_5_17 curr = NaN)
     /\ ((yr_total_5_17 curr < 0)%Z -> growth_5_17 curr = NInf))
    /\ (yr_total_17_plus prev = 0%Z ->
        ((0 < yr_total_17_plus curr)%Z -> growth_17_plus curr = PInf)
        /\ (yr_total_17_plus curr = 0%Z -> growth_17_plus curr = NaN)
        /\ ((yr_total_17_plus curr < 0)%Z -> growth_17_plus curr = NInf)).
Proof.
  intros tt l1 prev curr l2 H.
  destruct (@yearly_growth_adjacent _ _ _ _ _ H) as [H5 H17].
  rewrite H5, H17.
  split; intros ->; rewrite pct_zero_prev; apply signed_inf_sign.
Qed.

(** The two years of [zero_first_year]. *)
Lemma growth_after_zero_year_witness :
  yearly_growth zero_first_year
  = [] ++ mk_yearly 2023 0 0 NaN NaN :: mk_yearly 2024 5 0 PInf NaN :: []
  /\ growth_5_17 (mk_yearly 2024 5 0 PInf NaN) = PInf
  /\ growth_17_plus (mk_yearly 2024 5 0 PInf NaN) = NaN.
Proof.
  pose proof (@growth_after_zero_year zero_first_year [] _ _ [] zero_first_year_rows)
    as [H5 H17].
  split; [exact zero_first_year_rows|].
  split.
  - apply (proj1 (H5 eq_refl)). reflexivity.
  - apply (proj1 (proj2 (H17 eq_refl))). reflexivity.
Defined.

End YearlyFacts.

(** ** The demand forecast *)

Module ForecastFacts.
Import TimeTrends F64 F64Facts Forecast.
Local Open Scope R_scope.

Lemma iloc_first_ok {A : Type} (l : list A) :
  l <> [] -> exists x, iloc_first l = Ok x.
Proof. destruct l as [|x l]; [contradiction|]. intros _. now exists x. Qed.

Lemma iloc_first_raise {A : Type} (l : list A) (e : exn) :
  iloc_first l = Raise e -> l = [] /\ e = IndexError.
Proof. destruct l; simpl; intro H; inversion H; auto. Qed.

Lemma iloc_last_ok {A : Type} (l : list A) :
  l <> [] -> exists x, iloc_last l = Ok x.
Proof.
  intro H. apply iloc_first_ok. intro E.
  apply (f_equal (@rev A)) in E. rewrite rev_involutive in E. contradiction.
Qed.

Lemma iloc_last_raise {A : Type} (l : list A) (e : exn) :
  iloc_last l = Raise e -> l = [] /\ e = IndexError.
Proof.
  intro H. apply iloc_first_raise in H. destruct H as [H ->].
  apply (f_equal (@rev A)) in H. rewrite rev_involutive in H. auto.
Qed.

Lemma tail_nonempty {A : Type} (n : nat) (l : list A) :
  (0 < n)%nat -> l <> [] -> tail n l <> [].
Proof.
  intros Hn Hl E. apply (f_equal (@List.length A)) in E.
  unfold tail in E. rewrite length_skipn in E.
  destruct l; [contradiction|]. cbn [List.length] in E. lia.
Qed.

Lemma map_nonempty {A B : Type} (f : A -> B) (l : list A) :
  l <> [] -> map f l <> [].
Proof. now destruct l. Qed.

Lemma date_max_month (l : list timestamp) (acc : timestamp) :
  Forall (fun d => d <> NaT) l -> acc <> NaT \/ l <> [] ->
  fold_left (fun acc d => if ts_leb acc d then d else acc) l acc <> NaT.
Proof.
  intro Hl. revert acc. induction Hl as [|d l Hd _ IH]; intros acc H.
  - simpl. tauto.
  - simpl. apply IH. left. destruct (ts_leb acc d) eqn:E; [exact Hd|].
    destruct acc; [discriminate|discriminate].
Qed.

Lemma date_max_rows (tt : list row) :
  tt <> [] -> exists y m, date_max (map date tt) = MonthStart y m.
Proof.
  intro H.
  assert (Hn : date_max (map date tt) <> NaT).
  { apply date_max_month.
    - apply Forall_forall. intros d Hd. apply in_map_iff in Hd.
      destruct Hd as (r & <- & _). discriminate.
    - right. now apply map_nonempty. }
  destruct (date_max (map date tt)) as [|y m]; [contradiction|eauto].
Qed.

Lemma shift_months_number (y m k : Z) :
  month_number (shift_months (MonthStart y m) k) = (y * 12 + (m - 1) + k)%Z.
Proof.
  unfold shift_months, month_number.
  pose proof (Z.div_mod (y * 12 + (m - 1) + k) 12). lia.
Qed.

Lemma shift_months_add (d : timestamp) (a b : Z) :
  shift_months (shift_months d a) b = shift_months d (a + b).
Proof.
  destruct d as [|y m]; [reflexivity|]. unfold shift_months.
  set (t := (y * 12 + (m - 1) + a)%Z).
  assert (E : (t / 12 * 12 + (t mod 12 + 1 - 1) + b = y * 12 + (m - 1) + (a + b))%Z).
  { pose proof (Z.div_mod t 12). subst t. lia. }
  now rewrite E.
Qed.

Lemma representable_shift (last_month y m k : Z) :
  representable last_month (shift_months (MonthStart y m) k)
  = (y * 12 + (m - 1) + k <=? last_month)%Z.
Proof.
  pose proof (shift_months_number y m k) as E.
  unfold shift_months in *. unfold representable. now rewrite E.
Qed.

Lemma add_months_within (last_month y m k : Z) :
  (y * 12 + (m - 1) + k <= last_month)%Z ->
  add_months last_month (MonthStart y m) k = Ok (shift_months (MonthStart y m) k).
Proof.
  intro H. unfold add_months. rewrite representable_shift.
  now rewrite (proj2 (Z.leb_le _ _) H).
Qed.

Lemma add_months_beyond (last_month y m k : Z) :
  (last_month < y * 12 + (m - 1) + k)%Z ->
  add_months last_month (MonthStart y m) k = Raise ValueError.
Proof.
  intro H. unfold add_months. rewrite representable_shift.
  now rewrite (proj2 (Z.leb_gt _ _) H).
Qed.

Lemma date_range_within (last_month y m : Z) (n : nat) :
  (y * 12 + (m - 1) + Z.of_nat n - 1 <= last_month)%Z ->
  date_range last_month (MonthStart y m) n
  = Ok (map (fun k => shift_months (MonthStart y m) (Z.of_nat k)) (seq 0 n)).
Proof.
  intro H. unfold date_range.
  replace (forallb _ _) with true; [reflexivity|].
  symmetry. apply forallb_forall. intros d Hd. apply in_map_iff in Hd.
  destruct Hd as (k & <- & Hk). apply in_seq in Hk.
  rewrite representable_shift. apply Z.leb_le. lia.
Qed.

Lemma date_range_beyond (last_month y m : Z) (n : nat) :
  (0 < n)%nat -> (last_month < y * 12 + (m - 1) + Z.of_nat n - 1)%Z ->
  date_range last_month (MonthStart y m) n = Raise ValueError.
Proof.
  intros Hn H. unfold date_range.
  replace (forallb _ _) with false; [reflexivity|].
  symmetry. apply not_true_is_false. intro E.
  rewrite forallb_forall in E.
  specialize (E (shift_months (MonthStart y m) (Z.of_nat (n - 1)))).
  rewrite representable_shift in E.
  assert (Hin : In (shift_months (MonthStart y m) (Z.of_nat (n - 1)))
                   (map (fun k => shift_months (MonthStart y m) (Z.of_nat k)) (seq 0 n))).
  { apply in_map_iff. exists (n - 1)%nat. split; [reflexivity|]. apply in_seq. lia. }
  apply E, Z.leb_le in Hin. lia.
Qed.

(** The forecast once the four readings of the table are known and the
    last forecast month can be held by a timestamp. *)
Lemma demand_forecast_ok (last_month : Z) (tt : list row) (n : nat)
    (first last last_value y m : Z) :
  iloc_last (map total_17_plus (tail 12 tt)) = Ok last ->
  iloc_first (map total_17_plus (tail 12 tt)) = Ok first ->
  date_max (map date tt) = MonthStart y m ->
  iloc_last (map total_17_plus tt) = Ok last_value ->
  (y * 12 + (m - 1) + Z.max 1 (Z.of_nat n) <= last_month)%Z ->
  let g := sub (power (div (of_int last) (of_int first)) (1 / 12)) (Fin 1) in
  demand_forecast last_month tt n
  = Ok (mk_forecast g
          (map (fun k => shift_months (shift_months (MonthStart y m) 1) (Z.of_nat k))
               (seq 0 n))
          (map (fun i => mul (of_int last_value) (power_int (add (Fin 1) g) i))
               (seq 1 n))).
Proof.
  intros Hlast Hfirst Hdate Hvalue Hin g.
  unfold demand_forecast. rewrite Hlast, Hfirst, Hdate, Hvalue.
  cbn [bind py_truediv Z.eqb].
  rewrite add_months_within by lia. cbn [bind].
  pose proof (shift_months_number y m 1) as E.
  unfold shift_months in *. cbn [month_number] in E.
  rewrite date_range_within by lia.
  reflexivity.
Qed.

(** Past the last timestamp the forecast raises [ValueError] at its dates. *)
Lemma demand_forecast_beyond (last_month : Z) (tt : list row) (n : nat)
    (first last y m : Z) :
  iloc_last (map total_17_plus (tail 12 tt)) = Ok last ->
  iloc_first (map total_17_plus (tail 12 tt)) = Ok first ->
  date_max (map date tt) = MonthStart y m ->
  (last_month < y * 12 + (m - 1) + Z.max 1 (Z.of_nat n))%Z ->
  demand_forecast last_month tt n = Raise ValueError.
Proof.
  intros Hlast Hfirst Hdate Hout.
  unfold demand_forecast. rewrite Hlast, Hfirst, Hdate.
  cbn [bind py_truediv Z.eqb].
  destruct (Z_le_gt_dec (y * 12 + (m - 1) + 1) last_month) as [Hle|Hgt].
  - rewrite add_months_within by lia. cbn [bind].
    pose proof (shift_months_number y m 1) as E.
    unfold shift_months in *. cbn [month_number] in E.
    rewrite date_range_beyond by lia.
    reflexivity.
  - rewrite add_months_beyond by lia. reflexivity.
Qed.

Lemma demand_forecast_empty (last_month : Z) (n : nat) :
  demand_forecast last_month [] n = Raise IndexError.
Proof. reflexivity. Qed.

Lemma last_forecast_month_rows (tt : list row) (n : nat) (y m : Z) :
  date_max (map date tt) = MonthStart y m ->
  last_forecast_month tt n = (y * 12 + (m - 1) + Z.max 1 (Z.of_nat n))%Z.
Proof. intro H. unfold last_forecast_month. now rewrite H. Qed.

Lemma demand_forecast_nonempty (last_month : Z) (tt : list row) (n : nat) :
  tt <> [] ->
  (last_forecast_month tt n <= last_month)%Z ->
  exists first last last_value y m,
    iloc_first (map total_17_plus (tail 12 tt)) = Ok first
    /\ demand_forecast last_month tt n
       = Ok (mk_forecast
               (sub (power (div (of_int last) (of_int first)) (1 / 12)) (Fin 1))
               (map (fun k => shift_months (shift_months (MonthStart y m) 1) (Z.of_nat k))
                    (seq 0 n))
               (map (fun i =>
                       mul (of_int last_value)
                           (power_int
                              (add (Fin 1)
                                   (sub (power (div (of_int last) (of_int first))
                                               (1 / 12))
                                        (Fin 1))) i))
                    (seq 1 n))).
Proof.
  intros H Hin.
  assert (Hw : map total_17_plus (tail 12 tt) <> [])
    by (apply map_nonempty, tail_nonempty; [lia|exact H]).
  destruct (iloc_first_ok Hw) as [first Hfirst].
  destruct (iloc_last_ok Hw) as [last Hlast].
  destruct (iloc_last_ok (map_nonempty total_17_plus H)) as [last_value Hvalue].
  destruct (date_max_rows H) as (y & m & Hdate).
  exists first, last, last_value, y, m. split; [exact Hfirst|].
  rewrite (last_forecast_month_rows tt n Hdate) in Hin.
  now apply demand_forecast_ok.
Qed.

Lemma demand_forecast_out_of_range (last_month : Z) (tt : list row) (n : nat) :
  tt <> [] ->
  (last_month < last_forecast_month tt n)%Z ->
  demand_forecast last_month tt n = Raise ValueError.
Proof.
  intros H Hout.
  assert (Hw : map total_17_plus (tail 12 tt) <> [])
    by (apply map_nonempty, tail_nonempty; [lia|exact H]).
  destruct (iloc_first_ok Hw) as [first Hfirst].
  destruct (iloc_last_ok Hw) as [last Hlast].
  destruct (date_max_rows H) as (y & m & Hdate).
  rewrite (last_forecast_month_rows tt n Hdate) in Hout.
  eapply demand_forecast_beyond; eassumption.
Qed.

(** Once the growth is infinite or [NaN], so is every forecast value. *)
Lemma forecast_value_not_finite (c : comparison) (e : R) (last_value : Z) (i : nat) :
  (1 <= i)%nat ->
  is_finite (mul (of_int last_value)
                 (power_int (add (Fin 1) (sub (power (signed_inf c) e) (Fin 1))) i))
  = false.
Proof.
  intro Hi. destruct i as [|i]; [lia|].
  destruct c; simpl; try reflexivity; apply signed_inf_not_finite.
Qed.

Lemma Rpower_one (e : R) : Rpower 1 e = 1.
Proof. unfold Rpower. now rewrite ln_1, Rmult_0_r, exp_0. Qed.

Lemma single_month_forecast (last_month : Z) (r : row) (n : nat) :
  (0 < total_17_plus r)%Z ->
  (last_forecast_month [r] n <= last_month)%Z ->
  demand_forecast last_month [r] n
  = Ok (mk_forecast (Fin 0)
          (map (fun k => shift_months (shift_months (date r) 1) (Z.of_nat k)) (seq 0 n))
          (map (fun _ => Fin (IZR (total_17_plus r))) (seq 1 n))).
Proof.
  intros Hpos Hin.
  assert (Hv : 0 < IZR (total_17_plus r)) by now apply IZR_lt.
  rewrite (@demand_forecast_ok last_month [r] n (total_17_plus r) (total_17_plus r)
             (total_17_plus r) (year r) (month r)); try reflexivity; [|exact Hin].
  unfold of_int. rewrite div_fin by lra.
  replace (IZR (total_17_plus r) / IZR (total_17_plus r)) with 1 by (field; lra).
  unfold power. rewrite Rsign_pos by lra. rewrite Rpower_one.
  replace (sub (Fin 1) (Fin 1)) with (Fin 0) by (simpl; f_equal; lra).
  f_equal. f_equal. apply map_ext_in. intros i Hi. apply in_seq in Hi.
  destruct i as [|i]; [lia|]. simpl. f_equal.
  replace (1 + 0) with 1 by lra. rewrite pow1. lra.
Qed.

(** C2, on a history of two months that starts at zero and on a history of
    one month, with timestamps of nanosecond resolution: the forecast
    returns, in the first case with infinite values. *)
Lemma forecast_returns_on_invalid_input :
  demand_forecast nanosecond_last_month zero_start 1
  = Ok (mk_forecast PInf [MonthStart 2024 3] [PInf])
  /\ demand_forecast nanosecond_last_month single_month 1
     = Ok (mk_forecast (Fin 0) [MonthStart 2024 2] [Fin 5]).
Proof.
  split.
  - rewrite (@demand_forecast_ok nanosecond_last_month zero_start 1 0 5 5 2024 2);
      try reflexivity; [|vm_compute; discriminate].
    unfold of_int. rewrite div_zero, Rsign_pos by lra. simpl.
    rewrite Rsign_pos by lra. reflexivity.
  - unfold single_month.
    rewrite single_month_forecast by (try (simpl; lia); vm_compute; discriminate).
    reflexivity.
Qed.

(** C2, as the script has it.  The forecast has two ways to fail and no
    other: an [IndexError] on an empty history, and a [ValueError] on a
    history whose last forecast month no timestamp can hold.  On any other
    history it returns the requested number of values and dates: also on a
    history of one month, where the forecast repeats the last value, and
    also when the first value of the trailing window is zero, where every
    value returned is infinite or [NaN]. *)
Theorem forecast_raises_only_on_empty :
  forall (last_month : Z) (tt : list row) (n : nat),
    (forall e, demand_forecast last_month tt n = Raise e <->
               (tt = [] /\ e = IndexError)
               \/ (tt <> [] /\ (last_month < last_forecast_month tt n)%Z
                   /\ e = ValueError))
    /\ (tt <> [] -> (last_forecast_month tt n <= last_month)%Z ->
        exists fc, demand_forecast last_month tt n = Ok fc
                   /\ List.length (forecast_values fc) = n
                   /\ List.length (future_dates fc) = n)
    /\ (forall r, tt = [r] -> (0 < total_17_plus r)%Z ->
        (last_forecast_month tt n <= last_month)%Z ->
        exists fc, demand_forecast last_month tt n = Ok fc
                   /\ avg_growth fc = Fin 0
                   /\ Forall (fun v => v = Fin (IZR (total_17_plus r)))
                             (forecast_values fc))
    /\ (forall fc, demand_forecast last_month tt n = Ok fc ->
        iloc_first (map total_17_plus (tail 12 tt)) = Ok 0%Z ->
        Forall (fun v => is_finite v = false) (forecast_values fc)).
Proof.
  intros last_month tt n.
  split.
  { intro e. split.
    - intro H. destruct tt as [|r tt].
      + rewrite demand_forecast_empty in H. inversion H. auto.
      + right. split; [discriminate|].
        destruct (Z_le_gt_dec (last_forecast_month (r :: tt) n) last_month)
          as [Hle|Hgt].
        * destruct (@demand_forecast_nonempty last_month (r :: tt) n)
            as (f & l & v & y & m & _ & E); [discriminate|exact Hle|].
          rewrite E in H. discriminate.
        * rewrite demand_forecast_out_of_range in H by (try discriminate; lia).
          split; [lia|congruence].
    - intros [[-> ->]|(Hne & Hout & ->)]; [reflexivity|].
      now apply demand_forecast_out_of_range. }
  split.
  { intros H Hin.
    destruct (demand_forecast_nonempty n H Hin) as (f & l & v & y & m & _ & E).
    eexists. split; [exact E|]. simpl.
    now rewrite !length_map, !length_seq. }
  split.
  { intros r -> Hpos Hin. eexists. split; [now apply single_month_forecast|].
    simpl. split; [reflexivity|].
    apply Forall_forall. intros v Hv. apply in_map_iff in Hv.
    now destruct Hv as (i & <- & _). }
  intros fc Hfc Hzero.
  destruct tt as [|r tt]; [discriminate|].
  destruct (Z_le_gt_dec (last_forecast_month (r :: tt) n) last_month) as [Hle|Hgt].
  2:{ rewrite demand_forecast_out_of_range in Hfc by (try discriminate; lia).
      discriminate. }
  destruct (@demand_forecast_nonempty last_month (r :: tt) n)
    as (f & l & v & y & m & Hf & E); [discriminate|exact Hle|].
  rewrite Hf in Hzero. inversion Hzero; subst f.
  rewrite E in Hfc.
  match type of Hfc with Ok ?x = _ => assert (Hx : fc = x) by congruence end.
  subst fc. unfold forecast_values.
  apply Forall_forall. intros x Hx. apply in_map_iff in Hx.
  destruct Hx as (i & <- & Hi). apply in_seq in Hi.
  change (div (of_int l) (of_int 0)) with (div (Fin (IZR l)) (Fin 0)).
  rewrite div_zero.
  apply forecast_value_not_finite. lia.
Qed.

(** The histories of the counterexample, and a history whose last month is
    the last a timestamp of nanosecond resolution can hold. *)
Lemma forecast_raises_only_on_empty_witness :
  (exists fc, demand_forecast nanosecond_last_month zero_start 1 = Ok fc
              /\ List.length (forecast_values fc) = 1%nat
              /\ List.length (future_dates fc) = 1%nat)
  /\ (exists fc, demand_forecast nanosecond_last_month single_month 1 = Ok fc
                 /\ avg_growth fc = Fin 0
                 /\ Forall (fun v => v = Fin 5) (forecast_values fc))
  /\ demand_forecast nanosecond_last_month [mk 2262 4 0 5] 1 = Raise ValueError.
Proof.
  split; [|split].
  - apply (proj1 (proj2 (forecast_raises_only_on_empty nanosecond_last_month
                           zero_start 1))).
    + discriminate.
    + vm_compute. discriminate.
  - apply (proj1 (proj2 (proj2 (forecast_raises_only_on_empty nanosecond_last_month
                                  single_month 1)))
             (mk 2024 1 0 5) eq_refl).
    + reflexivity.
    + vm_compute. discriminate.
  - apply (proj1 (forecast_raises_only_on_empty nanosecond_last_month
                    [mk 2262 4 0 5] 1)).
    right. split; [discriminate|]. split; [reflexivity|reflexivity].
Defined.

Lemma Rpower_root_pow (x : R) (n : nat) :
  0 < x -> (0 < n)%nat -> Rpower x (1 / INR n) ^ n = x.
Proof.
  intros Hx Hn.
  rewrite <- Rpower_pow by apply exp_pos.
  rewrite Rpower_mult.
  replace (1 / INR n * INR n) with 1.
  - now apply Rpower_1.
  - field. apply not_0_INR. lia.
Qed.

Lemma root_above (a x : R) (n : nat) :
  0 < x -> (0 < n)%nat -> 0 <= a -> a ^ n < x -> a < Rpower x (1 / INR n).
Proof.
  intros Hx Hn Ha Hlt.
  destruct (Rlt_le_dec a (Rpower x (1 / INR n))) as [H|H]; [exact H|].
  exfalso.
  assert (Hv : 0 <= Rpower x (1 / INR n)) by (left; apply exp_pos).
  pose proof (pow_incr _ _ n (conj Hv H)) as Hp.
  rewrite Rpower_root_pow in Hp by assumption. lra.
Qed.

Lemma root_below (b x : R) (n : nat) :
  0 < x -> (0 < n)%nat -> 0 <= b -> x < b ^ n -> Rpower x (1 / INR n) < b.
Proof.
  intros Hx Hn Hb Hlt.
  destruct (Rlt_le_dec (Rpower x (1 / INR n)) b) as [H|H]; [exact H|].
  exfalso.
  pose proof (pow_incr _ _ n (conj Hb H)) as Hp.
  rewrite Rpower_root_pow in Hp by assumption. lra.
Qed.

Lemma twelfth_root_of_two :
  1059 / 1000 < Rpower 2 (1 / 12) < 10595 / 10000.
Proof.
  replace (1 / 12) with (1 / INR 12) by (simpl; lra).
  split.
  - apply root_above; try lra; try lia.
  - apply root_below; try lra; try lia.
Qed.

Lemma eleventh_root_of_two : 10645 / 10000 < Rpower 2 (1 / 11).
Proof.
  replace (1 / 11) with (1 / INR 11) by (simpl; lra).
  apply root_above; try lra; try lia.
Qed.

(** The forecast on a window whose first and last values are positive:
    the growth is the twelfth root of their ratio, less one, whatever the
    length of the window. *)
Lemma demand_forecast_growth (last_month : Z) (tt : list row) (n : nat)
    (first last last_value y m : Z) :
  iloc_last (map total_17_plus (tail 12 tt)) = Ok last ->
  iloc_first (map total_17_plus (tail 12 tt)) = Ok first ->
  date_max (map date tt) = MonthStart y m ->
  iloc_last (map total_17_plus tt) = Ok last_value ->
  (0 < first)%Z -> (0 < last)%Z ->
  (y * 12 + (m - 1) + Z.max 1 (Z.of_nat n) <= last_month)%Z ->
  demand_forecast last_month tt n
  = Ok (mk_forecast
          (Fin (Rpower (IZR last / IZR first) (1 / 12) - 1))
          (map (fun k => shift_months (MonthStart y m) (Z.of_nat k)) (seq 1 n))
          (map (fun k => Fin (IZR last_value
                              * (1 + (Rpower (IZR last / IZR first) (1 / 12) - 1)) ^ k))
               (seq 1 n))).
Proof.
  intros Hlast Hfirst Hdate Hvalue Hf Hl Hin.
  rewrite (@demand_forecast_ok last_month tt n first last last_value y m
             Hlast Hfirst Hdate Hvalue Hin).
  assert (Hf' : 0 < IZR first) by now apply IZR_lt.
  assert (Hl' : 0 < IZR last) by now apply IZR_lt.
  unfold of_int. rewrite div_fin by lra.
  unfold power. rewrite Rsign_pos by now apply Rdiv_lt_0_compat.
  change (sub (Fin (Rpower (IZR last / IZR first) (1 / 12))) (Fin 1))
    with (Fin (Rpower (IZR last / IZR first) (1 / 12) - 1)).
  f_equal. f_equal.
  - rewrite <- seq_shift, map_map. apply map_ext. intro k.
    rewrite shift_months_add. f_equal. lia.
  - apply map_ext_in. intros k Hk. apply in_seq in Hk.
    destruct k as [|k]; [lia|]. reflexivity.
Qed.

(** C1, on twelve months that go from 100 to 200, for every horizon of at
    least one month (the script's is six) whose months a timestamp can
    hold.  The script takes the twelfth root of the ratio, although twelve
    months are eleven steps apart: the first forecast value is
    [200 * 2^(1/12)], between 211.8 and 211.9, where the eleventh root gives
    a value above 212.9. *)
Theorem forecast_twelfth_root :
  forall (last_month : Z) (n : nat),
    (last_forecast_month doubling_year (S n) <= last_month)%Z ->
    List.length doubling_year = 12%nat
    /\ (exists fc,
          demand_forecast last_month doubling_year (S n) = Ok fc
          /\ avg_growth fc = Fin (Rpower 2 (1 / 12) - 1)
          /\ hd_error (forecast_values fc) = Some (Fin (200 * Rpower 2 (1 / 12)))
          /\ hd_error (future_dates fc) = Some (MonthStart 2025 1))
    /\ 2118 / 10 < 200 * Rpower 2 (1 / 12) < 2119 / 10
    /\ 2129 / 10 < 200 * Rpower 2 (1 / (12 - 1)).
Proof.
  intros last_month n Hin.
  split; [reflexivity|].
  split.
  { eexists. split.
    - now apply (@demand_forecast_growth last_month doubling_year (S n)
                   100 200 200 2024 12).
    - replace (200 / 100) with 2 by lra.
      split; [reflexivity|]. split; [|reflexivity].
      simpl. do 2 f_equal. lra. }
  pose proof twelfth_root_of_two as H12.
  pose proof eleventh_root_of_two as H11.
  replace (12 - 1) with 11 by lra.
  lra.
Qed.

(** The script's own six months, with timestamps of nanosecond
    resolution. *)
Lemma forecast_twelfth_root_witness :
  (last_forecast_month doubling_year future_months <= nanosecond_last_month)%Z
  /\ exists fc,
       demand_forecast nanosecond_last_month doubling_year future_months = Ok fc
       /\ avg_growth fc = Fin (Rpower 2 (1 / 12) - 1)
       /\ hd_error (forecast_values fc) = Some (Fin (200 * Rpower 2 (1 / 12)))
       /\ hd_error (future_dates fc) = Some (MonthStart 2025 1).
Proof.
  assert (Hin : (last_forecast_month doubling_year future_months
                 <= nanosecond_last_month)%Z) by (vm_compute; discriminate).
  split; [exact Hin|].
  exact (proj1 (proj2 (forecast_twelfth_root 5 Hin))).
Defined.

End ForecastFacts.

(** ** The sidebar defaults *)

Module SidebarFacts.
Import DistrictProfile Filter Sidebar.

Lemma isin_In (s : string) (l : list string) : isin s l = true <-> In s l.
Proof.
  unfold isin. rewrite existsb_exists. split.
  - intros (x & Hx & E). apply String.eqb_eq in E. now subst.
  - intro H. exists s. split; [exact H|apply String.eqb_refl].
Qed.

Lemma unique_from_In (seen l : list string) (x : string) :
  In x (unique_from seen l) <-> In x l /\ ~ In x seen.
Proof.
  revert seen. induction l as [|y l IH]; intro seen; simpl; [tauto|].
  destruct (isin y seen) eqn:E.
  - apply isin_In in E. rewrite IH. split.
    + tauto.
    + intros [[->|H] Hn]; [contradiction|tauto].
  - assert (Hy : ~ In y seen) by (rewrite <- isin_In; congruence).
    simpl. rewrite IH. simpl. split.
    + intros [->|[H Hn]]; [tauto|tauto].
    + intros [[->|H] Hn]; [tauto|].
      destruct (string_dec y x) as [->|Hne]; [tauto|]. right. tauto.
Qed.

Lemma unique_from_NoDup (seen l : list string) : NoDup (unique_from seen l).
Proof.
  revert seen. induction l as [|y l IH]; intro seen; simpl; [constructor|].
  destruct (isin y seen); [apply IH|].
  constructor; [|apply IH].
  rewrite unique_from_In. simpl. tauto.
Qed.

Lemma fold_Qmin_le (l : list Q) (x : Q) :
  (fold_left Qmin_b l x <= x)%Q
  /\ Forall (fun y => (fold_left Qmin_b l x <= y)%Q) l.
Proof.
  revert x. induction l as [|y l IH]; intro x; simpl.
  - split; [apply Qle_refl|constructor].
  - destruct (IH (Qmin_b x y)) as [H1 H2].
    assert (Hm : (Qmin_b x y <= x /\ Qmin_b x y <= y)%Q).
    { unfold Qmin_b. destruct (Qle_bool x y) eqn:E.
      - apply Qle_bool_iff in E. split; [apply Qle_refl|exact E].
      - split; [|apply Qle_refl].
        apply Qlt_le_weak, Qnot_le_lt. intro H.
        apply Qle_bool_iff in H. congruence. }
    split; [eapply Qle_trans; [exact H1|tauto]|].
    constructor; [eapply Qle_trans; [exact H1|tauto]|exact H2].
Qed.

Lemma fold_Qmax_ge (l : list Q) (x : Q) :
  (x <= fold_left Qmax_b l x)%Q
  /\ Forall (fun y => (y <= fold_left Qmax_b l x)%Q) l.
Proof.
  revert x. induction l as [|y l IH]; intro x; simpl.
  - split; [apply Qle_refl|constructor].
  - destruct (IH (Qmax_b x y)) as [H1 H2].
    assert (Hm : (x <= Qmax_b x y /\ y <= Qmax_b x y)%Q).
    { unfold Qmax_b. destruct (Qle_bool x y) eqn:E.
      - apply Qle_bool_iff in E. split; [exact E|apply Qle_refl].
      - split; [apply Qle_refl|].
        apply Qlt_le_weak, Qnot_le_lt. intro H.
        apply Qle_bool_iff in H. congruence. }
    split; [eapply Qle_trans; [|exact H1]; tauto|].
    constructor; [eapply Qle_trans; [|exact H1]; tauto|exact H2].
Qed.

Lemma default_ati_range_covers (dp : list row) (lo hi : Q) :
  default_ati_range dp = Some (lo, hi) ->
  Forall (fun r => (lo <= avg_ATI r /\ avg_ATI r <= hi)%Q) dp.
Proof.
  unfold default_ati_range. destruct dp as [|r dp]; [discriminate|].
  simpl. intro H. injection H as <- <-.
  destruct (fold_Qmin_le (map avg_ATI dp) (avg_ATI r)) as [L1 L2].
  destruct (fold_Qmax_ge (map avg_ATI dp) (avg_ATI r)) as [U1 U2].
  constructor; [tauto|].
  rewrite Forall_map in L2, U2.
  apply Forall_forall. intros x Hx.
  rewrite Forall_forall in L2, U2. split; auto.
Qed.

(** X1.  With the widgets as the sidebar starts them ("All States"
    selected, the slider from the smallest to the largest [avg_ATI] of the
    table, the anomaly box unchecked) the filter keeps every row of the
    table; such a starting range exists only for a table that is not empty,
    and its lower end is at most its upper end. *)
Theorem default_widgets_keep_table :
  forall (dp : list row) (rng : Q * Q),
    default_ati_range dp = Some rng ->
    filtered_data dp default_selected_states rng default_show_anomalies = dp
    /\ dp <> []
    /\ (fst rng <= snd rng)%Q
    /\ default_ati_range [] = None.
Proof.
  intros dp [lo hi] H.
  pose proof (default_ati_range_covers _ H) as Hall.
  split.
  { rewrite FilterFacts.filtered_data_filter. apply filter_all.
    eapply Forall_impl; [|exact Hall].
    intros r Hr. unfold keeps. simpl.
    rewrite andb_true_r. now apply FilterFacts.in_ati_range_iff. }
  split.
  { intros ->. discriminate. }
  split; [|reflexivity].
  destruct dp as [|r dp]; [discriminate|].
  inversion Hall as [|? ? [H1 H2] _]; subst. simpl.
  now apply Qle_trans with (avg_ATI r).
Qed.

(** The table [two_districts], whose [avg_ATI] goes from 1/2 to 3/4. *)
Lemma default_widgets_keep_table_witness :
  default_ati_range two_districts = Some ((1 # 2)%Q, (3 # 4)%Q)
  /\ filtered_data two_districts default_selected_states ((1 # 2)%Q, (3 # 4)%Q)
                   default_show_anomalies
     = two_districts.
Proof.
  assert (H : default_ati_range two_districts = Some ((1 # 2)%Q, (3 # 4)%Q))
    by reflexivity.
  split; [exact H|].
  exact (proj1 (default_widgets_keep_table two_districts H)).
Defined.

Lemma subseq_filter_impl {A : Type} (p q : A -> bool) (l : list A) :
  (forall x, In x l -> p x = true -> q x = true) ->
  subseq (filter p l) (filter q l).
Proof.
  induction l as [|x l IH]; intro H; simpl; [constructor|].
  assert (IH' : subseq (filter p l) (filter q l)).
  { apply IH. intros y Hy. apply H. now right. }
  destruct (p x) eqn:Ep.
  - rewrite (H x (or_introl eq_refl) Ep). now constructor.
  - destruct (q x); [now constructor|exact IH'].
Qed.

(** X2.  Narrowing the widgets narrows the result: when the new selection
    of states is contained in the old one (or the old one was unrestricted),
    the new range lies inside the old one and the anomaly box is not
    unchecked, the new filtered table is a subsequence of the old one.
    Filtering a filtered table again with the same widgets changes
    nothing. *)
Theorem filter_narrows :
  forall (dp : list row) (sel sel' : list string) (lo hi lo' hi' : Q)
         (anom anom' : bool),
    (unrestricted sel = true
     \/ (unrestricted sel' = false /\ forall s, In s sel' -> In s sel)) ->
    (lo <= lo')%Q -> (hi' <= hi)%Q ->
    (anom = true -> anom' = true) ->
    subseq (filtered_data dp sel' (lo', hi') anom')
           (filtered_data dp sel (lo, hi) anom)
    /\ filtered_data (filtered_data dp sel (lo, hi) anom) sel (lo, hi) anom
       = filtered_data dp sel (lo, hi) anom.
Proof.
  intros dp sel sel' lo hi lo' hi' anom anom' Hsel Hlo Hhi Hanom.
  rewrite !FilterFacts.filtered_data_filter. split.
  - apply subseq_filter_impl. intros r _ Hr.
    unfold keeps in *.
    apply andb_true_iff in Hr. destruct Hr as [Hr Ha].
    apply andb_true_iff in Hr. destruct Hr as [Hs Hrng].
    apply FilterFacts.in_ati_range_iff in Hrng. destruct Hrng as [R1 R2].
    apply andb_true_iff. split; [apply andb_true_iff; split|].
    + destruct Hsel as [-> | [Hu Hin]]; [reflexivity|].
      rewrite Hu in Hs. simpl in Hs. apply isin_In in Hs.
      apply orb_true_iff. right. apply isin_In. auto.
    + apply FilterFacts.in_ati_range_iff. split.
      * now apply Qle_trans with lo'.
      * now apply Qle_trans with hi'.
    + destruct anom; [|reflexivity].
      rewrite (Hanom eq_refl) in Ha. exact Ha.
  - rewrite filter_filter. apply filter_ext. intro r.
    now destruct (keeps sel (lo, hi) anom r).
Qed.

(** Two selections on [two_districts]. *)
Lemma filter_narrows_witness :
  subseq (filtered_data two_districts ["Goa"%string] ((1 # 2)%Q, (3 # 4)%Q) true)
         (filtered_data two_districts ["All States"%string] (0%Q, 1%Q) false).
Proof.
  refine (proj1 (@filter_narrows two_districts ["All States"%string] ["Goa"%string]
                   0%Q 1%Q (1 # 2)%Q (3 # 4)%Q false true _ _ _ _)).
  - left. reflexivity.
  - apply Qle_bool_iff. reflexivity.
  - apply Qle_bool_iff. reflexivity.
  - discriminate.
Defined.

End SidebarFacts.

(** ** The metric row *)

Module MetricsFacts.
Import DistrictProfile Filter F64 F64Facts Metrics.

Lemma anomaly_count_bounds (l : list row) :
  (0 <= anomaly_count l <= len l)%Z.
Proof.
  unfold len. induction l as [|r l IH]; simpl anomaly_count; [simpl; lia|].
  rewrite length_cons. destruct (is_anomaly r); lia.
Qed.

Lemma anomaly_count_all (l : list row) :
  Forall (fun r => is_anomaly r = true) l -> anomaly_count l = len l.
Proof.
  unfold len. induction 1 as [|r l Hr _ IH]; [reflexivity|].
  simpl anomaly_count. rewrite Hr, IH, length_cons. lia.
Qed.

Lemma anomaly_count_subseq (s l : list row) :
  subseq s l -> (anomaly_count s <= anomaly_count l)%Z.
Proof.
  induction 1 as [|x s l _ IH|x s l _ IH]; simpl; [lia| |].
  - destruct (is_anomaly x); lia.
  - destruct (is_anomaly x); lia.
Qed.

Lemma len_positive (l : list row) : l <> [] -> (0 < len l)%Z.
Proof. destruct l; [contradiction|]. intros _. unfold len. simpl. lia. Qed.

Local Open Scope R_scope.

(** X3.  The share of anomalies under the fourth metric never raises: on an
    empty filtered table it is [NaN] (the quotient 0/0 of NumPy), on any
    other it is [anomaly_count / len * 100], a number from 0 to 100.  With
    the anomaly box checked every row of the filtered table is an anomaly,
    so the count is the number of rows and the share is 100. *)
Theorem anomaly_share_range :
  forall (dp : list row) (sel : list string) (rng : Q * Q) (anom : bool),
    let fd := filtered_data dp sel rng anom in
    (fd = [] -> anomaly_share fd = NaN)
    /\ (fd <> [] ->
        anomaly_share fd = Fin (IZR (anomaly_count fd) / IZR (len fd) * 100)
        /\ 0 <= IZR (anomaly_count fd) / IZR (len fd) * 100 <= 100)
    /\ (anom = true ->
        anomaly_count fd = len fd
        /\ (fd <> [] -> anomaly_share fd = Fin 100)).
Proof.
  intros dp sel rng anom fd.
  assert (Hshare : fd <> [] ->
            anomaly_share fd = Fin (IZR (anomaly_count fd) / IZR (len fd) * 100)).
  { intro Hne. unfold anomaly_share, of_int.
    pose proof (len_positive Hne) as Hlen. apply IZR_lt in Hlen.
    rewrite div_fin by lra. reflexivity. }
  split.
  { intro E. rewrite E.
    change (mul (div (Fin 0) (Fin 0)) (Fin 100) = NaN).
    rewrite div_zero, Rsign_zero by reflexivity. reflexivity. }
  split.
  { intro Hne. split; [now apply Hshare|].
    pose proof (len_positive Hne) as Hlen.
    pose proof (anomaly_count_bounds fd) as [H0 H1].
    apply IZR_lt in Hlen. apply IZR_le in H0, H1.
    assert (Hq : 0 <= IZR (anomaly_count fd) / IZR (len fd) <= 1).
    { split.
      - apply Rmult_le_pos; [exact H0|]. left. now apply Rinv_0_lt_compat.
      - apply Rmult_le_reg_r with (IZR (len fd)); [exact Hlen|].
        unfold Rdiv. rewrite Rmult_assoc, Rinv_l by lra. lra. }
    lra. }
  intros ->.
  assert (Hall : anomaly_count fd = len fd).
  { apply anomaly_count_all. apply Forall_forall. intros r Hr.
    subst fd. change (filtered_data dp sel rng true)
      with (filter is_anomaly (filtered_data dp sel rng false)) in Hr.
    now apply filter_In in Hr. }
  split; [exact Hall|].
  intro Hne. rewrite (Hshare Hne), Hall.
  pose proof (len_positive Hne) as Hlen. apply IZR_lt in Hlen.
  f_equal. field. lra.
Qed.

(** The two districts, with the anomaly box checked. *)
Lemma anomaly_share_range_witness :
  filtered_data two_districts ["All States"%string] (0%Q, 1%Q) true <> []
  /\ anomaly_share (filtered_data two_districts ["All States"%string] (0%Q, 1%Q) true)
     = Fin 100.
Proof.
  assert (Hne : filtered_data two_districts ["All States"%string] (0%Q, 1%Q) true <> [])
    by discriminate.
  split; [exact Hne|].
  destruct (anomaly_share_range two_districts ["All States"%string] (0%Q, 1%Q) true)
    as (_ & _ & H).
  exact (proj2 (H eq_refl) Hne).
Defined.

(** X4.  The number of anomalies of the filtered table (line 109) never
    exceeds the number of anomalies of the whole table shown in the footer
    (line 612), and the two agree with "All States" selected and a range
    that covers every row of the table, whether the anomaly box is checked
    or not. *)
Theorem anomaly_count_at_most_total :
  forall (dp : list row) (sel : list string) (lo hi : Q) (anom : bool),
    (anomaly_count (filtered_data dp sel (lo, hi) anom) <= anomaly_count dp)%Z
    /\ (unrestricted sel = true ->
        Forall (fun r => (lo <= avg_ATI r /\ avg_ATI r <= hi)%Q) dp ->
        anomaly_count (filtered_data dp sel (lo, hi) anom) = anomaly_count dp).
Proof.
  intros dp sel lo hi anom. split.
  - apply anomaly_count_subseq.
    rewrite FilterFacts.filtered_data_filter. apply subseq_filter.
  - intros Hsel Hrng.
    rewrite !AnomalyFacts.anomaly_count_length.
    rewrite FilterFacts.filtered_data_filter, filter_filter.
    f_equal. f_equal. apply filter_ext_in. intros r Hr.
    rewrite Forall_forall in Hrng.
    unfold keeps. rewrite Hsel.
    rewrite (proj2 (FilterFacts.in_ati_range_iff lo hi r) (Hrng r Hr)).
    simpl. destruct anom, (is_anomaly r); reflexivity.
Qed.

(** The two districts, one of which is an anomaly. *)
Lemma anomaly_count_at_most_total_witness :
  anomaly_count (filtered_data two_districts ["All States"%string]
                               ((1 # 2)%Q, (3 # 4)%Q) true)
  = anomaly_count two_districts.
Proof.
  refine (proj2 (anomaly_count_at_most_total two_districts ["All States"%string]
                   (1 # 2)%Q (3 # 4)%Q true) eq_refl _).
  repeat constructor; simpl; apply Qle_bool_iff; reflexivity.
Defined.

Lemma ati_sum_bounds (l : list row) (lo hi : Q) :
  Forall (fun r => (lo <= avg_ATI r /\ avg_ATI r <= hi)%Q) l ->
  IZR (len l) * Q2R lo <= ati_sum l <= IZR (len l) * Q2R hi.
Proof.
  unfold len. induction 1 as [|r l [H1 H2] _ IH].
  - simpl. lra.
  - apply Qle_Rle in H1, H2.
    rewrite length_cons, Nat2Z.inj_succ, succ_IZR. simpl ati_sum. lra.
Qed.

(** X5.  The average [avg_ATI] of the filtered table (line 108) is [NaN] on
    an empty table and otherwise a number between the two ends of the
    slider; with the whole table as the filtered table the difference to
    the national average (line 129) is 0 percent, provided that average is
    not zero. *)
Theorem avg_ati_within_slider :
  forall (dp : list row) (sel : list string) (lo hi : Q) (anom : bool),
    let fd := filtered_data dp sel (lo, hi) anom in
    (fd = [] -> avg_ati fd = NaN)
    /\ (fd <> [] ->
        exists x, avg_ati fd = Fin x /\ Q2R lo <= x <= Q2R hi)
    /\ (forall x, avg_ati dp = Fin x -> x <> 0 -> vs_national dp dp = Fin 0).
Proof.
  intros dp sel lo hi anom fd.
  split.
  { intros ->. change (div (Fin 0) (Fin 0) = NaN).
    rewrite div_zero, Rsign_zero by reflexivity. reflexivity. }
  split.
  { intro Hne.
    pose proof (len_positive Hne) as Hlen. apply IZR_lt in Hlen.
    assert (Hrng : Forall (fun r => (lo <= avg_ATI r /\ avg_ATI r <= hi)%Q) fd).
    { apply Forall_forall. intros r Hr. subst fd.
      rewrite FilterFacts.filtered_data_filter in Hr.
      apply filter_In in Hr. destruct Hr as [_ Hk].
      unfold keeps in Hk. apply andb_true_iff in Hk. destruct Hk as [Hk _].
      apply andb_true_iff in Hk. destruct Hk as [_ Hk].
      now apply FilterFacts.in_ati_range_iff in Hk. }
    pose proof (ati_sum_bounds Hrng) as [B1 B2].
    exists (ati_sum fd / IZR (len fd)). split.
    - unfold avg_ati, of_int. now rewrite div_fin by lra.
    - split.
      + apply Rmult_le_reg_r with (IZR (len fd)); [exact Hlen|].
        unfold Rdiv. rewrite Rmult_assoc, Rinv_l by lra. lra.
      + apply Rmult_le_reg_r with (IZR (len fd)); [exact Hlen|].
        unfold Rdiv. rewrite Rmult_assoc, Rinv_l by lra. lra. }
  intros x Hx Hnz. unfold vs_national. rewrite Hx.
  rewrite div_fin by exact Hnz. simpl. f_equal. field. exact Hnz.
Qed.

(** The two districts: their average is 5/8. *)
Lemma avg_ati_within_slider_witness :
  exists x,
    avg_ati (filtered_data two_districts ["All States"%string] (0%Q, 1%Q) false) = Fin x
    /\ Q2R 0 <= x <= Q2R 1.
Proof.
  destruct (avg_ati_within_slider two_districts ["All States"%string] 0%Q 1%Q false)
    as (_ & H & _).
  apply H. discriminate.
Defined.

End MetricsFacts.

(** ** The table of anomalous districts *)

Module AnomaliesFacts.
Import DistrictProfile Filter Anomalies.

Lemma In_firstn_In {A : Type} (n : nat) (l : list A) (x : A) :
  In x (firstn n l) -> In x l.
Proof.
  intro H. rewrite <- (firstn_skipn n l). apply in_or_app. now left.
Qed.

Lemma In_nlargest {A : Type} (key : A -> Q) (n : nat) (l : list A) (x : A) :
  In x (nlargest key n l) -> In x l.
Proof.
  intro H. apply In_firstn_In in H.
  eapply Permutation_in; [apply sort_desc_perm|exact H].
Qed.

Lemma nlargest_length {A : Type} (key : A -> Q) (n : nat) (l : list A) :
  List.length (nlargest key n l) = Nat.min n (List.length l).
Proof.
  unfold nlargest. rewrite length_firstn. f_equal.
  apply Permutation_length, sort_desc_perm.
Qed.

Lemma filter_idem {A : Type} (p : A -> bool) (l : list A) :
  filter p (filter p l) = filter p l.
Proof.
  rewrite filter_filter. apply filter_ext. intro x. now destruct (p x).
Qed.

(** X6.  The table of anomalous districts holds the anomalies of the
    filtered table with the largest [avg_ATI], at most 20 of them, all of
    them rows of the filtered table with the flag [-1]; the 10 rows shown
    are absent (the message "No anomalies detected" is shown) exactly when
    the anomaly count is 0; and the table is the same whether the anomaly
    box of the sidebar is checked or not. *)
Theorem anomalies_of_filtered :
  forall (dp : list row) (sel : list string) (rng : Q * Q) (anom : bool),
    let fd := filtered_data dp sel rng anom in
    List.length (anomalies fd) = Nat.min 20 (Z.to_nat (anomaly_count fd))
    /\ Forall (fun r => In r fd /\ anomaly_flag r = (-1)%Z) (anomalies fd)
    /\ (anomalies_table fd = None <-> anomaly_count fd = 0%Z)
    /\ (forall rows, anomalies_table fd = Some rows ->
          (List.length rows <= 10)%nat /\ rows <> [])
    /\ anomalies (filtered_data dp sel rng true)
       = anomalies (filtered_data dp sel rng false).
Proof.
  intros dp sel rng anom fd.
  assert (Hlen : List.length (anomalies fd) = Nat.min 20 (Z.to_nat (anomaly_count fd))).
  { unfold anomalies. rewrite nlargest_length.
    now rewrite AnomalyFacts.anomaly_count_length, Nat2Z.id. }
  split; [exact Hlen|].
  split.
  { apply Forall_forall. intros r Hr. unfold anomalies in Hr.
    apply In_nlargest in Hr. apply filter_In in Hr. destruct Hr as [Hin Ha].
    split; [exact Hin|now apply AnomalyFacts.is_anomaly_iff]. }
  split.
  { unfold anomalies_table.
    pose proof (MetricsFacts.anomaly_count_bounds fd) as [H0 _].
    destruct (anomalies fd) as [|r rows]; cbn [List.length] in Hlen; split; intro H;
      try reflexivity; try discriminate; lia. }
  split.
  { intros rows. unfold anomalies_table.
    destruct (anomalies fd) as [|r l] eqn:E; [discriminate|].
    intro H. assert (Hrows : rows = firstn 10 (r :: l)) by congruence.
    subst rows. split; [apply firstn_le_length|simpl; discriminate]. }
  unfold anomalies.
  change (filtered_data dp sel rng true)
    with (filter is_anomaly (filtered_data dp sel rng false)).
  now rewrite filter_idem.
Qed.

End AnomaliesFacts.

(** ** The comparison of districts *)

Module CompareFacts.
Import DistrictProfile Filter Compare.

Lemma options_In (fd : list row) (d : string) :
  In d (options fd) <-> In d (map district fd).
Proof.
  unfold options, Sidebar.unique. rewrite SidebarFacts.unique_from_In.
  simpl. tauto.
Qed.

Lemma filter_find {A : Type} (p : A -> bool) (l : list A) :
  match find p l with
  | Some x => exists rest, filter p l = x :: rest
  | None => filter p l = []
  end.
Proof.
  induction l as [|x l IH]; simpl; [reflexivity|].
  destruct (p x); [eauto|exact IH].
Qed.

Lemma find_none_not_in (fd : list row) (d : string) :
  find (fun r => String.eqb (district r) d) fd = None <-> ~ In d (map district fd).
Proof.
  split.
  - intros H Hin. apply in_map_iff in Hin. destruct Hin as (r & <- & Hr).
    apply (find_none _ _ H) in Hr. rewrite String.eqb_refl in Hr. discriminate.
  - intro H. destruct (find _ fd) as [r|] eqn:E; [|reflexivity].
    apply find_some in E. destruct E as [Hr E]. apply String.eqb_eq in E.
    exfalso. apply H. subst d. now apply in_map.
Qed.

Lemma comparison_data_rows (fd : list row) (compare : list string) (d : string) :
  In d compare ->
  filter (fun r => String.eqb (district r) d)
         (filter (fun r => isin (district r) compare) fd)
  = filter (fun r => String.eqb (district r) d) fd.
Proof.
  intro Hd. rewrite filter_filter. apply filter_ext. intro r.
  destruct (String.eqb (district r) d) eqn:E; [|apply andb_false_r].
  apply String.eqb_eq in E. subst d.
  rewrite (proj2 (SidebarFacts.isin_In _ _) Hd). reflexivity.
Qed.

Lemma district_bars_found (fd : list row) (compare : list string) (d : string) (r : row) :
  In d compare ->
  find (fun r => String.eqb (district r) d) fd = Some r ->
  district_bars (filter (fun r => isin (district r) compare) fd) d
  = Ok (total_5_17 r, total_17_plus r).
Proof.
  intros Hd Hf. unfold district_bars. rewrite comparison_data_rows by exact Hd.
  pose proof (filter_find (fun r => String.eqb (district r) d) fd) as H.
  rewrite Hf in H. destruct H as (rest & ->). reflexivity.
Qed.

Lemma district_bars_missing (fd : list row) (compare : list string) (d : string) :
  In d compare ->
  find (fun r => String.eqb (district r) d) fd = None ->
  district_bars (filter (fun r => isin (district r) compare) fd) d = Raise IndexError.
Proof.
  intros Hd Hf. unfold district_bars. rewrite comparison_data_rows by exact Hd.
  pose proof (filter_find (fun r => String.eqb (district r) d) fd) as H.
  rewrite Hf in H. rewrite H. reflexivity.
Qed.

Lemma traces_ok (fd : list row) (compare ds : list string) :
  (forall d, In d ds -> In d compare) ->
  (forall d, In d ds -> In d (map district fd)) ->
  exists bars,
    traces (filter (fun r => isin (district r) compare) fd) ds = Ok bars
    /\ map fst bars = ds
    /\ forall d a b, In (d, (a, b)) bars ->
         exists r, find (fun r => String.eqb (district r) d) fd = Some r
                   /\ a = total_5_17 r /\ b = total_17_plus r.
Proof.
  induction ds as [|d ds IH]; intros Hc Ho.
  - exists []. simpl. repeat split. contradiction.
  - destruct IH as (bars & Hb & Hm & Hv).
    { intros x Hx. apply Hc. now right. }
    { intros x Hx. apply Ho. now right. }
    destruct (find (fun r => String.eqb (district r) d) fd) as [r|] eqn:Hf.
    + exists ((d, (total_5_17 r, total_17_plus r)) :: bars).
      simpl traces.
      rewrite (@district_bars_found fd compare d r (Hc d (or_introl eq_refl)) Hf), Hb.
      simpl. split; [reflexivity|]. split; [now rewrite Hm|].
      intros d' a b [H|H]; [|now apply Hv].
      inversion H; subst. eauto.
    + apply find_none_not_in in Hf. exfalso. apply Hf, Ho. now left.
Qed.

Lemma traces_missing (fd : list row) (compare ds : list string) (d : string) :
  (forall x, In x ds -> In x compare) ->
  In d ds -> ~ In d (map district fd) ->
  traces (filter (fun r => isin (district r) compare) fd) ds = Raise IndexError.
Proof.
  intros Hc Hd Hn. induction ds as [|x ds IH]; [contradiction|].
  simpl traces.
  destruct (find (fun r => String.eqb (district r) x) fd) as [r|] eqn:Hf.
  - rewrite (@district_bars_found fd compare x r (Hc x (or_introl eq_refl)) Hf). simpl.
    destruct Hd as [->|Hd].
    + apply find_none_not_in in Hn. congruence.
    + rewrite IH; [reflexivity| |exact Hd].
      intros y Hy. apply Hc. now right.
  - now rewrite (@district_bars_missing fd compare x (Hc x (or_introl eq_refl)) Hf).
Qed.

(** X7.  The options of the comparison are the district names of the
    filtered table, each once.  For any
    choice among them the comparison draws one pair of bars per chosen
    district, in the order chosen, from the first row of the filtered table
    with that name, and nothing is raised; a name that is not in the
    filtered table would raise an [IndexError]. *)
Theorem comparison_of_options :
  forall (fd : list row) (compare : list string),
    NoDup (options fd)
    /\ (forall d, In d (options fd) <-> In d (map district fd))
    /\ ((forall d, In d compare -> In d (options fd)) ->
        exists bars,
          comparison fd compare = Ok bars
          /\ map fst bars = compare
          /\ forall d a b, In (d, (a, b)) bars ->
               exists r, find (fun r => String.eqb (district r) d) fd = Some r
                         /\ a = total_5_17 r /\ b = total_17_plus r)
    /\ (forall d, In d compare -> ~ In d (map district fd) ->
        comparison fd compare = Raise IndexError).
Proof.
  intros fd compare.
  split; [apply SidebarFacts.unique_from_NoDup|].
  split; [apply options_In|].
  split.
  - intro H. unfold comparison. destruct compare as [|c cs].
    + exists []. simpl. repeat split. contradiction.
    + apply traces_ok; [auto|]. intros d Hd. now apply options_In, H.
  - intros d Hd Hn. unfold comparison. destruct compare as [|c cs]; [contradiction|].
    eapply traces_missing; eauto.
Qed.

(** The two districts, chosen in the reverse order. *)
Lemma comparison_of_options_witness :
  options two_districts = ["Idukki"%string; "North Goa"%string]
  /\ comparison two_districts ["North Goa"%string; "Idukki"%string]
     = Ok [("North Goa"%string, (5, 8)%Z); ("Idukki"%string, (10, 20)%Z)].
Proof.
  split; [reflexivity|].
  destruct (comparison_of_options two_districts ["North Goa"%string; "Idukki"%string])
    as (_ & _ & H & _).
  destruct H as (bars & Hb & _).
  - intros d [<-|[<-|[]]]; simpl; tauto.
  - rewrite Hb. revert Hb. vm_compute. intro Hb. injection Hb as <-. reflexivity.
Defined.

End CompareFacts.

(** ** The yearly totals add up *)

Module YearlyTotals.
Import TimeTrends Int64 Yearly YearlyFacts YearlyColumns.
Local Open Scope Z_scope.

Lemma wrap64_add_r (a b : Z) : wrap64 (a + wrap64 b) = wrap64 (a + b).
Proof. rewrite Z.add_comm, wrap64_add_l. f_equal. lia. Qed.

Lemma wrap64_idem (a : Z) : wrap64 (wrap64 a) = wrap64 a.
Proof.
  pose proof (wrap64_add_l a 0) as H. now rewrite !Z.add_0_r in H.
Qed.

Lemma group_add_firsts (r : row) (g : list group) :
  wrap64 (exact_sum (firsts (group_add r g)))
  = wrap64 (exact_sum (firsts g) + total_5_17 r).
Proof.
  unfold firsts, exact_sum.
  induction g as [|[y [a b]] rest IH]; simpl.
  - rewrite Z.add_0_r. apply wrap64_idem.
  - destruct (year r <? y); [|destruct (year r =? y)]; simpl.
    + rewrite wrap64_add_l. f_equal. lia.
    + rewrite wrap64_add_l. f_equal. lia.
    + rewrite <- wrap64_add_r, IH, wrap64_add_r. f_equal. lia.
Qed.

Lemma group_add_seconds (r : row) (g : list group) :
  wrap64 (exact_sum (seconds (group_add r g)))
  = wrap64 (exact_sum (seconds g) + total_17_plus r).
Proof.
  unfold seconds, exact_sum.
  induction g as [|[y [a b]] rest IH]; simpl.
  - rewrite Z.add_0_r. apply wrap64_idem.
  - destruct (year r <? y); [|destruct (year r =? y)]; simpl.
    + rewrite wrap64_add_l. f_equal. lia.
    + rewrite wrap64_add_l. f_equal. lia.
    + rewrite <- wrap64_add_r, IH, wrap64_add_r. f_equal. lia.
Qed.

Lemma exact_sum_snoc (l : list Z) (x : Z) : exact_sum (l ++ [x]) = exact_sum l + x.
Proof. unfold exact_sum. induction l as [|y l IH]; simpl; lia. Qed.

Lemma groupby_firsts (tt : list row) :
  wrap64 (exact_sum (firsts (groupby_year_sum tt)))
  = wrap64 (exact_sum (map total_5_17 tt)).
Proof.
  induction tt as [|r tt IH] using rev_ind; [reflexivity|].
  rewrite groupby_snoc, group_add_firsts, map_app.
  simpl (map _ [r]). rewrite exact_sum_snoc.
  rewrite <- wrap64_add_l, IH, wrap64_add_l. reflexivity.
Qed.

Lemma groupby_seconds (tt : list row) :
  wrap64 (exact_sum (seconds (groupby_year_sum tt)))
  = wrap64 (exact_sum (map total_17_plus tt)).
Proof.
  induction tt as [|r tt IH] using rev_ind; [reflexivity|].
  rewrite groupby_snoc, group_add_seconds, map_app.
  simpl (map _ [r]). rewrite exact_sum_snoc.
  rewrite <- wrap64_add_l, IH, wrap64_add_l. reflexivity.
Qed.

Lemma yearly_totals_columns (tt : list row) :
  map yr_total_5_17 (yearly_growth tt) = firsts (groupby_year_sum tt)
  /\ map yr_total_17_plus (yearly_growth tt) = seconds (groupby_year_sum tt).
Proof.
  rewrite <- yearly_growth_groups. unfold firsts, seconds.
  rewrite !map_map. split; reflexivity.
Qed.

(** Without overflow: the groups hold exact, non-negative totals. *)
Lemma group_add_exact (r : row) (g : list group) :
  Forall (fun v => 0 <= v) (firsts g) -> Forall (fun v => 0 <= v) (seconds g) ->
  0 <= total_5_17 r -> 0 <= total_17_plus r ->
  exact_sum (firsts g) + total_5_17 r < 2 ^ 63 ->
  exact_sum (seconds g) + total_17_plus r < 2 ^ 63 ->
  Forall (fun v => 0 <= v) (firsts (group_add r g))
  /\ Forall (fun v => 0 <= v) (seconds (group_add r g))
  /\ exact_sum (firsts (group_add r g)) = exact_sum (firsts g) + total_5_17 r
  /\ exact_sum (seconds (group_add r g)) = exact_sum (seconds g) + total_17_plus r.
Proof.
  unfold firsts, seconds, exact_sum.
  induction g as [|[y [a b]] rest IH]; simpl; intros F1 F2 H5 H17 B5 B17.
  - rewrite !wrap64_in_range by (unfold in_range; lia).
    repeat split; try (repeat constructor; assumption); lia.
  - inversion F1 as [|? ? Ha F1']; inversion F2 as [|? ? Hb F2']; subst.
    assert (S1 : 0 <= fold_right Z.add 0 (map (fun g => fst (snd g)) rest)).
    { clear -F1'. induction F1'; simpl; lia. }
    assert (S2 : 0 <= fold_right Z.add 0 (map (fun g => snd (snd g)) rest)).
    { clear -F2'. induction F2'; simpl; lia. }
    destruct (year r <? y); [|destruct (year r =? y)]; simpl.
    + rewrite !wrap64_in_range by (unfold in_range; lia).
      repeat split; try (repeat constructor; assumption); lia.
    + rewrite !wrap64_in_range by (unfold in_range; lia).
      repeat split; try (constructor; [lia|assumption]); lia.
    + destruct IH as (I1 & I2 & I3 & I4); try assumption; try lia.
      repeat split; try (constructor; assumption); lia.
Qed.

Lemma exact_sum_nonneg (l : list Z) : Forall (fun v => 0 <= v) l -> 0 <= exact_sum l.
Proof. unfold exact_sum. induction 1; simpl; lia. Qed.

Lemma groupby_exact (tt : list row) :
  Forall (fun r => 0 <= total_5_17 r /\ 0 <= total_17_plus r) tt ->
  exact_sum (map total_5_17 tt) < 2 ^ 63 ->
  exact_sum (map total_17_plus tt) < 2 ^ 63 ->
  Forall (fun v => 0 <= v) (firsts (groupby_year_sum tt))
  /\ Forall (fun v => 0 <= v) (seconds (groupby_year_sum tt))
  /\ exact_sum (firsts (groupby_year_sum tt)) = exact_sum (map total_5_17 tt)
  /\ exact_sum (seconds (groupby_year_sum tt)) = exact_sum (map total_17_plus tt).
Proof.
  induction tt as [|r tt IH] using rev_ind; intros Hpos B5 B17.
  - repeat split; constructor.
  - apply Forall_app in Hpos. destruct Hpos as [Hpos Hr].
    inversion Hr as [|? ? [H5 H17] _]; subst.
    rewrite !map_app in *. simpl (map _ [r]) in *. rewrite !exact_sum_snoc in *.
    destruct IH as (I1 & I2 & I3 & I4); try assumption; try lia.
    rewrite groupby_snoc.
    destruct (@group_add_exact r (groupby_year_sum tt)) as (G1 & G2 & G3 & G4);
      try assumption; try lia.
    repeat split; try assumption; simpl; lia.
Qed.

(** X8.  Grouping by year loses nothing: the yearly totals of
    [yearly_growth] add up, in 64-bit arithmetic, to the total of the column
    over the whole series; and when the counts of the series are
    non-negative and their totals fit in 64 bits, every yearly total is
    non-negative and the yearly totals add up exactly to the totals of the
    series. *)
Theorem yearly_totals_add_up :
  forall tt : list row,
    Int64.sum (map yr_total_5_17 (yearly_growth tt)) = Int64.sum (map total_5_17 tt)
    /\ Int64.sum (map yr_total_17_plus (yearly_growth tt))
       = Int64.sum (map total_17_plus tt)
    /\ (Forall (fun r => 0 <= total_5_17 r /\ 0 <= total_17_plus r) tt ->
        exact_sum (map total_5_17 tt) < 2 ^ 63 ->
        exact_sum (map total_17_plus tt) < 2 ^ 63 ->
        Forall (fun r => 0 <= yr_total_5_17 r /\ 0 <= yr_total_17_plus r)
               (yearly_growth tt)
        /\ exact_sum (map yr_total_5_17 (yearly_growth tt))
           = exact_sum (map total_5_17 tt)
        /\ exact_sum (map yr_total_17_plus (yearly_growth tt))
           = exact_sum (map total_17_plus tt)).
Proof.
  intro tt. destruct (yearly_totals_columns tt) as [C1 C2].
  rewrite C1, C2, !sum_wrap.
  split; [apply groupby_firsts|]. split; [apply groupby_seconds|].
  intros Hpos B5 B17.
  destruct (groupby_exact Hpos B5 B17) as (G1 & G2 & G3 & G4).
  split; [|split; assumption].
  rewrite <- C1 in G1. rewrite <- C2 in G2.
  rewrite Forall_map in G1, G2.
  apply Forall_forall. intros r Hr.
  rewrite Forall_forall in G1, G2. auto.
Qed.

(** The three years of the example: 370 and 111 updates in all. *)
Lemma yearly_totals_add_up_witness :
  exact_sum (map yr_total_5_17 (yearly_growth three_years)) = 370
  /\ exact_sum (map yr_total_17_plus (yearly_growth three_years)) = 111.
Proof.
  destruct (yearly_totals_add_up three_years) as (_ & _ & H).
  destruct H as (_ & H5 & H17).
  - repeat constructor; simpl; lia.
  - vm_compute. reflexivity.
  - vm_compute. reflexivity.
  - rewrite H5, H17. split; reflexivity.
Defined.

End YearlyTotals.

(** ** Grouping by an integer key *)

Section GroupByFacts.
Variables Row V : Type.
Variable key : Row -> Z.
Variable init : Row -> V.
Variable step : V -> Row -> V.

Local Open Scope Z_scope.

Lemma gb_snoc (rows : list Row) (r : Row) : gb key init step (rows ++ [r]) = gb_add key init step r (gb key init step rows).
Proof. unfold gb. now rewrite fold_left_app. Qed.

Lemma gb_add_keys (r : Row) (g : list (Z * V)) (k : Z) :
  In k (map fst (gb_add key init step r g)) <-> k = key r \/ In k (map fst g).
Proof.
  induction g as [|[y v] rest IH]; simpl.
  - intuition congruence.
  - destruct (key r <? y) eqn:E1; [simpl; intuition congruence|].
    destruct (key r =? y) eqn:E2; simpl.
    + apply Z.eqb_eq in E2. intuition congruence.
    + rewrite IH. intuition congruence.
Qed.

Lemma gb_add_sorted (r : Row) (g : list (Z * V)) :
  StronglySorted Z.lt (map fst g) -> StronglySorted Z.lt (map fst (gb_add key init step r g)).
Proof.
  induction g as [|[y v] rest IH]; simpl; intro Hs.
  - repeat constructor.
  - inversion Hs as [|? ? Hs' Hall]; subst.
    destruct (key r <? y) eqn:E1.
    + apply Z.ltb_lt in E1. simpl.
      constructor; [exact Hs|].
      constructor; [exact E1|].
      eapply Forall_impl; [|exact Hall]. simpl. intros; lia.
    + destruct (key r =? y) eqn:E2; simpl.
      * now constructor.
      * apply Z.ltb_ge in E1. apply Z.eqb_neq in E2.
        constructor; [now apply IH|].
        apply Forall_forall. intros k Hk.
        apply gb_add_keys in Hk. destruct Hk as [->|Hk]; [lia|].
        rewrite Forall_forall in Hall. now apply Hall.
Qed.

Lemma gb_sorted (rows : list Row) : StronglySorted Z.lt (map fst (gb key init step rows)).
Proof.
  induction rows as [|r rows IH] using rev_ind.
  - constructor.
  - rewrite gb_snoc. now apply gb_add_sorted.
Qed.

Lemma gb_lookup_below (k k0 : Z) (v : V) (rest : list (Z * V)) :
  StronglySorted Z.lt (map fst ((k0, v) :: rest)) -> k < k0 ->
  gb_lookup k ((k0, v) :: rest) = None.
Proof.
  simpl. intros Hs Hlt.
  inversion Hs as [|? ? _ Hall]; subst.
  destruct (k =? k0) eqn:E; [apply Z.eqb_eq in E; lia|].
  clear Hs E. induction rest as [|[k1 v1] rest IH]; simpl; [reflexivity|].
  inversion Hall as [|? ? H1 Hall']; subst. simpl in H1.
  destruct (k =? k1) eqn:E; [apply Z.eqb_eq in E; lia|].
  now apply IH.
Qed.

Lemma gb_lookup_add (r : Row) (g : list (Z * V)) (k : Z) :
  StronglySorted Z.lt (map fst g) ->
  gb_lookup k (gb_add key init step r g)
  = if k =? key r
    then Some (match gb_lookup k g with Some v => step v r | None => init r end)
    else gb_lookup k g.
Proof.
  induction g as [|[k0 v0] rest IH]; intro Hs.
  - simpl. now destruct (k =? key r).
  - unfold gb_add; fold (gb_add key init step).
    destruct (key r <? k0) eqn:E1.
    + apply Z.ltb_lt in E1.
      change (gb_lookup k ((key r, init r) :: (k0, v0) :: rest))
        with (if k =? key r then Some (init r)
              else gb_lookup k ((k0, v0) :: rest)).
      destruct (k =? key r) eqn:E; [|reflexivity].
      apply Z.eqb_eq in E; subst k.
      now rewrite (gb_lookup_below Hs E1).
    + destruct (key r =? k0) eqn:E2.
      * apply Z.eqb_eq in E2; subst k0. simpl.
        destruct (k =? key r); reflexivity.
      * apply Z.ltb_ge in E1. apply Z.eqb_neq in E2. simpl.
        destruct (k =? k0) eqn:E3.
        -- apply Z.eqb_eq in E3; subst k0.
           destruct (k =? key r) eqn:E4; [apply Z.eqb_eq in E4; lia|reflexivity].
        -- apply IH. simpl in Hs. now inversion Hs.
Qed.

Lemma gb_acc_snoc (rows : list Row) (r : Row) :
  gb_acc init step (rows ++ [r])
  = Some (match gb_acc init step rows with Some v => step v r | None => init r end).
Proof.
  destruct rows as [|x rows]; [reflexivity|].
  simpl. now rewrite fold_left_app.
Qed.

(** The accumulator of a key is the one its rows give, in their order; a
    key without rows has no group. *)
Lemma gb_lookup_rows (rows : list Row) (k : Z) :
  gb_lookup k (gb key init step rows) = gb_acc init step (gb_rows key k rows).
Proof.
  induction rows as [|r rows IH] using rev_ind; [reflexivity|].
  rewrite gb_snoc, gb_lookup_add by apply gb_sorted.
  unfold gb_rows. rewrite filter_app. simpl.
  rewrite (Z.eqb_sym k). destruct (key r =? k).
  - rewrite gb_acc_snoc, IH. reflexivity.
  - rewrite app_nil_r. exact IH.
Qed.

Lemma gb_lookup_in (g : list (Z * V)) (k : Z) (v : V) :
  StronglySorted Z.lt (map fst g) -> In (k, v) g -> gb_lookup k g = Some v.
Proof.
  induction g as [|[k0 v0] rest IH]; intros Hs H; [contradiction|].
  destruct H as [H|H].
  - inversion H; subst. simpl. now rewrite Z.eqb_refl.
  - simpl in Hs. inversion Hs as [|? ? Hs' Hall]; subst. simpl.
    destruct (k =? k0) eqn:E; [|now apply IH].
    apply Z.eqb_eq in E; subst k0. exfalso.
    rewrite Forall_forall in Hall.
    specialize (Hall k (in_map fst _ _ H)). simpl in Hall. lia.
Qed.

Lemma gb_lookup_some (g : list (Z * V)) (k : Z) (v : V) :
  gb_lookup k g = Some v -> In (k, v) g.
Proof.
  induction g as [|[k0 v0] rest IH]; simpl; [discriminate|].
  destruct (k =? k0) eqn:E.
  - apply Z.eqb_eq in E. intro H. inversion H; subst. now left.
  - intro H. right. now apply IH.
Qed.

(** The groups are exactly the keys that occur, each with the accumulator
    of its rows. *)
Lemma gb_in (rows : list Row) (k : Z) (v : V) :
  In (k, v) (gb key init step rows) <-> gb_acc init step (gb_rows key k rows) = Some v.
Proof.
  rewrite <- gb_lookup_rows. split.
  - apply gb_lookup_in, gb_sorted.
  - apply gb_lookup_some.
Qed.

Lemma gb_rows_nonempty (rows : list Row) (k : Z) :
  gb_rows key k rows <> [] <-> In k (map key rows).
Proof.
  unfold gb_rows. split.
  - intro H. destruct (filter _ rows) as [|r l] eqn:E; [contradiction|].
    assert (Hr : In r (filter (fun r => key r =? k) rows)) by (rewrite E; now left).
    apply filter_In in Hr. destruct Hr as [Hr Hk].
    apply Z.eqb_eq in Hk. subst k. now apply in_map.
  - intros H E. apply in_map_iff in H. destruct H as (r & Hk & Hr).
    assert (Hin : In r (filter (fun r => key r =? k) rows)).
    { apply filter_In. split; [exact Hr|now apply Z.eqb_eq]. }
    rewrite E in Hin. contradiction.
Qed.

End GroupByFacts.

(** ** Monthly seasonality *)

Module SeasonalityFacts.
Import TimeTrends F64 F64Facts Seasonality.

Lemma acc_fold (l : list row) (a b n : Z) :
  fold_left acc_step l (a, b, n)
  = ((a + Yearly.exact_sum (map total_5_17 l))%Z,
     (b + Yearly.exact_sum (map total_17_plus l))%Z,
     (n + Z.of_nat (List.length l))%Z).
Proof.
  revert a b n. induction l as [|r l IH]; intros a b n.
  - simpl. now rewrite !Z.add_0_r.
  - cbn [fold_left acc_step]. rewrite IH.
    unfold Yearly.exact_sum. rewrite length_cons, Nat2Z.inj_succ.
    cbn [map fold_right]. apply f_equal2; [apply f_equal2|]; lia.
Qed.

Lemma acc_rows (rows : list row) (v : acc) :
  gb_acc acc_init acc_step rows = Some v ->
  rows <> []
  /\ v = (Yearly.exact_sum (map total_5_17 rows),
          Yearly.exact_sum (map total_17_plus rows),
          Z.of_nat (List.length rows)).
Proof.
  destruct rows as [|r rest]; [discriminate|].
  unfold gb_acc, acc_init. rewrite acc_fold. intro H.
  split; [discriminate|].
  match type of H with Some ?x = _ => assert (Hv : v = x) by congruence end.
  subst v.
  unfold Yearly.exact_sum. rewrite length_cons, Nat2Z.inj_succ.
  cbn [map fold_right]. apply f_equal2; [apply f_equal2|]; lia.
Qed.

Lemma monthly_avg_months (tt : list row) :
  map mo_month (monthly_avg tt) = map fst (gb month acc_init acc_step tt).
Proof.
  unfold monthly_avg. rewrite map_map. apply map_ext.
  intros [m [[s5 s17] n]]. reflexivity.
Qed.

Lemma monthly_avg_row (tt : list row) (row : monthly_row) :
  In row (monthly_avg tt) ->
  let rows := month_rows (mo_month row) tt in
  rows <> []
  /\ avg_5_17 row
     = mean (Yearly.exact_sum (map total_5_17 rows)) (Z.of_nat (List.length rows))
  /\ avg_17_plus row
     = mean (Yearly.exact_sum (map total_17_plus rows)) (Z.of_nat (List.length rows)).
Proof.
  unfold monthly_avg. intro H. apply in_map_iff in H.
  destruct H as ([m [[s5 s17] n]] & <- & Hin). simpl.
  apply gb_in in Hin. apply acc_rows in Hin. destruct Hin as [Hne Hv].
  injection Hv as -> -> ->. unfold month_rows. auto.
Qed.

Lemma exact_sum_between (f : row -> Z) (rows : list row) (lo hi : Z) :
  Forall (fun r => (lo <= f r <= hi)%Z) rows ->
  (lo * Z.of_nat (List.length rows) <= Yearly.exact_sum (map f rows)
   <= hi * Z.of_nat (List.length rows))%Z.
Proof.
  unfold Yearly.exact_sum. induction 1 as [|r rows Hr _ IH].
  - simpl. lia.
  - rewrite length_cons, Nat2Z.inj_succ. cbn [map fold_right] in *. lia.
Qed.

Local Open Scope R_scope.

Lemma mean_between (s n lo hi : Z) :
  (0 < n)%Z -> (lo * n <= s <= hi * n)%Z ->
  mean s n = Fin (IZR s / IZR n) /\ IZR lo <= IZR s / IZR n <= IZR hi.
Proof.
  intros Hn [H1 H2].
  apply IZR_lt in Hn. apply IZR_le in H1, H2. rewrite mult_IZR in H1, H2.
  split.
  - unfold mean, of_int. apply div_fin. lra.
  - split.
    + apply Rmult_le_reg_r with (IZR n); [exact Hn|].
      unfold Rdiv. rewrite Rmult_assoc, Rinv_l by lra. lra.
    + apply Rmult_le_reg_r with (IZR n); [exact Hn|].
      unfold Rdiv. rewrite Rmult_assoc, Rinv_l by lra. lra.
Qed.

(** X9.  The seasonality frame has one row per month that occurs in the
    series, in ascending order of the month; a month without a row in the
    series has no row in the frame.  The two averages of a month are the
    sums over the rows of that month, of all years, divided by their
    number: they are never [NaN], and each lies between the smallest and
    the largest value of its column in that month. *)
Theorem monthly_avg_of_months :
  forall tt : list row,
    StronglySorted Z.lt (map mo_month (monthly_avg tt))
    /\ (forall m, In m (map mo_month (monthly_avg tt)) <-> In m (map month tt))
    /\ (forall row, In row (monthly_avg tt) ->
          let rows := month_rows (mo_month row) tt in
          rows <> []
          /\ avg_5_17 row
             = Fin (IZR (Yearly.exact_sum (map total_5_17 rows))
                    / IZR (Z.of_nat (List.length rows)))
          /\ avg_17_plus row
             = Fin (IZR (Yearly.exact_sum (map total_17_plus rows))
                    / IZR (Z.of_nat (List.length rows))))
    /\ (forall row lo hi, In row (monthly_avg tt) ->
          Forall (fun r => (lo <= total_5_17 r <= hi)%Z) (month_rows (mo_month row) tt) ->
          exists x, avg_5_17 row = Fin x /\ IZR lo <= x <= IZR hi)
    /\ (forall row lo hi, In row (monthly_avg tt) ->
          Forall (fun r => (lo <= total_17_plus r <= hi)%Z)
                 (month_rows (mo_month row) tt) ->
          exists x, avg_17_plus row = Fin x /\ IZR lo <= x <= IZR hi).
Proof.
  intro tt.
  assert (Hlen : forall rows : list row, rows <> [] ->
                   (0 < Z.of_nat (List.length rows))%Z).
  { intros [|r rows] H; [contradiction|]. rewrite length_cons. lia. }
  split.
  { rewrite monthly_avg_months. apply gb_sorted. }
  split.
  { intro m. rewrite monthly_avg_months. split.
    - intro H. apply in_map_iff in H. destruct H as ([m' v] & <- & Hin).
      apply gb_in in Hin. simpl. apply (gb_rows_nonempty month).
      intro E. rewrite E in Hin. discriminate.
    - intro H. apply (gb_rows_nonempty month) in H.
      destruct (gb_acc acc_init acc_step (gb_rows month m tt)) as [v|] eqn:E.
      + apply gb_in in E. now apply (in_map fst) in E.
      + destruct (gb_rows month m tt); [contradiction|discriminate]. }
  split.
  { intros row Hrow rows.
    destruct (monthly_avg_row _ _ Hrow) as (Hne & H5 & H17).
    fold rows in Hne, H5, H17.
    pose proof (Hlen rows Hne) as Hn. apply IZR_lt in Hn.
    split; [exact Hne|].
    rewrite H5, H17. unfold mean, of_int.
    rewrite !div_fin by lra. split; reflexivity. }
  split.
  { intros row lo hi Hrow Hall.
    destruct (monthly_avg_row _ _ Hrow) as (Hne & H5 & _).
    destruct (@mean_between _ _ lo hi (Hlen _ Hne) (@exact_sum_between total_5_17 _ lo hi Hall)) as [E B].
    rewrite H5, E. eauto. }
  intros row lo hi Hrow Hall.
  destruct (monthly_avg_row _ _ Hrow) as (Hne & _ & H17).
  destruct (@mean_between _ _ lo hi (Hlen _ Hne) (@exact_sum_between total_17_plus _ lo hi Hall)) as [E B].
  rewrite H17, E. eauto.
Qed.

(** The three years of the example: March has the single row of 2021. *)
Lemma monthly_avg_of_months_witness :
  In (mk_monthly 3 (mean 40 1) (mean 10 1)) (monthly_avg Yearly.three_years)
  /\ exists x, mean 40 1 = Fin x /\ IZR 40 <= x <= IZR 40.
Proof.
  assert (Hin : In (mk_monthly 3 (mean 40 1) (mean 10 1))
                   (monthly_avg Yearly.three_years)).
  { right. left. reflexivity. }
  split; [exact Hin|].
  destruct (monthly_avg_of_months Yearly.three_years) as (_ & _ & _ & H & _).
  apply (H _ 40%Z 40%Z Hin).
  repeat constructor; simpl; lia.
Defined.

End SeasonalityFacts.

(** ** The scenario planner: what the formulas imply *)

Module ScenarioMore.
Import F64 F64Facts Scenario ScenarioFacts.
Local Open Scope R_scope.

Lemma impact_value_product (baseline growth_rate : Z) :
  impact_value baseline growth_rate = IZR baseline * IZR growth_rate / 100.
Proof. unfold impact_value. field. Qed.

(** X10.  The two planner metrics are tied to each other: whenever the
    impact is positive and the budget is not zero, cost per update times
    impact gives back the budget in rupees, and cost per update times the
    ROI percentage is 100 times the value per update, whatever the baseline,
    the growth rate and the budget.  The impact is
    [baseline * growth_rate / 100]; when it is not positive, with a positive
    budget and a non-negative value per update, the cost per update is 0 and
    the ROI is not positive. *)
Theorem cost_times_roi :
  forall (v baseline growth_rate budget_allocation : Z) (p : projection),
    scenario_with v baseline growth_rate budget_allocation = Ok p ->
    impact p = Fin (IZR baseline * IZR growth_rate / 100)
    /\ (0 < impact_value baseline growth_rate -> budget_allocation <> 0%Z ->
        exists c r,
          cost_per_update p = Fin c /\ roi p = Fin r
          /\ c * impact_value baseline growth_rate = IZR (budget_rupees budget_allocation)
          /\ c * r = 100 * IZR v)
    /\ (impact_value baseline growth_rate <= 0 -> (0 < budget_allocation)%Z ->
        (0 <= v)%Z ->
        cost_per_update p = Fin 0 /\ exists r, roi p = Fin r /\ r <= 0).
Proof.
  intros v baseline growth_rate budget_allocation p Hp.
  rewrite scenario_with_eq in Hp.
  match type of Hp with Ok ?x = _ => assert (E : p = x) by congruence end.
  subst p. cbn [projected impact cost_per_update roi]. clear Hp.
  split; [now rewrite impact_value_product|].
  split.
  - intros Hpos Hb.
    pose proof (budget_rupees_nonzero Hb) as Hbr.
    rewrite (gtb_fin_zero_true Hpos). unfold of_int.
    rewrite !div_fin by lra.
    eexists. eexists. split; [reflexivity|]. split; [reflexivity|].
    split; field; lra.
  - intros Hneg Hb Hv.
    rewrite (gtb_fin_zero_false Hneg). split; [reflexivity|].
    assert (Hbr : 0 < IZR (budget_rupees budget_allocation)).
    { unfold budget_rupees. apply IZR_lt. lia. }
    unfold of_int. rewrite div_fin by lra.
    eexists. split; [reflexivity|].
    apply IZR_le in Hv.
    assert (Hq : impact_value baseline growth_rate * IZR v
                 / IZR (budget_rupees budget_allocation) <= 0).
    { apply Rmult_le_reg_r with (IZR (budget_rupees budget_allocation)); [exact Hbr|].
      unfold Rdiv. rewrite Rmult_assoc, Rinv_l by lra.
      rewrite Rmult_1_r, Rmult_0_l.
      replace 0 with (0 * IZR v) by lra.
      now apply Rmult_le_compat_r. }
    lra.
Qed.

(** The example of the planner: 150 updates at 33 333 333.33 rupees each. *)
Lemma cost_times_roi_witness :
  exists p c r,
    scenario_with 500 1000 15 500 = Ok p
    /\ cost_per_update p = Fin c /\ roi p = Fin r
    /\ c * r = 100 * IZR 500.
Proof.
  pose proof (scenario_with_eq 500 1000 15 500) as E.
  destruct (cost_times_roi E) as (_ & H & _).
  destruct H as (c & r & Hc & Hr & _ & Hcr).
  - unfold impact_value. lra.
  - discriminate.
  - eexists. exists c, r. split; [exact E|]. auto.
Defined.

End ScenarioMore.

(** ** The simulation curve *)

Module SimulationFacts.
Import F64 F64Facts Scenario ScenarioFacts Simulation.
Local Open Scope R_scope.

Lemma mapM_ok {A B : Type} (f : A -> result B) (g : A -> B) (l : list A) :
  (forall x, In x l -> f x = Ok (g x)) -> mapM f l = Ok (map g l).
Proof.
  induction l as [|x l IH]; intro H; [reflexivity|].
  simpl. rewrite (H x (or_introl eq_refl)), IH; [reflexivity|].
  intros y Hy. apply H. now right.
Qed.

Lemma projection_value_ok (baseline growth_rate : Z) (d m : nat) :
  (1 <= d)%nat ->
  projection_value baseline growth_rate d m = Ok (curve baseline growth_rate d m).
Proof.
  intro Hd. unfold projection_value, py_truediv.
  destruct (Z.of_nat d =? 0)%Z eqn:E; [apply Z.eqb_eq in E; lia|].
  simpl. unfold curve. rewrite !INR_IZR_INZ. reflexivity.
Qed.

(** X11.  For a duration of at least one month the simulation returns one
    value per month from 0 to the duration; the value of month [m] is
    [baseline * (1 + growth_rate/100 * m/duration)]: the curve starts at the
    baseline and ends at the projected value of the impact panel.  A
    duration of zero would raise [ZeroDivisionError]. *)
Theorem simulation_curve :
  forall (baseline growth_rate : Z) (d : nat),
    ((1 <= d)%nat ->
     exists vs,
       projection_values baseline growth_rate d = Ok vs
       /\ List.length vs = (d + 1)%nat
       /\ (forall m, (m <= d)%nat ->
             nth_error vs m = Some (curve baseline growth_rate d m))
       /\ nth_error vs 0 = Some (of_int baseline)
       /\ (forall v b p, scenario_with v baseline growth_rate b = Ok p ->
             nth_error vs d = Some (projected p)))
    /\ projection_values baseline growth_rate 0 = Raise ZeroDivisionError.
Proof.
  intros baseline growth_rate d. split; [|reflexivity].
  intro Hd.
  assert (Hd' : INR d <> 0) by (apply not_0_INR; lia).
  exists (map (curve baseline growth_rate d) (seq 0 (d + 1))).
  assert (Hnth : forall m, (m <= d)%nat ->
            nth_error (map (curve baseline growth_rate d) (seq 0 (d + 1))) m
            = Some (curve baseline growth_rate d m)).
  { intros m Hm. rewrite nth_error_map.
    rewrite nth_error_nth' with (d := O) by (rewrite length_seq; lia).
    rewrite seq_nth by lia. reflexivity. }
  split.
  { unfold projection_values. apply mapM_ok.
    intros m _. now apply projection_value_ok. }
  split; [now rewrite length_map, length_seq|].
  split; [exact Hnth|].
  split.
  { rewrite Hnth by lia. unfold curve, of_int. do 2 f_equal.
    simpl INR. field. exact Hd'. }
  intros v b p Hp. rewrite scenario_with_eq in Hp.
  match type of Hp with Ok ?x = _ => assert (E : p = x) by congruence end.
  subst p. cbn [projected]. rewrite Hnth by lia.
  unfold curve. do 2 f_equal. field. exact Hd'.
Qed.

(** Six months at a growth rate of 15 percent from a baseline of 1000. *)
Lemma simulation_curve_witness :
  exists vs,
    projection_values 1000 15 6 = Ok vs
    /\ List.length vs = 7%nat
    /\ nth_error vs 0 = Some (of_int 1000).
Proof.
  destruct (simulation_curve 1000 15 6) as [H _].
  destruct H as (vs & Hvs & Hlen & _ & H0 & _).
  - lia.
  - exists vs. auto.
Defined.

End SimulationFacts.

(** ** The demand forecast: what the formula implies *)

Module ForecastMore.
Import TimeTrends F64 F64Facts Forecast ForecastFacts.
Local Open Scope R_scope.

Lemma iloc_last_snoc {A : Type} (l : list A) (x : A) : iloc_last (l ++ [x]) = Ok x.
Proof. unfold iloc_last. now rewrite rev_app_distr. Qed.

Lemma iloc_last_inv {A : Type} (l : list A) (x : A) :
  iloc_last l = Ok x -> exists l', l = l' ++ [x].
Proof.
  unfold iloc_last. intro H.
  destruct (rev l) as [|y l'] eqn:E; [discriminate|].
  injection H as ->. exists (rev l').
  apply (f_equal (@rev A)) in E. rewrite rev_involutive in E. exact E.
Qed.

(** The last row of the trailing window is the last row of the table. *)
Lemma tail_last {A B : Type} (f : A -> B) (n : nat) (l : list A) :
  (1 <= n)%nat -> iloc_last (map f (tail (S (pred n)) l)) = iloc_last (map f l).
Proof.
  intro Hn. destruct (iloc_last (map f l)) as [x|e] eqn:E.
  - apply iloc_last_inv in E. destruct E as (l' & E).
    destruct l as [|a l0] using rev_ind.
    + destruct l'; discriminate.
    + clear IHl0. rewrite map_app in E. simpl in E.
      apply app_inj_tail in E. destruct E as [_ <-].
      unfold tail. rewrite length_app. simpl List.length.
      rewrite skipn_app.
      replace (List.length l0 + 1 - S (pred n) - List.length l0)%nat with O by lia.
      simpl skipn. rewrite map_app. simpl. apply iloc_last_snoc.
  - apply iloc_last_raise in E. destruct E as [E ->].
    destruct l; [reflexivity|discriminate].
Qed.

Lemma growth_sign (first last : Z) :
  (0 < first)%Z -> (0 < last)%Z ->
  let g := Rpower (IZR last / IZR first) (1 / 12) - 1 in
  (1 + g) ^ 12 = IZR last / IZR first
  /\ -1 < g
  /\ ((first < last)%Z -> 0 < g)
  /\ (first = last -> g = 0)
  /\ ((last < first)%Z -> g < 0).
Proof.
  intros Hf Hl g.
  apply IZR_lt in Hf, Hl.
  assert (Hr : 0 < IZR last / IZR first) by now apply Rdiv_lt_0_compat.
  assert (E12 : 1 / 12 = 1 / INR 12) by (simpl; lra).
  subst g. rewrite E12.
  split.
  { replace (1 + (Rpower (IZR last / IZR first) (1 / INR 12) - 1))
      with (Rpower (IZR last / IZR first) (1 / INR 12)) by lra.
    apply Rpower_root_pow; [exact Hr|lia]. }
  split.
  { pose proof (exp_pos (1 / INR 12 * ln (IZR last / IZR first))) as H.
    unfold Rpower. lra. }
  split.
  { intro H. apply IZR_lt in H.
    assert (H1 : 1 < Rpower (IZR last / IZR first) (1 / INR 12)).
    { apply root_above; try lra; try lia. rewrite pow1.
      apply Rmult_lt_reg_r with (IZR first); [exact Hf|].
      unfold Rdiv. rewrite Rmult_assoc, Rinv_l by lra. lra. }
    lra. }
  split.
  { intros ->. replace (IZR last / IZR last) with 1 by (field; lra).
    rewrite Rpower_one. lra. }
  intro H. apply IZR_lt in H.
  assert (H1 : Rpower (IZR last / IZR first) (1 / INR 12) < 1).
  { apply root_below; try lra; try lia. rewrite pow1.
    apply Rmult_lt_reg_r with (IZR first); [exact Hf|].
    unfold Rdiv. rewrite Rmult_assoc, Rinv_l by lra. lra. }
  lra.
Qed.

(** X12.  On a history whose trailing window starts and ends at positive
    values, and whose forecast months a timestamp can hold, the forecast
    returns.  Its growth [g] is the rate that,
    compounded over twelve months, reproduces the ratio of the last to the
    first value of the window; it is positive, zero or negative as the last
    value is above, equal to or below the first.  The value forecast for
    month [k] is the last value of the table times [(1 + g)^k] (the last row
    of the window is the last row of the table), so the forecast rises
    strictly when the window rose and is the last value repeated when the
    window ends where it started. *)
Theorem forecast_compounds :
  forall (last_month : Z) (tt : list row) (n : nat) (first last : Z),
    iloc_first (map total_17_plus (tail 12 tt)) = Ok first ->
    iloc_last (map total_17_plus tt) = Ok last ->
    (0 < first)%Z -> (0 < last)%Z ->
    (last_forecast_month tt n <= last_month)%Z ->
    exists fc g,
      demand_forecast last_month tt n = Ok fc
      /\ avg_growth fc = Fin g
      /\ (1 + g) ^ 12 = IZR last / IZR first
      /\ ((first < last)%Z -> 0 < g)
      /\ (first = last -> g = 0)
      /\ ((last < first)%Z -> g < 0)
      /\ forecast_values fc = map (fun k => Fin (IZR last * (1 + g) ^ k)) (seq 1 n)
      /\ ((first < last)%Z ->
          forall k, IZR last * (1 + g) ^ k < IZR last * (1 + g) ^ S k)
      /\ (first = last ->
          Forall (fun v => v = Fin (IZR last)) (forecast_values fc)).
Proof.
  intros last_month tt n first last Hfirst Hlast Hf Hl Hin.
  assert (Hne : tt <> []).
  { intros ->. discriminate. }
  destruct (date_max_rows Hne) as (y & m & Hdate).
  rewrite (last_forecast_month_rows tt n Hdate) in Hin.
  assert (Hwin : iloc_last (map total_17_plus (tail 12 tt)) = Ok last).
  { rewrite <- Hlast. apply (tail_last total_17_plus (n := 12)). lia. }
  pose proof (@demand_forecast_growth last_month tt n first last last y m
                Hwin Hfirst Hdate Hlast Hf Hl Hin) as E.
  destruct (growth_sign Hf Hl) as (G1 & G2 & G3 & G4 & G5).
  eexists. eexists. split; [exact E|].
  cbn [avg_growth forecast_values].
  split; [reflexivity|].
  split; [exact G1|]. split; [exact G3|]. split; [exact G4|]. split; [exact G5|].
  split; [reflexivity|].
  split.
  - intros H k. specialize (G3 H). apply IZR_lt in Hl.
    simpl pow.
    assert (Hp : 0 < (1 + (Rpower (IZR last / IZR first) (1 / 12) - 1)) ^ k)
      by (apply pow_lt; lra).
    apply Rmult_lt_compat_l; [exact Hl|]. nra.
  - intro H. specialize (G4 H). rewrite G4.
    apply Forall_forall. intros v Hv. apply in_map_iff in Hv.
    destruct Hv as (k & <- & _). f_equal.
    replace (1 + 0) with 1 by lra. rewrite pow1. lra.
Qed.

(** The twelve months that go from 100 to 200, with timestamps of
    nanosecond resolution. *)
Lemma forecast_compounds_witness :
  exists fc g,
    demand_forecast nanosecond_last_month doubling_year 6 = Ok fc
    /\ avg_growth fc = Fin g
    /\ (1 + g) ^ 12 = IZR 200 / IZR 100
    /\ 0 < g.
Proof.
  assert (Hlt : (100 < 200)%Z) by lia.
  assert (Hin : (last_forecast_month doubling_year 6 <= nanosecond_last_month)%Z)
    by (vm_compute; discriminate).
  destruct (@forecast_compounds nanosecond_last_month doubling_year 6 100 200
              eq_refl eq_refl) as (fc & g & E & Hg & H12 & Hpos & _);
    try lia; try exact Hin.
  exists fc, g. split; [exact E|]. split; [exact Hg|]. split; [exact H12|].
  exact (Hpos Hlt).
Defined.

End ForecastMore.

(** ** The stages of a run, in the order of the script *)

Module SessionRunFacts.
Import Session SessionFacts SessionRun.

Lemma extends_refl (h : heap) : extends h h.
Proof. intros i f H. exact H. Qed.

Lemma extends_trans (h1 h2 h3 : heap) :
  extends h1 h2 -> extends h2 h3 -> extends h1 h3.
Proof. intros H12 H23 i f H. auto. Qed.

Lemma extends_app (h l : heap) : extends h (h ++ l).
Proof.
  intros i f H. rewrite nth_error_app1; [exact H|].
  apply nth_error_Some. congruence.
Qed.

Lemma preserves_extends {A : Type} (m : M A) (Q : A -> Prop) (h h' : heap)
    (r : result A) :
  preserves (List.length h) m Q -> m h = (r, h') -> extends h h'.
Proof.
  intros Hm E i f H.
  assert (K : nth_error (snd (m h)) i = Some f).
  { apply leaves_store_lookup; [|exact H]. eapply preserves_leaves, Hm. }
  now rewrite E in K.
Qed.

Lemma run_filter_stage (h : heap) (dp : nat) (w : widgets) d :
  nth_error h dp = Some (District d) ->
  exists id h',
    filter_stage dp w h = (Ok id, h')
    /\ nth_error h' id = Some (District (filtered_rows d w))
    /\ extends h h'.
Proof.
  intro H. destruct (@filter_stage_result h dp w d H) as (id & h' & E & F).
  exists id, h'. split; [exact E|]. split; [exact F|].
  eapply preserves_extends; [apply preserves_filter_stage|exact E].
Qed.

Lemma run_metrics_stage (h : heap) (id : nat) rows :
  nth_error h id = Some (District rows) ->
  metrics_stage id h
  = (Ok (Int64.sum (map DistrictProfile.total_5_17 rows),
         Int64.sum (map DistrictProfile.total_17_plus rows),
         Filter.anomaly_count rows), h).
Proof.
  intro H. unfold metrics_stage. run_step. reflexivity.
Qed.

Lemma run_top_stage (h : heap) (id : nat) rows :
  nth_error h id = Some (District rows) ->
  top_stage id h
  = (Ok (List.length h, S (List.length h)),
     h ++ [District (TopN.top_districts rows); District (TopN.top_demo rows)]).
Proof.
  intro H. unfold top_stage. run_step. run_step. run_step.
  unfold mret. rewrite length_app, <- app_assoc. simpl.
  repeat f_equal. lia.
Qed.

Lemma run_top_districts_stage (h : heap) (id : nat) rows :
  nth_error h id = Some (District rows) ->
  top_districts_stage id h
  = (Ok (List.length h), h ++ [District (TopN.top_districts rows)]).
Proof. intro H. unfold top_districts_stage. run_step. reflexivity. Qed.

Lemma run_top_demo_stage (h : heap) (id : nat) rows :
  nth_error h id = Some (District rows) ->
  top_demo_stage id h
  = (Ok (List.length h), h ++ [District (TopN.top_demo rows)]).
Proof. intro H. unfold top_demo_stage. run_step. reflexivity. Qed.

Lemma run_pie_stage (h : heap) (id : nat) rows :
  nth_error h id = Some (District rows) ->
  pie_stage id h
  = (if Nat.eqb (distinct_flags rows) 2 then Ok tt else Raise ValueError, h).
Proof.
  intro H. unfold pie_stage. run_step.
  now destruct (Nat.eqb (distinct_flags rows) 2).
Qed.

Lemma run_forecast_stage (last_month : Z) (h : heap) (tt : nat) rows :
  nth_error h tt = Some (Trends rows) ->
  forecast_stage last_month tt h
  = (Forecast.demand_forecast last_month rows Forecast.future_months,
     h ++ [Trends (Forecast.tail 12 rows)]).
Proof.
  intro H. unfold forecast_stage. run_step. run_step. reflexivity.
Qed.

Lemma run_scenario_stage (h : heap) (dp : nat) (w : widgets) d :
  nth_error h dp = Some (District d) ->
  exists r h',
    scenario_stage dp w h = (Ok r, h')
    /\ extends h h'
    /\ (r = None <-> target_states_scenario w = [])
    /\ (forall p, r = Some p ->
          Scenario.scenario (Scenario.baseline (target_rows d w) (target_age_group w))
                            (growth_rate w) (budget_allocation w)
          = Ok p).
Proof.
  intro H.
  assert (Hext : forall r h', scenario_stage dp w h = (r, h') -> extends h h').
  { intros r h' E. eapply preserves_extends; [apply preserves_scenario_stage|exact E]. }
  unfold scenario_stage in *. unfold target_rows.
  destruct (target_states_scenario w) as [|s rest] eqn:Et.
  - exists None, h. split; [reflexivity|]. split; [apply extends_refl|].
    split; [tauto|discriminate].
  - revert Hext. run_step. run_step.
    unfold Scenario.scenario at 1. rewrite ScenarioFacts.scenario_with_eq.
    run_step. intro Hext.
    eexists. eexists. split; [reflexivity|].
    split; [eapply Hext; reflexivity|].
    split; [split; discriminate|].
    intros p Hp. injection Hp as <-.
    unfold Scenario.scenario. now rewrite ScenarioFacts.scenario_with_eq.
Qed.

(** The stages of a run, one after the other, on a store that holds the two
    tables. *)
Lemma dashboard_stages (last_month : Z) (h : heap) (dp tt : nat) (w : widgets) d t :
  nth_error h dp = Some (District d) ->
  nth_error h tt = Some (Trends t) ->
  exists fid h1 r h5,
    let h2 := h1 ++ [District (TopN.top_districts (filtered_rows d w))] in
    let h3 := h2 ++ [District (TopN.top_demo (filtered_rows d w))] in
    let yg := YearlyFrame (Yearly.groupby_year_sum t)
                (Some (Yearly.growth_5_17_column (Yearly.groupby_year_sum t)))
                (Some (Yearly.growth_17_plus_column (Yearly.groupby_year_sum t))) in
    let h4 := (h3 ++ [yg]) ++ [Trends (Forecast.tail 12 t)] in
    nth_error h1 fid = Some (District (filtered_rows d w))
    /\ extends h4 h5
    /\ (r = None <-> target_states_scenario w = [])
    /\ (forall p, r = Some p ->
          Scenario.scenario (Scenario.baseline (target_rows d w) (target_age_group w))
                            (growth_rate w) (budget_allocation w)
          = Ok p)
    /\ dashboard last_month dp tt w h
       = if Nat.eqb (distinct_flags (filtered_rows d w)) 2
         then match Forecast.demand_forecast last_month t Forecast.future_months with
              | Ok fc =>
                (Ok (mk_outputs fid
                       (Int64.sum (map DistrictProfile.total_5_17 (filtered_rows d w)),
                        Int64.sum (map DistrictProfile.total_17_plus (filtered_rows d w)),
                        Filter.anomaly_count (filtered_rows d w))
                       (List.length h1, List.length h2)
                       (List.length h3) fc r), h5)
              | Raise e => (Raise e, h4)
              end
         else (Raise ValueError, h2).
Proof.
  intros Hd Ht.
  destruct (@run_filter_stage h dp w d Hd) as (fid & h1 & E1 & F1 & X1).
  pose proof (@run_metrics_stage h1 fid _ F1) as E2.
  pose proof (@run_top_districts_stage h1 fid _ F1) as E3.
  set (h2 := h1 ++ [District (TopN.top_districts (filtered_rows d w))]) in *.
  assert (X2 : extends h1 h2) by apply extends_app.
  pose proof (@run_pie_stage h2 fid _ (X2 _ _ F1)) as Epie.
  pose proof (@run_top_demo_stage h2 fid _ (X2 _ _ F1)) as Edemo.
  set (h3 := h2 ++ [District (TopN.top_demo (filtered_rows d w))]) in *.
  assert (X3 : extends h2 h3) by apply extends_app.
  assert (T3 : nth_error h3 tt = Some (Trends t)) by (apply X3, X2, X1, Ht).
  pose proof (@yearly_stage_result h3 tt t T3) as E4.
  set (yg := YearlyFrame (Yearly.groupby_year_sum t)
               (Some (Yearly.growth_5_17_column (Yearly.groupby_year_sum t)))
               (Some (Yearly.growth_17_plus_column (Yearly.groupby_year_sum t)))) in *.
  assert (X4 : extends h3 (h3 ++ [yg])) by apply extends_app.
  pose proof (@run_forecast_stage last_month (h3 ++ [yg]) tt t (X4 _ _ T3)) as E5.
  set (h4 := (h3 ++ [yg]) ++ [Trends (Forecast.tail 12 t)]) in *.
  assert (X5 : extends (h3 ++ [yg]) h4) by apply extends_app.
  assert (D4 : nth_error h4 dp = Some (District d))
    by (apply X5, X4, X3, X2, X1, Hd).
  destruct (@run_scenario_stage h4 dp w d D4) as (r & h5 & E6 & X6 & Hr & Hp).
  exists fid, h1, r, h5. cbv zeta. fold h2 h3 yg h4.
  split; [exact F1|]. split; [exact X6|]. split; [exact Hr|]. split; [exact Hp|].
  unfold dashboard.
  rewrite (@run_bind _ _ _ _ _ _ _ E1), (@run_bind _ _ _ _ _ _ _ E2),
    (@run_bind _ _ _ _ _ _ _ E3).
  unfold mbind at 1. rewrite Epie.
  destruct (Nat.eqb (distinct_flags (filtered_rows d w)) 2); [|reflexivity].
  rewrite (@run_bind _ _ _ _ _ _ _ Edemo), (@run_bind _ _ _ _ _ _ _ E4).
  unfold mbind at 1. rewrite E5.
  destruct (Forecast.demand_forecast last_month t Forecast.future_months) as [fc|e];
    [|reflexivity].
  rewrite (@run_bind _ _ _ _ _ _ _ E6). reflexivity.
Qed.

(** X13.  The stages of a run on a store that holds the two tables.  When
    they return, the filtered table holds exactly two distinct values of
    [anomaly_flag] (otherwise the pie chart of line 188 raises), the table
    [time_trends] is not empty and its forecast months can be held by a
    timestamp (otherwise the forecast raises); and what is returned is what
    the parts compute on the tables: the filtered frame holds
    [Filter.filtered_data] of [district_profile]; the metrics and the two
    frames of largest rows are computed from that filtered frame; the frame
    [yearly_growth] holds the yearly groups of [time_trends] with both
    growth columns set; the forecast is the six-month forecast of
    [time_trends]; and the planner's projection is absent exactly when no
    target state is chosen, and is otherwise computed from the rows of the
    target states of the whole table, not of the filtered one. *)
Theorem dashboard_run :
  forall (last_month : Z) (h : heap) (dp tt : nat) (w : widgets) d t o,
    nth_error h dp = Some (District d) ->
    nth_error h tt = Some (Trends t) ->
    fst (dashboard last_month dp tt w h) = Ok o ->
    let h' := snd (dashboard last_month dp tt w h) in
    distinct_flags (filtered_rows d w) = 2%nat
    /\ t <> []
    /\ (Forecast.last_forecast_month t Forecast.future_months <= last_month)%Z
    /\ nth_error h' (out_filtered_data o) = Some (District (filtered_rows d w))
    /\ out_metrics o
       = (Int64.sum (map DistrictProfile.total_5_17 (filtered_rows d w)),
          Int64.sum (map DistrictProfile.total_17_plus (filtered_rows d w)),
          Filter.anomaly_count (filtered_rows d w))
    /\ nth_error h' (fst (out_top o))
       = Some (District (TopN.top_districts (filtered_rows d w)))
    /\ nth_error h' (snd (out_top o))
       = Some (District (TopN.top_demo (filtered_rows d w)))
    /\ nth_error h' (out_yearly_growth o)
       = Some (YearlyFrame (Yearly.groupby_year_sum t)
                 (Some (Yearly.growth_5_17_column (Yearly.groupby_year_sum t)))
                 (Some (Yearly.growth_17_plus_column (Yearly.groupby_year_sum t))))
    /\ Forecast.demand_forecast last_month t Forecast.future_months
       = Ok (out_forecast o)
    /\ (out_projection o = None <-> target_states_scenario w = [])
    /\ (forall p, out_projection o = Some p ->
          Scenario.scenario
            (Scenario.baseline (target_rows d w) (target_age_group w))
            (growth_rate w) (budget_allocation w)
          = Ok p).
Proof.
  intros last_month h dp tt w d t o Hd Ht Hrun h'. subst h'.
  destruct (@dashboard_stages last_month h dp tt w d t Hd Ht)
    as (fid & h1 & r & h5 & F1 & X6 & Hr & Hp & Erun).
  cbv zeta in X6, Erun.
  rewrite Erun in Hrun |- *. clear Erun.
  destruct (Nat.eqb (distinct_flags (filtered_rows d w)) 2) eqn:Epie;
    [|discriminate].
  apply Nat.eqb_eq in Epie.
  destruct (Forecast.demand_forecast last_month t Forecast.future_months)
    as [fc|e] eqn:Efc; [|discriminate].
  cbn [fst snd] in Hrun |- *.
  match type of Hrun with Ok ?x = _ => assert (Eo : o = x) by congruence end.
  subst o.
  cbn [out_filtered_data out_metrics out_top out_yearly_growth
       out_forecast out_projection fst snd].
  assert (Hne : t <> []).
  { intros ->. discriminate. }
  split; [exact Epie|]. split; [exact Hne|].
  split.
  { destruct (Z_le_gt_dec (Forecast.last_forecast_month t Forecast.future_months)
                          last_month) as [Hle|Hgt]; [exact Hle|].
    rewrite ForecastFacts.demand_forecast_out_of_range in Efc by (try assumption; lia).
    discriminate. }
  split; [apply X6; do 4 apply extends_app; exact F1|].
  split; [reflexivity|].
  split; [apply X6; do 3 apply extends_app; apply nth_error_last|].
  split; [apply X6; do 2 apply extends_app; apply nth_error_last|].
  split; [apply X6, extends_app, nth_error_last|].
  split; [reflexivity|].
  split; [exact Hr|exact Hp].
Qed.

(** A run on the two example tables, with one target state and timestamps
    of nanosecond resolution. *)
Lemma dashboard_run_witness :
  let h := [District two_districts; Trends two_months] in
  let w := mk_widgets ["All States"%string] (0, 1)%Q false Scenario.Both 15 500
                      ["Kerala"%string] in
  exists o,
    fst (dashboard Forecast.nanosecond_last_month 0 1 w h) = Ok o
    /\ distinct_flags (filtered_rows two_districts w) = 2%nat
    /\ out_metrics o = (15, 28, 1)%Z.
Proof.
  intros h w.
  destruct (@dashboard_stages Forecast.nanosecond_last_month h 0 1 w
              two_districts two_months eq_refl eq_refl)
    as (fid & h1 & r & h5 & _ & _ & _ & _ & Erun).
  cbv zeta in Erun.
  assert (Epie : Nat.eqb (distinct_flags (filtered_rows two_districts w)) 2 = true)
    by (vm_compute; reflexivity).
  rewrite Epie in Erun.
  destruct (@ForecastFacts.demand_forecast_nonempty Forecast.nanosecond_last_month
              two_months Forecast.future_months)
    as (f & l & v & y & m & _ & Ef); [discriminate|vm_compute; discriminate|].
  rewrite Ef in Erun.
  eexists. split; [rewrite Erun; reflexivity|].
  match goal with
  | |- _ /\ out_metrics ?o = _ =>
    destruct (@dashboard_run Forecast.nanosecond_last_month h 0 1 w
                two_districts two_months o eq_refl eq_refl)
      as (H2 & _ & _ & _ & Hm & _)
  end.
  - rewrite Erun. reflexivity.
  - split; [exact H2|]. rewrite Hm. vm_compute. reflexivity.
Defined.

End SessionRunFacts.

(** ** The dates of the forecast *)

Module CalendarFacts.
Import TimeTrends Forecast ForecastFacts Calendar.

Lemma shift_months_valid (d : timestamp) (k : Z) : d <> NaT -> valid (shift_months d k).
Proof.
  destruct d as [|y m]; [contradiction|]. intros _. simpl.
  pose proof (Z.mod_pos_bound (y * 12 + (m - 1) + k) 12). lia.
Qed.

Lemma shift_months_next (d : timestamp) (k : Z) :
  shift_months d (k + 1) = next_month (shift_months d k).
Proof.
  destruct d as [|y m]; [reflexivity|]. simpl.
  set (t := (y * 12 + (m - 1) + k)%Z).
  replace (y * 12 + (m - 1) + (k + 1))%Z with (t + 1)%Z by (subst t; lia).
  pose proof (Z.div_mod t 12) as Ht.
  pose proof (Z.mod_pos_bound t 12) as Hb.
  destruct (t mod 12 + 1 =? 12)%Z eqn:E.
  - apply Z.eqb_eq in E.
    assert (E1 : (t + 1 = 12 * (t / 12 + 1) + 0)%Z) by lia.
    assert (Hd : ((t + 1) / 12 = t / 12 + 1)%Z).
    { symmetry. apply (Z.div_unique (t + 1) 12 (t / 12 + 1) 0); lia. }
    assert (Hm : ((t + 1) mod 12 = 0)%Z).
    { symmetry. apply (Z.mod_unique (t + 1) 12 (t / 12 + 1) 0); lia. }
    now rewrite Hd, Hm.
  - apply Z.eqb_neq in E.
    assert (Hd : ((t + 1) / 12 = t / 12)%Z).
    { symmetry. apply (Z.div_unique (t + 1) 12 (t / 12) (t mod 12 + 1)); lia. }
    assert (Hm : ((t + 1) mod 12 = t mod 12 + 1)%Z).
    { symmetry. apply (Z.mod_unique (t + 1) 12 (t / 12) (t mod 12 + 1)); lia. }
    now rewrite Hd, Hm.
Qed.

Lemma shift_months_zero (d : timestamp) : valid d -> shift_months d 0 = d.
Proof.
  destruct d as [|y m]; [contradiction|]. simpl. intro Hm.
  replace (y * 12 + (m - 1) + 0)%Z with (m - 1 + y * 12)%Z by lia.
  rewrite Z.div_add, Z.mod_add by lia.
  rewrite Z.div_small, Z.mod_small by lia.
  f_equal; lia.
Qed.

Lemma ts_leb_trans (a b c : timestamp) :
  ts_leb a b = true -> ts_leb b c = true -> ts_leb a c = true.
Proof.
  destruct a as [|y1 m1], b as [|y2 m2], c as [|y3 m3]; simpl;
    try reflexivity; try discriminate.
  rewrite !orb_true_iff, !andb_true_iff, !Z.ltb_lt, !Z.eqb_eq, !Z.leb_le. lia.
Qed.

Lemma last_default {A : Type} (l : list A) (x a b : A) :
  last (x :: l) a = last (x :: l) b.
Proof.
  revert x. induction l as [|y l IH]; intro x; [reflexivity|].
  change (last (y :: l) a = last (y :: l) b). apply IH.
Qed.

Lemma last_cons_default {A : Type} (l : list A) (x a : A) :
  last (x :: l) a = last l x.
Proof.
  destruct l as [|y l]; [reflexivity|].
  change (last (y :: l) a = last (y :: l) x). apply last_default.
Qed.

Lemma date_max_fold_ascending (l : list timestamp) (acc : timestamp) :
  ascending (acc :: l) ->
  fold_left (fun a d => if ts_leb a d then d else a) l acc = last l acc.
Proof.
  unfold ascending. revert acc. induction l as [|d l IH]; intros acc Hs; [reflexivity|].
  inversion Hs as [|? ? Hs' Hall]; subst.
  inversion Hall as [|? ? Hd _]; subst.
  cbn [fold_left]. rewrite Hd, (IH d Hs').
  symmetry. apply last_cons_default.
Qed.

Lemma demand_forecast_dates (last_month : Z) (tt : list row) (n : nat)
    (fc : forecast) :
  demand_forecast last_month tt n = Ok fc ->
  exists y m,
    date_max (map date tt) = MonthStart y m
    /\ (y * 12 + (m - 1) + Z.max 1 (Z.of_nat n) <= last_month)%Z
    /\ future_dates fc
       = map (fun k => shift_months (MonthStart y m) (1 + Z.of_nat k)) (seq 0 n)
    /\ List.length (forecast_values fc) = n.
Proof.
  intro Hfc.
  assert (Hne : tt <> []).
  { intros ->. discriminate. }
  assert (Hin : (last_forecast_month tt n <= last_month)%Z).
  { destruct (Z_le_gt_dec (last_forecast_month tt n) last_month) as [Hle|Hgt];
      [exact Hle|].
    rewrite demand_forecast_out_of_range in Hfc by (try assumption; lia).
    discriminate. }
  assert (Hw : map total_17_plus (tail 12 tt) <> [])
    by (apply map_nonempty, tail_nonempty; [lia|exact Hne]).
  destruct (iloc_first_ok Hw) as [first Hfirst].
  destruct (iloc_last_ok Hw) as [last Hlast].
  destruct (iloc_last_ok (map_nonempty total_17_plus Hne)) as [last_value Hvalue].
  destruct (date_max_rows Hne) as (y & m & Hdate).
  rewrite (last_forecast_month_rows tt n Hdate) in Hin.
  rewrite (@demand_forecast_ok last_month tt n first last last_value y m
             Hlast Hfirst Hdate Hvalue Hin) in Hfc.
  match type of Hfc with Ok ?x = _ => assert (Ex : fc = x) by congruence end.
  exists y, m. split; [exact Hdate|]. split; [exact Hin|]. rewrite Ex.
  cbn [future_dates forecast_values]. split.
  - apply map_ext. intro k. apply shift_months_add.
  - now rewrite length_map, length_seq.
Qed.

Lemma date_max_last (l : list timestamp) (d : timestamp) :
  ascending (l ++ [d]) -> date_max (l ++ [d]) = d.
Proof.
  unfold date_max. intro Hs.
  destruct l as [|a l].
  - reflexivity.
  - change ((a :: l) ++ [d]) with (a :: (l ++ [d])) in *.
    cbn [fold_left]. change (ts_leb NaT a) with true. cbn iota.
    rewrite date_max_fold_ascending by exact Hs. apply last_last.
Qed.

(** X14.  The forecast returns as many dates as values.  Every date is a
    month start with a month from 1 to 12 that a timestamp can hold, and
    each is the month after the one before it, December being followed by
    January of the next year.  When the dates of the table never decrease,
    the first forecast date is the month after the date of the last row. *)
Theorem forecast_dates_follow :
  forall (last_month : Z) (tt : list row) (n : nat) (fc : forecast),
    demand_forecast last_month tt n = Ok fc ->
    List.length (future_dates fc) = n
    /\ List.length (forecast_values fc) = n
    /\ Forall valid (future_dates fc)
    /\ Forall (fun d => (month_number d <= last_month)%Z) (future_dates fc)
    /\ (forall l d1 d2 l', future_dates fc = l ++ d1 :: d2 :: l' ->
          d2 = next_month d1)
    /\ (forall rows r, tt = rows ++ [r] -> ascending (map date tt) ->
          valid (date r) ->
          forall d rest, future_dates fc = d :: rest -> d = next_month (date r)).
Proof.
  intros last_month tt n fc Hfc.
  destruct (@demand_forecast_dates last_month tt n fc Hfc)
    as (y & m & Hmax & Hin & Hdates & Hvals).
  split; [now rewrite Hdates, length_map, length_seq|].
  split; [exact Hvals|].
  split.
  { rewrite Hdates. apply Forall_forall. intros d Hd.
    apply in_map_iff in Hd. destruct Hd as (k & <- & _).
    apply shift_months_valid. discriminate. }
  split.
  { rewrite Hdates. apply Forall_forall. intros d Hd.
    apply in_map_iff in Hd. destruct Hd as (k & <- & Hk). apply in_seq in Hk.
    rewrite shift_months_number. lia. }
  split.
  { intros l0 d1 d2 l' Hl. rewrite Hdates in Hl.
    assert (H1 : nth_error (l0 ++ d1 :: d2 :: l') (List.length l0) = Some d1).
    { now rewrite nth_error_app2, Nat.sub_diag by lia. }
    assert (H2 : nth_error (l0 ++ d1 :: d2 :: l') (S (List.length l0)) = Some d2).
    { rewrite nth_error_app2 by lia.
      replace (S (List.length l0) - List.length l0)%nat with 1%nat by lia.
      reflexivity. }
    rewrite <- Hl in H1, H2. rewrite nth_error_map in H1, H2.
    destruct (nth_error (seq 0 n) (List.length l0)) as [k1|] eqn:K1; [|discriminate].
    destruct (nth_error (seq 0 n) (S (List.length l0))) as [k2|] eqn:K2; [|discriminate].
    assert (Hk1 : k1 = List.length l0).
    { pose proof K1 as K. apply nth_error_nth with (d := O) in K.
      rewrite seq_nth in K; [lia|].
      assert (Hlt : (List.length l0 < List.length (seq 0 n))%nat)
        by (apply nth_error_Some; congruence).
      now rewrite length_seq in Hlt. }
    assert (Hk2 : k2 = S (List.length l0)).
    { pose proof K2 as K. apply nth_error_nth with (d := O) in K.
      rewrite seq_nth in K; [lia|].
      assert (Hlt : (S (List.length l0) < List.length (seq 0 n))%nat)
        by (apply nth_error_Some; congruence).
      now rewrite length_seq in Hlt. }
    assert (D1 : d1 = shift_months (MonthStart y m) (1 + Z.of_nat k1))
      by (cbn [option_map] in H1; congruence).
    assert (D2 : d2 = shift_months (MonthStart y m) (1 + Z.of_nat k2))
      by (cbn [option_map] in H2; congruence).
    rewrite D1, D2, Hk1, Hk2, <- shift_months_next. f_equal. lia. }
  intros rows r Htt Hasc Hvalid d rest Hd.
  rewrite Htt, map_app in Hmax, Hasc. simpl map in Hmax, Hasc.
  rewrite date_max_last in Hmax by exact Hasc.
  rewrite Hdates in Hd. destruct n as [|n']; [discriminate|].
  cbn [seq map] in Hd.
  assert (Hd0 : d = shift_months (MonthStart y m) (1 + Z.of_nat 0)) by congruence.
  rewrite Hd0, <- Hmax.
  change (1 + Z.of_nat 0)%Z with (0 + 1)%Z. rewrite shift_months_next.
  now rewrite shift_months_zero.
Qed.

(** The twelve months of 2024, with timestamps of nanosecond resolution:
    the forecast starts in January 2025. *)
Lemma forecast_dates_follow_witness :
  exists fc,
    demand_forecast nanosecond_last_month doubling_year 6 = Ok fc
    /\ List.length (future_dates fc) = 6%nat
    /\ Forall valid (future_dates fc).
Proof.
  destruct (@demand_forecast_nonempty nanosecond_last_month doubling_year 6)
    as (f & l & v & y & m & _ & E); [discriminate|vm_compute; discriminate|].
  eexists. split; [exact E|].
  destruct (@forecast_dates_follow nanosecond_last_month doubling_year 6 _ E)
    as (H1 & _ & H3 & _).
  split; [exact H1|exact H3].
Defined.

End CalendarFacts.

(** ** The charts and totals of the filtered table *)

Module FilteredFacts.
Import DistrictProfile Filter.
Local Open Scope Z_scope.

Lemma exact_sum_subseq (f : row -> Z) (s l : list row) :
  subseq s l -> Forall (fun r => 0 <= f r) l ->
  0 <= Yearly.exact_sum (map f s) <= Yearly.exact_sum (map f l).
Proof.
  unfold Yearly.exact_sum.
  induction 1 as [|x s l _ IH|x s l _ IH]; intro Hpos.
  - simpl. lia.
  - inversion Hpos; subst. specialize (IH H2). simpl. lia.
  - inversion Hpos; subst. specialize (IH H2). simpl. lia.
Qed.

Lemma filtered_total (f : row -> Z) (dp : list row) sel rng anom :
  Forall (fun r => 0 <= f r) dp ->
  Yearly.exact_sum (map f dp) < 2 ^ 63 ->
  Int64.sum (map f (filtered_data dp sel rng anom))
  = Yearly.exact_sum (map f (filtered_data dp sel rng anom))
  /\ Int64.sum (map f dp) = Yearly.exact_sum (map f dp)
  /\ 0 <= Int64.sum (map f (filtered_data dp sel rng anom)) <= Int64.sum (map f dp).
Proof.
  intros Hpos Hb.
  assert (Hs : subseq (filtered_data dp sel rng anom) dp).
  { rewrite FilterFacts.filtered_data_filter. apply subseq_filter. }
  pose proof (exact_sum_subseq f Hs Hpos) as [H0 H1].
  assert (E1 : Int64.sum (map f (filtered_data dp sel rng anom))
               = Yearly.exact_sum (map f (filtered_data dp sel rng anom))).
  { apply YearlyFacts.sum_exact. unfold Int64.in_range. lia. }
  assert (E2 : Int64.sum (map f dp) = Yearly.exact_sum (map f dp)).
  { apply YearlyFacts.sum_exact. unfold Int64.in_range. lia. }
  rewrite E1, E2. auto.
Qed.

(** X15.  When the counts of the table are non-negative and their totals
    fit in 64 bits, the two totals of the metric row (lines 106 and 107) are
    the exact sums over the filtered rows, and each lies between 0 and the
    total of the whole table: filtering never raises a total. *)
Theorem filtered_totals_bounded :
  forall (dp : list row) (sel : list string) (rng : Q * Q) (anom : bool),
    Forall (fun r => 0 <= total_5_17 r /\ 0 <= total_17_plus r) dp ->
    Yearly.exact_sum (map total_5_17 dp) < 2 ^ 63 ->
    Yearly.exact_sum (map total_17_plus dp) < 2 ^ 63 ->
    let fd := filtered_data dp sel rng anom in
    Int64.sum (map total_5_17 fd) = Yearly.exact_sum (map total_5_17 fd)
    /\ Int64.sum (map total_17_plus fd) = Yearly.exact_sum (map total_17_plus fd)
    /\ 0 <= Int64.sum (map total_5_17 fd) <= Int64.sum (map total_5_17 dp)
    /\ 0 <= Int64.sum (map total_17_plus fd) <= Int64.sum (map total_17_plus dp).
Proof.
  intros dp sel rng anom Hpos B5 B17 fd.
  assert (P5 : Forall (fun r => 0 <= total_5_17 r) dp)
    by (eapply Forall_impl; [|exact Hpos]; simpl; tauto).
  assert (P17 : Forall (fun r => 0 <= total_17_plus r) dp)
    by (eapply Forall_impl; [|exact Hpos]; simpl; tauto).
  destruct (@filtered_total total_5_17 dp sel rng anom P5 B5) as (E5 & _ & R5).
  destruct (@filtered_total total_17_plus dp sel rng anom P17 B17) as (E17 & _ & R17).
  auto.
Qed.

(** The two districts, of which the filter keeps the one of Goa. *)
Lemma filtered_totals_bounded_witness :
  0 <= Int64.sum (map total_5_17
                      (filtered_data two_districts ["Goa"%string] (0, 1)%Q false))
    <= Int64.sum (map total_5_17 two_districts).
Proof.
  destruct (@filtered_totals_bounded two_districts ["Goa"%string] (0, 1)%Q false)
    as (_ & _ & H & _).
  - repeat constructor; simpl; lia.
  - vm_compute. reflexivity.
  - vm_compute. reflexivity.
  - exact H.
Defined.

(** X16.  The two bar charts of the overview draw rows of the filtered
    table only, hence rows of the table that pass every selected test: the
    15 of largest [avg_ATI] and the 10 of largest [total_17_plus], or all
    the filtered rows when there are fewer; no filtered row left out of the
    first chart has a larger [avg_ATI] than a row drawn in it. *)
Theorem top_charts_of_filtered :
  forall (dp : list row) (sel : list string) (rng : Q * Q) (anom : bool),
    let fd := filtered_data dp sel rng anom in
    List.length (TopN.top_districts fd) = Nat.min 15 (List.length fd)
    /\ List.length (TopN.top_demo fd) = Nat.min 10 (List.length fd)
    /\ (forall r, In r (TopN.top_districts fd) \/ In r (TopN.top_demo fd) ->
          In r dp /\ keeps sel rng anom r = true)
    /\ ((List.length fd <= 15)%nat -> Permutation (TopN.top_districts fd) fd)
    /\ ((List.length fd <= 10)%nat -> Permutation (TopN.top_demo fd) fd)
    /\ (forall r r', In r (TopN.top_districts fd) -> In r' fd ->
          ~ In r' (TopN.top_districts fd) -> (avg_ATI r' <= avg_ATI r)%Q).
Proof.
  intros dp sel rng anom fd.
  split; [apply AnomaliesFacts.nlargest_length|].
  split; [apply AnomaliesFacts.nlargest_length|].
  split.
  { intros r [H|H]; apply AnomaliesFacts.In_nlargest in H;
      subst fd; rewrite FilterFacts.filtered_data_filter in H;
      now apply filter_In in H. }
  assert (Hall : forall (key : row -> Q) n,
            (List.length fd <= n)%nat -> Permutation (nlargest key n fd) fd).
  { intros key n Hn. unfold nlargest. rewrite firstn_all2.
    - apply sort_desc_perm.
    - now rewrite (Permutation_length (sort_desc_perm key fd)). }
  split; [apply Hall|]. split; [apply Hall|].
  intros r r' Hr Hr' Hn.
  unfold TopN.top_districts, nlargest in *.
  apply (descending_app (key := avg_ATI) (firstn 15 (sort_desc avg_ATI fd))
           (skipn 15 (sort_desc avg_ATI fd))).
  - rewrite firstn_skipn. apply sort_desc_sorted.
  - exact Hr.
  - assert (Hs : In r' (sort_desc avg_ATI fd)).
    { eapply Permutation_in; [symmetry; apply sort_desc_perm|exact Hr']. }
    rewrite <- (firstn_skipn 15 (sort_desc avg_ATI fd)) in Hs.
    apply in_app_or in Hs. tauto.
Qed.

End FilteredFacts.
